(** * Key search and key validation of the darwin v4 extractor

    A shallow embedding of
      - [internal/wechat/decrypt/validator.go] (the [Validator], with the
        walk over [db_storage] that loads its database files), and
      - [internal/wechat/key/darwin/v4.go] (the [V4Extractor]: the three
        searches, [SearchDerivedKey], [worker] and [Extract]),
    together with the few functions of Go's [bytes], [unicode/utf8],
    [encoding/hex], [strings] and [path/filepath] packages that the two
    files call.

    Conventions.
      - A Go [[]byte] is a [list byte]; its capacity equals its length.
      - A Go [int] that holds a slice index is a [Z]; a slice lives in the
        address space, so such an index plus or minus a pattern offset stays
        far inside 64 bits and no wrap-around is written for it.  The
        [int32] counter [matchedCount] is a [Z] with its wrap-around
        written out ([add32], [int32]).
      - A [sync.Map] used as a set of keys is a [gset].
      - A run-time panic is an outcome of its own: [IndexPanic] for a slice
        expression out of range, [NilPanic] for the dereference of a nil
        pointer; a loop that did not finish within its fuel is
        [OutOfFuel]. *)

From Stdlib Require Import ZArith Lia Strings.Byte Strings.Ascii.
From stdpp Require Import gmap strings list.

Local Open Scope Z_scope.

Abbreviation byte := Byte.byte.

#[global] Instance byte_eq_dec : EqDecision byte := Byte.byte_eq_dec.

(** ** Outcomes of a call *)

Inductive outcome (A : Type) : Type :=
  | Done (a : A)
  | IndexPanic
  | NilPanic
  | OutOfFuel.
Arguments Done {A} a.
Arguments IndexPanic {A}.
Arguments NilPanic {A}.
Arguments OutOfFuel {A}.

Definition andThen {A B : Type} (m : outcome A) (f : A -> outcome B) : outcome B :=
  match m with
  | Done a => f a
  | IndexPanic => IndexPanic
  | NilPanic => NilPanic
  | OutOfFuel => OutOfFuel
  end.

Notation "'do' x <- m ; k" := (andThen m (fun x => k))
  (at level 10, x name, m at level 100, k at level 200, only parsing).
Notation "'do' ' p <- m ; k" := (andThen m (fun x => match x with p => k end))
  (at level 10, p pattern, m at level 100, k at level 200, only parsing).

(** ** Byte slices *)

Definition len {A} (s : list A) : Z := Z.of_nat (length s).

Definition byte_val (b : byte) : Z := Z.of_N (Byte.to_N b).

(** [s[lo:hi]]; Go panics unless [0 <= lo <= hi <= cap(s)]. *)
Definition slice (s : list byte) (lo hi : Z) : outcome (list byte) :=
  if (0 <=? lo) && (lo <=? hi) && (hi <=? len s)
  then Done (take (Z.to_nat (hi - lo)) (drop (Z.to_nat lo) s))
  else IndexPanic.

(** [bytes.Equal] *)
Definition Equal (a b : list byte) : bool := bool_decide (a = b).

(** [bytes.HasPrefix] *)
Definition HasPrefix (s prefix : list byte) : bool :=
  Equal (take (length prefix) s) prefix.

(** [bytes.Index]: the first position at which [sep] occurs in [s], or -1. *)
Fixpoint Index (s sep : list byte) : Z :=
  if HasPrefix s sep then 0
  else match s with
       | [] => -1
       | _ :: rest => let i := Index rest sep in
                      if i =? -1 then -1 else i + 1
       end.

(** [bytes.Contains] *)
Definition Contains (b subslice : list byte) : bool :=
  negb (Index b subslice =? -1).

(** [bytes.LastIndex]: the last position at which [sep] occurs in [s], or -1.
    [lastIndexFrom] tries the positions [k], [k-1], ..., [0]. *)
Fixpoint lastIndexFrom (s sep : list byte) (k : nat) : Z :=
  if HasPrefix (drop k s) sep then Z.of_nat k
  else match k with
       | O => -1
       | S k' => lastIndexFrom s sep k'
       end.

Definition LastIndex (s sep : list byte) : Z :=
  if len sep =? 0 then len s
  else if len s <? len sep then -1
  else lastIndexFrom s sep (length s - length sep).

(** ** UTF-8 decoding, as far as [bytes.LastIndexFunc] needs it *)

Module utf8.

Definition RuneError : Z := 0xFFFD.
Definition RuneSelf : Z := 0x80.
Definition UTFMax : Z := 4.

Definition maskx : Z := 0x3F.
Definition mask2 : Z := 0x1F.
Definition mask3 : Z := 0x0F.
Definition mask4 : Z := 0x07.
Definition locb : Z := 0x80.
Definition hicb : Z := 0xBF.

Definition xx : Z := 0xF1.
Definition as_ : Z := 0xF0.
Definition s1 : Z := 0x02.
Definition s2 : Z := 0x13.
Definition s3 : Z := 0x03.
Definition s4 : Z := 0x23.
Definition s5 : Z := 0x34.
Definition s6 : Z := 0x04.
Definition s7 : Z := 0x44.

(** The table [first]: information about the first byte of an encoding. *)
Definition first (p0 : Z) : Z :=
  if p0 <? 0x80 then as_
  else if p0 <? 0xC2 then xx
  else if p0 <? 0xE0 then s1
  else if p0 =? 0xE0 then s2
  else if p0 <? 0xED then s3
  else if p0 =? 0xED then s4
  else if p0 <? 0xF0 then s3
  else if p0 =? 0xF0 then s5
  else if p0 <? 0xF4 then s6
  else if p0 =? 0xF4 then s7
  else xx.

(** The table [acceptRanges]: the range [(lo, hi)] of a valid second byte. *)
Definition acceptRanges (i : Z) : Z * Z :=
  match i with
  | 0 => (locb, hicb)
  | 1 => (0xA0, hicb)
  | 2 => (locb, 0x9F)
  | 3 => (0x90, hicb)
  | 4 => (locb, 0x8F)
  | _ => (0, 0)
  end.

Definition at_ (p : list byte) (i : nat) : Z :=
  match p !! i with
  | Some b => byte_val b
  | None => 0
  end.

(** [utf8.DecodeRune]: the first rune of [p] and its width in bytes. *)
Definition DecodeRune (p : list byte) : Z * Z :=
  let n := len p in
  if n <? 1 then (RuneError, 0)
  else
    let p0 := at_ p 0 in
    let x := first p0 in
    if as_ <=? x then
      (if Z.testbit x 0 then RuneError else p0, 1)
    else
      let sz := Z.land x 7 in
      let accept := acceptRanges (Z.shiftr x 4) in
      if n <? sz then (RuneError, 1)
      else
        let b1 := at_ p 1 in
        if (b1 <? fst accept) || (snd accept <? b1) then (RuneError, 1)
        else if sz <=? 2 then
          (Z.lor (Z.shiftl (Z.land p0 mask2) 6) (Z.land b1 maskx), 2)
        else
          let b2 := at_ p 2 in
          if (b2 <? locb) || (hicb <? b2) then (RuneError, 1)
          else if sz <=? 3 then
            (Z.lor (Z.lor (Z.shiftl (Z.land p0 mask3) 12)
                          (Z.shiftl (Z.land b1 maskx) 6))
                   (Z.land b2 maskx), 3)
          else
            let b3 := at_ p 3 in
            if (b3 <? locb) || (hicb <? b3) then (RuneError, 1)
            else
              (Z.lor (Z.lor (Z.lor (Z.shiftl (Z.land p0 mask4) 18)
                                   (Z.shiftl (Z.land b1 maskx) 12))
                            (Z.shiftl (Z.land b2 maskx) 6))
                     (Z.land b3 maskx), 4).

(** [utf8.RuneStart] *)
Definition RuneStart (b : Z) : bool := negb (Z.land b 0xC0 =? 0x80).

(** The backward scan of [DecodeLastRune]:
    [for start--; start >= lim; start-- { if RuneStart(p[start]) { break } }],
    entered after the [start--] of the loop header; [n] bounds the number of
    iterations, which is at most [UTFMax]. *)
Fixpoint scanBack (n : nat) (p : list byte) (start lim : Z) : Z :=
  match n with
  | O => start
  | S n' =>
      if start <? lim then start
      else if RuneStart (at_ p (Z.to_nat start)) then start
      else scanBack n' p (start - 1) lim
  end.

(** [utf8.DecodeLastRune]: the last rune of [p] and its width in bytes. *)
Definition DecodeLastRune (p : list byte) : Z * Z :=
  let end_ := len p in
  if end_ =? 0 then (RuneError, 0)
  else
    let start := end_ - 1 in
    let r := at_ p (Z.to_nat start) in
    if r <? RuneSelf then (r, 1)
    else
      let lim := Z.max 0 (end_ - UTFMax) in
      let start := scanBack (Z.to_nat UTFMax) p (start - 1) lim in
      let start := Z.max 0 start in
      let '(r, size) := DecodeRune (drop (Z.to_nat start) p) in
      if start + size =? end_ then (r, size) else (RuneError, 1).

End utf8.

(** [bytes.LastIndexFunc]: the byte index of the last rune of [s] that
    satisfies [f], or -1.  The loop variable [i] goes down by the width of
    the rune just decoded, which is at least one, so [length s] rounds are
    enough ([lastIndexFunc_fuel] below). *)
Fixpoint lastIndexFunc (fuel : nat) (s : list byte) (f : Z -> bool) (i : Z) : Z :=
  match fuel with
  | O => -1
  | S fuel' =>
      if i <=? 0 then -1
      else
        let r := utf8.at_ s (Z.to_nat (i - 1)) in
        let '(r, size) :=
          if utf8.RuneSelf <=? r
          then utf8.DecodeLastRune (take (Z.to_nat i) s)
          else (r, 1) in
        let i := i - size in
        if f r then i else lastIndexFunc fuel' s f i
  end.

Definition LastIndexFunc (s : list byte) (f : Z -> bool) : Z :=
  lastIndexFunc (length s) s f (len s).

(** ** [encoding/hex] and [strings] *)

Definition hextable : string := "0123456789abcdef".

Definition hexchar (n : N) : Ascii.ascii :=
  match String.get (N.to_nat n) hextable with
  | Some c => c
  | None => "0"%char
  end.

(** [hex.EncodeToString] *)
Fixpoint EncodeToString (src : list byte) : string :=
  match src with
  | [] => ""
  | v :: rest =>
      String (hexchar (N.shiftr (Byte.to_N v) 4))
        (String (hexchar (N.land (Byte.to_N v) 0x0f)) (EncodeToString rest))
  end.

(** [strings.Join] *)
Fixpoint Join (elems : list string) (sep : string) : string :=
  match elems with
  | [] => ""
  | [x] => x
  | x :: rest => x +:+ sep +:+ Join rest sep
  end.

(** ** [decrypt.Validator] (validator.go) *)

(** [common.DBFile]: a database file and its first page. *)
Record DBFile : Type := {
  Path : string;
  FirstPage : list byte;
}.

(** The [Decryptor] interface value held by a validator.  The cryptography
    lives in the decrypt packages; here a decryptor is its two page tests.
    [Decryptor_ValidateDerivedKey] is [Some] exactly when the dynamic type
    of the value has the method [ValidateDerivedKey(page1, key) bool], which
    is what the type assertion to [derivedKeyValidator] finds out. *)
Record Decryptor : Type := {
  Decryptor_Validate : list byte -> list byte -> bool;
  Decryptor_GetPageSize : Z;
  Decryptor_ValidateDerivedKey : option (list byte -> list byte -> bool);
}.

(** Conversion of an [int] to [int32], and [atomic.AddInt32]. *)
Definition int32 (z : Z) : Z := (z + 2 ^ 31) mod 2 ^ 32 - 2 ^ 31.
Definition add32 (a b : Z) : Z := int32 (a + b).

(** The struct [Validator].  [probed] is not a field of the Go struct: it
    records, newest first, the database index and the key of every call
    made to the decryptor's [ValidateDerivedKey]. *)
Record Validator : Type := {
  platform : string;
  version : Z;
  dbPath : string;
  decryptor : Decryptor;
  dbFile : DBFile;
  extraDBFiles : list DBFile;
  imgKeyValidator : option (list byte -> bool);
  matchedDBs : gset Z;
  matchedCount : Z;
  totalDBCount : Z;
  probed : list (Z * list byte);
}.

Definition set_matchedDBs (m : gset Z) (v : Validator) : Validator :=
  {| platform := platform v; version := version v; dbPath := dbPath v;
     decryptor := decryptor v; dbFile := dbFile v;
     extraDBFiles := extraDBFiles v; imgKeyValidator := imgKeyValidator v;
     matchedDBs := m; matchedCount := matchedCount v;
     totalDBCount := totalDBCount v; probed := probed v |}.

Definition set_matchedCount (c : Z) (v : Validator) : Validator :=
  {| platform := platform v; version := version v; dbPath := dbPath v;
     decryptor := decryptor v; dbFile := dbFile v;
     extraDBFiles := extraDBFiles v; imgKeyValidator := imgKeyValidator v;
     matchedDBs := matchedDBs v; matchedCount := c;
     totalDBCount := totalDBCount v; probed := probed v |}.

Definition set_probed (p : list (Z * list byte)) (v : Validator) : Validator :=
  {| platform := platform v; version := version v; dbPath := dbPath v;
     decryptor := decryptor v; dbFile := dbFile v;
     extraDBFiles := extraDBFiles v; imgKeyValidator := imgKeyValidator v;
     matchedDBs := matchedDBs v; matchedCount := matchedCount v;
     totalDBCount := totalDBCount v; probed := p |}.

(** [NewValidatorWithFile], on the path where nothing fails to open.  The
    file system is outside the model, so the arguments are what the calls
    deliver: [dec] is the decryptor returned by [NewDecryptor], [d] the
    primary file returned by [OpenDBFile], [img] the validator returned by
    [NewImgKeyValidator], and [walked] the files that the walk over
    [db_storage] opened, in the order of the walk. *)
Definition NewValidatorWithFile (platform_ : string) (version_ : Z) (dbPath_ : string)
    (dec : Decryptor) (d : DBFile) (img : list byte -> bool)
    (walked : list DBFile) : Validator :=
  if version_ =? 4 then
    {| platform := platform_; version := version_; dbPath := dbPath_;
       decryptor := dec; dbFile := d;
       extraDBFiles := walked; imgKeyValidator := Some img;
       matchedDBs := ∅; matchedCount := 0;
       totalDBCount := len walked + 1; probed := [] |}
  else
    {| platform := platform_; version := version_; dbPath := dbPath_;
       decryptor := dec; dbFile := d;
       extraDBFiles := []; imgKeyValidator := None;
       matchedDBs := ∅; matchedCount := 0;
       totalDBCount := 0; probed := [] |}.

(** [strings.Contains] and [strings.HasSuffix], on the bytes of the
    strings. *)
Definition HasSuffix (s suffix : list byte) : bool :=
  (len suffix <=? len s) && Equal (drop (Z.to_nat (len s - len suffix)) s) suffix.

Definition strings_Contains (s substr : string) : bool :=
  Contains (String.list_byte_of_string s) (String.list_byte_of_string substr).

Definition strings_HasSuffix (s suffix : string) : bool :=
  HasSuffix (String.list_byte_of_string s) (String.list_byte_of_string suffix).

(** [GetSimpleDBFile] *)
Definition GetSimpleDBFile (platform_ : string) (version_ : Z) : string :=
  if String.eqb platform_ "windows" && (version_ =? 3) then "Msg\Misc.db"
  else if String.eqb platform_ "windows" && (version_ =? 4)
  then "db_storage\message\message_0.db"
  else if String.eqb platform_ "darwin" && (version_ =? 3) then "Message/msg_0.db"
  else if String.eqb platform_ "darwin" && (version_ =? 4)
  then "db_storage/message/message_0.db"
  else "".

(** *** The walk over [db_storage]

    The file system is outside the model; the walk runs over what it finds
    there.  An entry is what a name in a directory (or the root of the
    walk) stands for: nothing that [Lstat] can reach; a file, with what
    [OpenDBFile] gives for it ([None] for an error); or a directory, with
    its entries in the order of their names ([None] if it cannot be
    read). *)
Inductive entry : Type :=
  | NoEntry (name : string)
  | FileEntry (name : string) (opened : option DBFile)
  | DirEntry (name : string) (names : option (list entry)).

Definition entryName (n : entry) : string :=
  match n with
  | NoEntry name => name
  | FileEntry name _ => name
  | DirEntry name _ => name
  end.

(** What the function given to [filepath.Walk] returns: [nil] or
    [filepath.SkipDir]. *)
Inductive walkError : Type := WalkNil | SkipDir.

(** The function literal that [NewValidatorWithFile] gives to
    [filepath.Walk]: [n] stands for [info] and for the file at [path],
    [err] tells whether the walk passes an error, and [extraDBFiles] is
    [validator.extraDBFiles]. *)
Definition walkFn (dbPath path : string) (n : entry) (err : bool)
    (extraDBFiles : list DBFile) : walkError * list DBFile :=
  if err then (WalkNil, extraDBFiles)
  else
    match n with
    | NoEntry _ => (WalkNil, extraDBFiles)
    | DirEntry name _ =>
        if strings_Contains name "fts" then (SkipDir, extraDBFiles)
        else (WalkNil, extraDBFiles)
    | FileEntry name opened =>
        if negb (strings_HasSuffix name ".db") || strings_Contains name "fts"
        then (WalkNil, extraDBFiles)
        else if String.eqb path dbPath then (WalkNil, extraDBFiles)
        else
          match opened with
          | None => (WalkNil, extraDBFiles)
          | Some extraFile => (WalkNil, extraDBFiles ++ [extraFile])
          end
    end.

(** The loop of [filepath.walk] over the names of a directory:
    [filepath.SkipDir] from a directory (or for a name that [Lstat] cannot
    reach) is passed over, from a file it ends the loop. *)
Definition walkNames
    (walkChild : string -> entry -> list DBFile -> walkError * list DBFile)
    (join : string -> string -> string) (path : string)
    : list entry -> list DBFile -> walkError * list DBFile :=
  fix each (names : list entry) (extraDBFiles : list DBFile) :=
    match names with
    | [] => (WalkNil, extraDBFiles)
    | child :: rest =>
        let '(err, extraDBFiles) :=
          walkChild (join path (entryName child)) child extraDBFiles in
        match child, err with
        | FileEntry _ _, SkipDir => (SkipDir, extraDBFiles)
        | _, _ => each rest extraDBFiles
        end
    end.

(** [filepath.walk] with the function above; [join] is [filepath.Join]. *)
Fixpoint walk (join : string -> string -> string) (dbPath path : string)
    (n : entry) (extraDBFiles : list DBFile) : walkError * list DBFile :=
  match n with
  | NoEntry _ => walkFn dbPath path n true extraDBFiles
  | FileEntry _ _ => walkFn dbPath path n false extraDBFiles
  | DirEntry _ None => walkFn dbPath path n true extraDBFiles
  | DirEntry _ (Some names) =>
      let '(err1, extraDBFiles) := walkFn dbPath path n false extraDBFiles in
      match err1 with
      | SkipDir => (SkipDir, extraDBFiles)
      | WalkNil => walkNames (walk join dbPath) join path names extraDBFiles
      end
  end.

(** [NewValidator], which is [NewValidatorWithFile], with its errors:
    [newDecryptor] is what [NewDecryptor] gives, [openPrimary] what
    [OpenDBFile] gives for the primary file ([None] for an error), [img]
    the validator of image keys that [NewImgKeyValidator] gives, and
    [storage] what is found at the path of [db_storage]. *)
Definition NewValidator (join : string -> string -> string)
    (platform_ : string) (version_ : Z) (dataDir : string)
    (newDecryptor : option Decryptor) (openPrimary : option DBFile)
    (img : list byte -> bool) (storage : entry) : option Validator :=
  let dbFile_ := GetSimpleDBFile platform_ version_ in
  let dbPath_ := join dataDir dbFile_ in
  match newDecryptor with
  | None => None
  | Some dec =>
      match openPrimary with
      | None => None
      | Some d =>
          let dbStorageDir := join dataDir "db_storage" in
          Some (NewValidatorWithFile platform_ version_ dbPath_ dec d img
                  (walk join dbPath_ dbStorageDir storage []).2)
      end
  end.

(** [Validator.Validate] *)
Definition Validate (v : Validator) (key : list byte) : bool :=
  Decryptor_Validate (decryptor v) (FirstPage (dbFile v)) key.

(** [if _, already := v.matchedDBs.LoadOrStore(i, true); !already {
       atomic.AddInt32(&v.matchedCount, 1) }] *)
Definition markMatched (i : Z) (v : Validator) : Validator :=
  if decide (i ∈ matchedDBs v) then v
  else set_matchedCount (add32 (matchedCount v) 1)
         (set_matchedDBs ({[i]} ∪ matchedDBs v) v).

(** The call [dv.ValidateDerivedKey(page, key)] for the database [i]. *)
Definition probe (dv : list byte -> list byte -> bool) (i : Z)
    (page key : list byte) (v : Validator) : bool * Validator :=
  (dv page key, set_probed ((i, key) :: probed v) v).

(** [for i, extraDB := range v.extraDBFiles { ... }], from index [i] on. *)
Fixpoint validateExtras (dv : list byte -> list byte -> bool) (key : list byte)
    (i : Z) (extras : list DBFile) (v : Validator) : bool * Validator :=
  match extras with
  | [] => (false, v)
  | extraDB :: rest =>
      if decide (i ∈ matchedDBs v) then validateExtras dv key (i + 1) rest v
      else
        let '(ok, v) := probe dv i (FirstPage extraDB) key v in
        if ok then (true, markMatched i v)
        else validateExtras dv key (i + 1) rest v
  end.

(** [Validator.ValidateDerivedKey], one call running alone. *)
Definition ValidateDerivedKey (v : Validator) (key : list byte) : bool * Validator :=
  match Decryptor_ValidateDerivedKey (decryptor v) with
  | None => (false, v)
  | Some dv =>
      if decide (-1 ∈ matchedDBs v) then
        validateExtras dv key 0 (extraDBFiles v) v
      else
        let '(ok, v) := probe dv (-1) (FirstPage (dbFile v)) key v in
        if ok then (true, markMatched (-1) v)
        else validateExtras dv key 0 (extraDBFiles v) v
  end.

(** [Validator.AllDerivedKeysFound] *)
Definition AllDerivedKeysFound (v : Validator) : bool :=
  (0 <? totalDBCount v) && (int32 (totalDBCount v) <=? matchedCount v).

(** [Validator.ValidateImgKey] *)
Definition ValidateImgKey (v : Validator) (key : list byte) : bool :=
  match imgKeyValidator v with
  | None => false
  | Some validate => validate key
  end.

(** A sequence of calls of [ValidateDerivedKey], one after the other. *)
Fixpoint validateAll (v : Validator) (keys : list (list byte)) : Validator :=
  match keys with
  | [] => v
  | key :: rest => validateAll (snd (ValidateDerivedKey v key)) rest
  end.

(** *** [ValidateDerivedKey] under concurrent callers

    Every access to [matchedDBs] and [matchedCount] is one atomic operation
    of [sync.Map] or [sync/atomic]; a call is a sequence of such operations
    and other calls may run between any two of them.  A program point of a
    call names the atomic operation it executes next. *)
Inductive point : Type :=
  | AtEntry                (* the type assertion on [v.decryptor] *)
  | AtLoad (i : Z)         (* [matchedDBs.Load(i)], then the page test *)
  | AtStore (i : Z)        (* page [i] authenticated: [matchedDBs.LoadOrStore(i, true)] *)
  | AtAdd (i : Z)          (* [!already]: [atomic.AddInt32(&matchedCount, 1)] *)
  | Returned (b : bool).

(** The first page of database [i]: the primary for -1, else the extra file
    at index [i]; [None] when the range loop is over. *)
Definition pageOf (v : Validator) (i : Z) : option (list byte) :=
  if i =? -1 then Some (FirstPage (dbFile v))
  else if i <? 0 then None
  else FirstPage <$> extraDBFiles v !! Z.to_nat i.

(** One atomic step of a call with argument [key]. *)
Definition callStep (key : list byte) (v : Validator) (p : point) : Validator * point :=
  match p with
  | AtEntry =>
      match Decryptor_ValidateDerivedKey (decryptor v) with
      | None => (v, Returned false)
      | Some _ => (v, AtLoad (-1))
      end
  | AtLoad i =>
      match pageOf v i, Decryptor_ValidateDerivedKey (decryptor v) with
      | Some page, Some dv =>
          if decide (i ∈ matchedDBs v) then (v, AtLoad (i + 1))
          else
            let '(ok, v) := probe dv i page key v in
            if ok then (v, AtStore i) else (v, AtLoad (i + 1))
      | _, _ => (v, Returned false)
      end
  | AtStore i =>
      if decide (i ∈ matchedDBs v) then (v, Returned true)
      else (set_matchedDBs ({[i]} ∪ matchedDBs v) v, AtAdd i)
  | AtAdd i => (set_matchedCount (add32 (matchedCount v) 1) v, Returned true)
  | Returned b => (v, Returned b)
  end.

(** A call running alone, for at most [fuel] atomic steps. *)
Fixpoint runCall (fuel : nat) (key : list byte) (v : Validator) (p : point)
    : Validator * point :=
  match fuel with
  | O => (v, p)
  | S fuel' =>
      match p with
      | Returned _ => (v, p)
      | _ => let '(v, p) := callStep key v p in runCall fuel' key v p
      end
  end.

(** A goroutine inside [ValidateDerivedKey]: its argument and its point. *)
Record call : Type := {
  callKey : list byte;
  callAt : point;
}.

(** The validator shared by the goroutines [calls]. *)
Record shared : Type := {
  sharedValidator : Validator;
  calls : list call;
}.

(** One step of the whole: some goroutine executes its next atomic
    operation, or a goroutine whose call has returned (or a new goroutine)
    calls [ValidateDerivedKey] with some key. *)
Inductive sharedStep : shared -> shared -> Prop :=
  | step_op v cs n c v' p' :
      cs !! n = Some c ->
      callStep (callKey c) v (callAt c) = (v', p') ->
      sharedStep {| sharedValidator := v; calls := cs |}
                 {| sharedValidator := v';
                    calls := <[n := {| callKey := callKey c; callAt := p' |}]> cs |}
  | step_again v cs n c b key :
      cs !! n = Some c ->
      callAt c = Returned b ->
      sharedStep {| sharedValidator := v; calls := cs |}
                 {| sharedValidator := v;
                    calls := <[n := {| callKey := key; callAt := AtEntry |}]> cs |}
  | step_spawn v cs key :
      sharedStep {| sharedValidator := v; calls := cs |}
                 {| sharedValidator := v;
                    calls := cs ++ [{| callKey := key; callAt := AtEntry |}] |}.

Definition sharedSteps : shared -> shared -> Prop := rtc sharedStep.

(** The number of goroutines that have stored an index and not yet added
    to the counter. *)
Definition isAdding (c : call) : bool :=
  match callAt c with
  | AtAdd _ => true
  | _ => false
  end.

Definition pendingAdds (cs : list call) : Z := len (List.filter isAdding cs).

Definition allReturned (cs : list call) : Prop :=
  Forall (fun c => exists b, callAt c = Returned b) cs.

(** ** [darwin.V4Extractor] (key/darwin/v4.go) *)

Record KeyPatternInfo : Type := {
  Pattern : list byte;
  Offsets : list Z;
}.

Definition MaxWorkers : Z := 8.

Definition V4KeyPatterns : list KeyPatternInfo :=
  [ {| Pattern := [x20; x66; x74; x73; x35; x28; x25; x00];
       Offsets := [16; -80; 64] |};
    {| Pattern := [x00; x00; x00; x00; x00; x00; x00; x00;
                   x00; x00; x00; x00; x00; x00; x00; x00];
       Offsets := [-32] |} ].

Definition V4DerivedKeyPatterns : list KeyPatternInfo :=
  [ {| Pattern := [x41; x58; x54; x4d; x00; x00; x00; x00];
       Offsets := [-32] |} ].

Definition V4ImgKeyPatterns : list KeyPatternInfo :=
  [ {| Pattern := [x00; x00; x00; x00; x00; x00; x00; x00;
                   x00; x00; x00; x00; x00; x00; x00; x00];
       Offsets := [-32] |} ].

(** A call made on the validator, with the candidate handed over. *)
Inductive asking : Type :=
  | AskValidate (key : list byte)
  | AskValidateDerivedKey (key : list byte)
  | AskValidateImgKey (key : list byte).

(** The struct [V4Extractor].  [validator] is a pointer and may be nil.
    [asked] is not a field of the Go struct: it records, newest first, the
    calls made on the validator. *)
Record V4Extractor : Type := {
  validator : option Validator;
  dataKeyPatterns : list KeyPatternInfo;
  derivedKeyPatterns : list KeyPatternInfo;
  imgKeyPatterns : list KeyPatternInfo;
  processedDataKeys : gset string;
  processedDerivedKeys : gset string;
  processedImgKeys : gset string;
  foundDerivedKeys : gset string;
  asked : list asking;
}.

Definition NewV4Extractor : V4Extractor :=
  {| validator := None;
     dataKeyPatterns := V4KeyPatterns;
     derivedKeyPatterns := V4DerivedKeyPatterns;
     imgKeyPatterns := V4ImgKeyPatterns;
     processedDataKeys := ∅; processedDerivedKeys := ∅;
     processedImgKeys := ∅; foundDerivedKeys := ∅;
     asked := [] |}.

Definition SetValidate (v : option Validator) (e : V4Extractor) : V4Extractor :=
  {| validator := v;
     dataKeyPatterns := dataKeyPatterns e;
     derivedKeyPatterns := derivedKeyPatterns e;
     imgKeyPatterns := imgKeyPatterns e;
     processedDataKeys := processedDataKeys e;
     processedDerivedKeys := processedDerivedKeys e;
     processedImgKeys := processedImgKeys e;
     foundDerivedKeys := foundDerivedKeys e;
     asked := asked e |}.

Definition set_processedDataKeys (m : gset string) (e : V4Extractor) : V4Extractor :=
  {| validator := validator e;
     dataKeyPatterns := dataKeyPatterns e;
     derivedKeyPatterns := derivedKeyPatterns e;
     imgKeyPatterns := imgKeyPatterns e;
     processedDataKeys := m;
     processedDerivedKeys := processedDerivedKeys e;
     processedImgKeys := processedImgKeys e;
     foundDerivedKeys := foundDerivedKeys e;
     asked := asked e |}.

Definition set_processedDerivedKeys (m : gset string) (e : V4Extractor) : V4Extractor :=
  {| validator := validator e;
     dataKeyPatterns := dataKeyPatterns e;
     derivedKeyPatterns := derivedKeyPatterns e;
     imgKeyPatterns := imgKeyPatterns e;
     processedDataKeys := processedDataKeys e;
     processedDerivedKeys := m;
     processedImgKeys := processedImgKeys e;
     foundDerivedKeys := foundDerivedKeys e;
     asked := asked e |}.

Definition set_processedImgKeys (m : gset string) (e : V4Extractor) : V4Extractor :=
  {| validator := validator e;
     dataKeyPatterns := dataKeyPatterns e;
     derivedKeyPatterns := derivedKeyPatterns e;
     imgKeyPatterns := imgKeyPatterns e;
     processedDataKeys := processedDataKeys e;
     processedDerivedKeys := processedDerivedKeys e;
     processedImgKeys := m;
     foundDerivedKeys := foundDerivedKeys e;
     asked := asked e |}.

Definition set_foundDerivedKeys (m : gset string) (e : V4Extractor) : V4Extractor :=
  {| validator := validator e;
     dataKeyPatterns := dataKeyPatterns e;
     derivedKeyPatterns := derivedKeyPatterns e;
     imgKeyPatterns := imgKeyPatterns e;
     processedDataKeys := processedDataKeys e;
     processedDerivedKeys := processedDerivedKeys e;
     processedImgKeys := processedImgKeys e;
     foundDerivedKeys := m;
     asked := asked e |}.

Definition set_asked (a : list asking) (e : V4Extractor) : V4Extractor :=
  {| validator := validator e;
     dataKeyPatterns := dataKeyPatterns e;
     derivedKeyPatterns := derivedKeyPatterns e;
     imgKeyPatterns := imgKeyPatterns e;
     processedDataKeys := processedDataKeys e;
     processedDerivedKeys := processedDerivedKeys e;
     processedImgKeys := processedImgKeys e;
     foundDerivedKeys := foundDerivedKeys e;
     asked := a |}.

(** Dereferencing [e.validator]: a nil pointer panics. *)
Definition theValidator (e : V4Extractor) : outcome Validator :=
  match validator e with
  | Some v => Done v
  | None => NilPanic
  end.

(** A [context.Context], seen from one call: [ctx n] tells whether the
    poll number [n] of [ctx.Done()] made by the call (counting from 0)
    finds the context cancelled. *)
Definition Context : Type := nat -> bool.

(** *** [SearchKey] and [SearchImgKey]

    The two Go functions have the same text except in five places: the
    pattern table they range over, whether the anchor is moved to the end
    of the preceding non-zero run (for [SearchKey] only when the pattern is
    the 16 zero bytes, for [SearchImgKey] always), the candidate length
    (32 or 16), the [sync.Map] that holds the processed candidates, and the
    validator method called.  They are embedded once, with the kind of key
    as a parameter. *)
Inductive keyKind : Type := DataKey | ImgKey.

Definition keySize (k : keyKind) : Z :=
  match k with
  | DataKey => 32
  | ImgKey => 16
  end.

Definition patternsOf (k : keyKind) (e : V4Extractor) : list KeyPatternInfo :=
  match k with
  | DataKey => dataKeyPatterns e
  | ImgKey => imgKeyPatterns e
  end.

Definition processedOf (k : keyKind) (e : V4Extractor) : gset string :=
  match k with
  | DataKey => processedDataKeys e
  | ImgKey => processedImgKeys e
  end.

(** [_, loaded := processed.LoadOrStore(keyHex, true)] *)
Definition loadOrStoreProcessed (k : keyKind) (keyHex : string) (e : V4Extractor)
    : bool * V4Extractor :=
  if decide (keyHex ∈ processedOf k e) then (true, e)
  else
    (false,
     match k with
     | DataKey => set_processedDataKeys ({[keyHex]} ∪ processedDataKeys e) e
     | ImgKey => set_processedImgKeys ({[keyHex]} ∪ processedImgKeys e) e
     end).

(** [e.validator.Validate(keyData)], respectively
    [e.validator.ValidateImgKey(keyData)]. *)
Definition askValidator (k : keyKind) (keyData : list byte) (e : V4Extractor)
    : outcome (bool * V4Extractor) :=
  do v <- theValidator e;
  match k with
  | DataKey => Done (Validate v keyData, set_asked (AskValidate keyData :: asked e) e)
  | ImgKey => Done (ValidateImgKey v keyData, set_asked (AskValidateImgKey keyData :: asked e) e)
  end.

Definition zeroPattern (k : keyKind) (pattern : list byte) : bool :=
  match k with
  | DataKey => Equal pattern [x00; x00; x00; x00; x00; x00; x00; x00;
                             x00; x00; x00; x00; x00; x00; x00; x00]
  | ImgKey => true
  end.

(** [for _, offset := range keyPattern.Offsets { ... }]; [Some keyHex] when
    the function returns [keyHex, true] from inside the loop. *)
Fixpoint tryOffsets (k : keyKind) (memory : list byte) (index : Z)
    (offsets : list Z) (e : V4Extractor) : outcome (option string * V4Extractor) :=
  match offsets with
  | [] => Done (None, e)
  | offset :: rest =>
      let keyOffset := index + offset in
      if (keyOffset <? 0) || (len memory <? keyOffset + keySize k)
      then tryOffsets k memory index rest e
      else
        do window <- slice memory keyOffset (keyOffset + keySize k);
        if Contains window [x00; x00] then tryOffsets k memory index rest e
        else
          do keyData <- slice memory keyOffset (keyOffset + keySize k);
          let keyHex := EncodeToString keyData in
          let '(loaded, e) := loadOrStoreProcessed k keyHex e in
          if loaded then tryOffsets k memory index rest e
          else
            do '(ok, e) <- askValidator k keyData e;
            if ok then Done (Some keyHex, e)
            else tryOffsets k memory index rest e
  end.

(** How the inner [for { ... }] ends: with a [return] of the function, or
    with a [break]. *)
Inductive ending : Type :=
  | Returns (key : string) (ok : bool)
  | Breaks.

(** The inner [for { ... }] of one pattern, entered with [index]; [polls]
    counts the polls of [ctx.Done()] made so far. *)
Fixpoint patternLoop (fuel : nat) (k : keyKind) (ctx : Context) (polls : nat)
    (memory : list byte) (keyPattern : KeyPatternInfo) (index : Z)
    (e : V4Extractor) : outcome (ending * nat * V4Extractor) :=
  match fuel with
  | O => OutOfFuel
  | S fuel' =>
      if ctx polls then Done (Returns "" false, S polls, e)
      else
        do head <- slice memory 0 index;
        let index := LastIndex head (Pattern keyPattern) in
        if index =? -1 then Done (Breaks, S polls, e)
        else
          do aligned <-
            (if zeroPattern k (Pattern keyPattern) then
               (do head <- slice memory 0 index;
                let index := LastIndexFunc head (fun r => negb (r =? 0)) in
                if index =? -1 then Done None else Done (Some (index + 1)))
             else Done (Some index));
          match aligned with
          | None => Done (Breaks, S polls, e)
          | Some index =>
              do '(found, e) <- tryOffsets k memory index (Offsets keyPattern) e;
              match found with
              | Some keyHex => Done (Returns keyHex true, S polls, e)
              | None =>
                  let index := index - 1 in
                  if index <? 0 then Done (Breaks, S polls, e)
                  else patternLoop fuel' k ctx (S polls) memory keyPattern index e
              end
          end
  end.

(** [for _, keyPattern := range patterns { ... }; return "", false].  The
    index of the inner loop starts at [len(memory)] and goes down in every
    round, so [S (length memory)] rounds are enough. *)
Fixpoint searchPatterns (k : keyKind) (ctx : Context) (polls : nat)
    (memory : list byte) (patterns : list KeyPatternInfo) (e : V4Extractor)
    : outcome (string * bool * V4Extractor) :=
  match patterns with
  | [] => Done ("", false, e)
  | keyPattern :: rest =>
      do '(how, polls, e) <-
        patternLoop (S (length memory)) k ctx polls memory keyPattern (len memory) e;
      match how with
      | Returns key ok => Done (key, ok, e)
      | Breaks => searchPatterns k ctx polls memory rest e
      end
  end.

Definition SearchKey (ctx : Context) (memory : list byte) (e : V4Extractor)
    : outcome (string * bool * V4Extractor) :=
  searchPatterns DataKey ctx 0 memory (dataKeyPatterns e) e.

Definition SearchImgKey (ctx : Context) (memory : list byte) (e : V4Extractor)
    : outcome (string * bool * V4Extractor) :=
  searchPatterns ImgKey ctx 0 memory (imgKeyPatterns e) e.

(** *** [SearchAllDerivedKeys] *)

(** [zeroCount := 0; for _, b := range keyData { if b == 0 { zeroCount++ } }] *)
Fixpoint zeroCount (keyData : list byte) : Z :=
  match keyData with
  | [] => 0
  | b :: rest => (if Byte.eqb b x00 then 1 else 0) + zeroCount rest
  end.

(** The body of the scan for one candidate [keyData], after the poll. *)
Definition examine (keyData : list byte) (count : Z) (e : V4Extractor)
    : outcome (Z * V4Extractor) :=
  if 24 <? zeroCount keyData then Done (count, e)
  else
    let keyHex := EncodeToString keyData in
    if decide (keyHex ∈ processedDerivedKeys e) then Done (count, e)
    else
      let e := set_processedDerivedKeys ({[keyHex]} ∪ processedDerivedKeys e) e in
      do v <- theValidator e;
      let '(ok, v) := ValidateDerivedKey v keyData in
      let e := set_asked (AskValidateDerivedKey keyData :: asked e)
                 (SetValidate (Some v) e) in
      if ok then
        Done (count + 1, set_foundDerivedKeys ({[keyHex]} ∪ foundDerivedKeys e) e)
      else Done (count, e).

(** [if pos%(8*1024) == 0 { select ...; if AllDerivedKeysFound() ... }]:
    whether the scan returns here, and the polls made so far. *)
Definition pollPoint (ctx : Context) (polls : nat) (pos : Z) (e : V4Extractor)
    : outcome (bool * nat) :=
  if pos mod (8 * 1024) =? 0 then
    if ctx polls then Done (true, S polls)
    else
      do v <- theValidator e;
      Done (AllDerivedKeysFound v, S polls)
  else Done (false, polls).

(** [for pos := ...; pos+32 <= len(memory); pos += 8 { ... }; return count] *)
Fixpoint derivedLoop (fuel : nat) (ctx : Context) (polls : nat)
    (memory : list byte) (pos count : Z) (e : V4Extractor)
    : outcome (Z * V4Extractor) :=
  match fuel with
  | O => OutOfFuel
  | S fuel' =>
      if len memory <? pos + 32 then Done (count, e)
      else
        do '(stop, polls) <- pollPoint ctx polls pos e;
        if stop then Done (count, e)
        else
          do keyData <- slice memory pos (pos + 32);
          do '(count, e) <- examine keyData count e;
          derivedLoop fuel' ctx polls memory (pos + 8) count e
  end.

Definition SearchAllDerivedKeys (ctx : Context) (memory : list byte)
    (e : V4Extractor) : outcome (Z * V4Extractor) :=
  if len memory <? 32 then Done (0, e)
  else derivedLoop (S (length memory)) ctx 0 memory 0 0 e.

(** [SearchDerivedKey].  [rangeOrder] is the order in which
    [foundDerivedKeys.Range] visits its keys, which Go leaves open; the
    callback stops the walk at the first key it is given. *)
Definition SearchDerivedKey (rangeOrder : gset string -> list string)
    (ctx : Context) (memory : list byte) (e : V4Extractor)
    : outcome (string * bool * V4Extractor) :=
  do '(count, e) <- SearchAllDerivedKeys ctx memory e;
  if 0 <? count then
    let firstKey := match rangeOrder (foundDerivedKeys e) with
                    | [] => ""%string
                    | k :: _ => k
                    end in
    Done (firstKey, true, e)
  else Done (""%string, false, e).

(** *** [worker]

    A worker runs against its environment: the memory channel hands it
    chunks or is closed, the result channel takes a message or not, and
    the context may be found cancelled at any poll.  What the environment
    does is given as a script.  For one pass through the loop with a chunk
    the script tells how each of the three searches sees the context, and
    how each of the two blocking sends ends: with the message taken by
    [resultChannel], or with [ctx.Done()]. *)
Record pass : Type := {
  scanCtx : Context;
  keyCtx : Context;
  imgKeyCtx : Context;
  keyTaken : bool;
  imgKeyTaken : bool
}.

(** What the [select] at the head of the loop receives: the cancellation
    of the context, the closing of [memoryChannel] (with [taken] telling
    whether [resultChannel] has room for the last message), or a chunk. *)
Inductive arrival : Type :=
  | Cancelled
  | Closed (taken : bool)
  | Chunk (memory : list byte) (p : pass).

(** [if !e.validator.AllDerivedKeysFound() { e.SearchAllDerivedKeys(ctx, memory) }] *)
Definition derivedKeyStep (ctx : Context) (memory : list byte) (e : V4Extractor)
    : outcome V4Extractor :=
  do v <- theValidator e;
  if negb (AllDerivedKeysFound v) then
    do '(_, e) <- SearchAllDerivedKeys ctx memory e;
    Done e
  else Done e.

(** [if rawDataKey == "" { if key, ok := e.SearchKey(ctx, memory); ok { ... } }]:
    the value of [rawDataKey] afterwards, the messages sent, whether the
    worker returns here, and the extractor. *)
Definition rawKeyStep (ctx : Context) (taken : bool) (memory : list byte)
    (rawDataKey imgKey : string) (e : V4Extractor)
    : outcome (string * list (string * string) * bool * V4Extractor) :=
  if String.eqb rawDataKey "" then
    do '(key, ok, e) <- SearchKey ctx memory e;
    if ok then
      let rawDataKey := key in
      if taken then Done (rawDataKey, [(rawDataKey, imgKey)], false, e)
      else Done (rawDataKey, [], true, e)
    else Done (rawDataKey, [], false, e)
  else Done (rawDataKey, [], false, e).

(** [if imgKey == "" { if key, ok := e.SearchImgKey(ctx, memory); ok { ... } }] *)
Definition imgKeyStep (ctx : Context) (taken : bool) (memory : list byte)
    (rawDataKey imgKey : string) (e : V4Extractor)
    : outcome (string * list (string * string) * bool * V4Extractor) :=
  if String.eqb imgKey "" then
    do '(key, ok, e) <- SearchImgKey ctx memory e;
    if ok then
      let imgKey := key in
      if taken then Done (imgKey, [(rawDataKey, imgKey)], false, e)
      else Done (imgKey, [], true, e)
    else Done (imgKey, [], false, e)
  else Done (imgKey, [], false, e).

(** The loop of [worker], from the values [rawDataKey] and [imgKey] of its
    two variables.  The result holds the messages sent on [resultChannel],
    oldest first, and whether the worker has returned; when the script
    ends first, the worker is left waiting in the [select] at the head of
    its loop. *)
Fixpoint workerLoop (arrivals : list arrival) (rawDataKey imgKey : string)
    (e : V4Extractor) : outcome (list (string * string) * bool * V4Extractor) :=
  match arrivals with
  | [] => Done ([], false, e)
  | Cancelled :: _ => Done ([], true, e)
  | Closed taken :: _ =>
      if negb (String.eqb rawDataKey "") || negb (String.eqb imgKey "") then
        if taken then Done ([(rawDataKey, imgKey)], true, e)
        else Done ([], true, e)
      else Done ([], true, e)
  | Chunk memory p :: rest =>
      do e <- derivedKeyStep (scanCtx p) memory e;
      do '(rawDataKey, sent1, back, e) <-
        rawKeyStep (keyCtx p) (keyTaken p) memory rawDataKey imgKey e;
      if back then Done (sent1, true, e)
      else
        do '(imgKey, sent2, back, e) <-
          imgKeyStep (imgKeyCtx p) (imgKeyTaken p) memory rawDataKey imgKey e;
        if back then Done (sent1 ++ sent2, true, e)
        else
          do '(sent, back, e) <- workerLoop rest rawDataKey imgKey e;
          Done (sent1 ++ sent2 ++ sent, back, e)
  end.

(** [worker] *)
Definition worker (arrivals : list arrival) (e : V4Extractor)
    : outcome (list (string * string) * bool * V4Extractor) :=
  workerLoop arrivals "" "" e.

(** *** [Extract]: collecting the results *)

Inductive error : Type :=
  | ErrWeChatOffline
  | ErrSIPEnabled
  | ErrValidatorNotSet
  | ErrNoValidKey
  | ErrContext.            (* [ctx.Err()] *)

Inductive status : Type := StatusOnline | StatusOffline.

(** What one round of the [select] in [Extract] receives: a result from a
    worker, or the cancellation of the caller's context.  A list of such
    rounds that ends stands for the result channel being closed, which
    happens when the producer and all workers have finished. *)
Inductive received : Type :=
  | Result (rawDataKey imgKey : string)
  | CtxDone.

Definition nonEmpty (s : string) : bool := negb (String.eqb s "").

(** The loop [for { select { ... } }] of [Extract].  [derivedKeys] is the
    slice that [foundDerivedKeys.Range] fills when the channel is found
    closed. *)
Fixpoint awaitResults (rounds : list received) (derivedKeys : list string)
    (finalRawDataKey finalImgKey : string) : string * string * option error :=
  match rounds with
  | [] =>
      let finalDataKey :=
        if 0 <? len derivedKeys then "derived:" +:+ Join derivedKeys ","
        else if nonEmpty finalRawDataKey then finalRawDataKey
        else "" in
      if nonEmpty finalDataKey || nonEmpty finalImgKey
      then (finalDataKey, finalImgKey, None)
      else ("", "", Some ErrNoValidKey)
  | CtxDone :: _ => ("", "", Some ErrContext)
  | Result r0 r1 :: rest =>
      let finalRawDataKey := if nonEmpty r0 then r0 else finalRawDataKey in
      let finalImgKey := if nonEmpty r1 then r1 else finalImgKey in
      if nonEmpty finalRawDataKey && nonEmpty finalImgKey
      then (finalRawDataKey, finalImgKey, None)
      else awaitResults rest derivedKeys finalRawDataKey finalImgKey
  end.

(** [Extract].  [procStatus] is [proc.Status], [sipDisabled] the answer of
    [glance.IsSIPDisabled()], [rounds] what the result channel delivers,
    [found] the map [foundDerivedKeys] when the channel is found closed and
    [rangeOrder] the order in which [Range] visits its keys, which Go
    leaves open. *)
Definition Extract (rangeOrder : gset string -> list string)
    (procStatus : status) (sipDisabled : bool) (e : V4Extractor)
    (rounds : list received) (found : gset string)
    : string * string * option error :=
  match procStatus with
  | StatusOffline => ("", "", Some ErrWeChatOffline)
  | StatusOnline =>
      if negb sipDisabled then ("", "", Some ErrSIPEnabled)
      else
        match validator e with
        | None => ("", "", Some ErrValidatorNotSet)
        | Some _ => awaitResults rounds (rangeOrder found) "" ""
        end
  end.

(** *** Notions used to state properties of [Extract] *)

(** The last non-empty string of a list, or the empty string. *)
Definition lastNonEmpty (l : list string) : string :=
  foldl (fun acc s => if nonEmpty s then s else acc) ""%string l.

(** The raw data keys, and the image keys, that the workers published. *)
Fixpoint rawKeysOf (rounds : list received) : list string :=
  match rounds with
  | [] => []
  | Result r0 _ :: rest => r0 :: rawKeysOf rest
  | CtxDone :: rest => rawKeysOf rest
  end.

Fixpoint imgKeysOf (rounds : list received) : list string :=
  match rounds with
  | [] => []
  | Result _ r1 :: rest => r1 :: imgKeysOf rest
  | CtxDone :: rest => imgKeysOf rest
  end.

Definition isCtxDone (r : received) : bool :=
  match r with
  | CtxDone => true
  | Result _ _ => false
  end.

(** The rounds are read up to the closing of the channel: the caller's
    context is not found cancelled, and the workers do not deliver both a
    raw key and an image key (which makes [Extract] cancel and return
    before the channel is closed). *)
Definition drained (rounds : list received) : bool :=
  forallb (fun r => negb (isCtxDone r)) rounds &&
  (negb (nonEmpty (lastNonEmpty (rawKeysOf rounds))) ||
   negb (nonEmpty (lastNonEmpty (imgKeysOf rounds)))).

(** *** Notions used to state properties of the validator *)

(** The elements of [l] paired with their indices, which start at [i]. *)
Fixpoint indexed {A} (i : Z) (l : list A) : list (Z * A) :=
  match l with
  | [] => []
  | x :: rest => (i, x) :: indexed (i + 1) rest
  end.

(** The databases of a validator with their first pages: the primary,
    which has index -1, then the extra files in order. *)
Definition databases (v : Validator) : list (Z * list byte) :=
  (-1, FirstPage (dbFile v)) :: indexed 0 (FirstPage <$> extraDBFiles v).

Definition unmatchedIn (m : gset Z) (d : Z * list byte) : bool :=
  negb (bool_decide (d.1 ∈ m)).

(** The databases whose index is not marked matched. *)
Definition unmatched (v : Validator) : list (Z * list byte) :=
  List.filter (unmatchedIn (matchedDBs v)) (databases v).

(** The elements of a list up to and including the first that satisfies
    [P] (all of them if none does). *)
Fixpoint upToFirst {A} (P : A -> bool) (l : list A) : list A :=
  match l with
  | [] => []
  | x :: rest => x :: (if P x then [] else upToFirst P rest)
  end.

(** The index of the first unmatched database whose first page
    authenticates [key], and the indices of the databases tested on the
    way, in the order of the tests. *)
Definition firstMatch (dv : list byte -> list byte -> bool) (key : list byte)
    (v : Validator) : option Z :=
  fst <$> List.find (fun d => dv d.2 key) (unmatched v).

Definition tested (dv : list byte -> list byte -> bool) (key : list byte)
    (v : Validator) : list Z :=
  fst <$> upToFirst (fun d => dv d.2 key) (unmatched v).

(** The outcome of a test run over the unmatched databases [um]: the log
    of the tests is extended, and the first database that authenticates,
    if any, is marked. *)
Definition testRun (dv : list byte -> list byte -> bool) (key : list byte)
    (um : list (Z * list byte)) (v : Validator) : bool * Validator :=
  let v' := set_probed
              (rev ((fun d => (d.1, key)) <$> upToFirst (fun d => dv d.2 key) um)
               ++ probed v) v in
  match List.find (fun d => dv d.2 key) um with
  | Some d => (true, markMatched d.1 v')
  | None => (false, v')
  end.

(** The set of database indices of a validator. *)
Definition dbIndices (v : Validator) : gset Z :=
  list_to_set (seqZ (-1) (len (extraDBFiles v) + 1)).

(** The bookkeeping of a validator is consistent: only indices of its
    databases are marked, the counter is the number of marked indices, and
    the number of databases fits the counter's 32 bits. *)
Definition consistent (v : Validator) : bool :=
  bool_decide (matchedDBs v ⊆ dbIndices v) &&
  (matchedCount v =? Z.of_nat (size (matchedDBs v))) &&
  (len (extraDBFiles v) + 1 <? 2 ^ 31).

(** What stays true of a validator shared by goroutines: only indices of
    its databases are marked or about to be marked, and every marked index
    has been counted once or is about to be counted by the one goroutine
    that stored it. *)
Definition counted (s : shared) : Prop :=
  let v := sharedValidator s in
  matchedDBs v ⊆ dbIndices v /\
  matchedCount v + pendingAdds (calls s) = Z.of_nat (size (matchedDBs v)) /\
  0 <= matchedCount v /\
  len (extraDBFiles v) + 1 < 2 ^ 31 /\
  Forall (fun c => forall i, callAt c = AtStore i -> i ∈ dbIndices v) (calls s).

(** What holds of a validator after construction and any sequence of
    calls: the bookkeeping is consistent, and either all files loaded for
    derived-key validation are counted in [totalDBCount], or no file is and
    the decryptor cannot test derived keys. *)
Definition tracked (v : Validator) : Prop :=
  consistent v = true /\
  (totalDBCount v = len (extraDBFiles v) + 1 \/
   (Decryptor_ValidateDerivedKey (decryptor v) = None /\
    totalDBCount v = 0 /\ matchedCount v = 0)).

Definition atEntry (c : call) : bool :=
  match callAt c with
  | AtEntry => true
  | _ => false
  end.


(** *** Notions used to state properties of the searches *)

(** [w] contains two consecutive zero bytes. *)
Definition hasZeroPair (w : list byte) : Prop :=
  exists i : nat, w !! i = Some x00 /\ w !! S i = Some x00.

(** [w] is the window of [size] bytes of [memory] at [keyOffset], which
    lies inside [memory]. *)
Definition windowAt (memory : list byte) (size keyOffset : Z) (w : list byte) : Prop :=
  0 <= keyOffset /\ keyOffset + size <= len memory /\
  w = take (Z.to_nat size) (drop (Z.to_nat keyOffset) memory).

(** [w] is a window of [memory] that passes the filter of the pattern
    searches: it lies inside [memory] and [bytes.Contains] finds no two
    consecutive zero bytes in it. *)
Definition candidate (k : keyKind) (memory w : list byte) : Prop :=
  (exists keyOffset, windowAt memory (keySize k) keyOffset w) /\
  Contains w [x00; x00] = false.

Definition askOf (k : keyKind) (w : list byte) : asking :=
  match k with
  | DataKey => AskValidate w
  | ImgKey => AskValidateImgKey w
  end.

(** What a pattern search may change in the extractor: it asks the
    validator about candidates, and it adds hex strings of candidates to
    its map of processed keys; the rest stays. *)
Definition extends (k : keyKind) (memory : list byte) (e e' : V4Extractor) : Prop :=
  validator e' = validator e /\
  dataKeyPatterns e' = dataKeyPatterns e /\
  imgKeyPatterns e' = imgKeyPatterns e /\
  foundDerivedKeys e' = foundDerivedKeys e /\
  processedDerivedKeys e' = processedDerivedKeys e /\
  (exists new, asked e' = new ++ asked e /\
     Forall (fun a => exists w, a = askOf k w /\ candidate k memory w) new) /\
  (forall h, h ∈ processedOf k e' ->
     h ∈ processedOf k e \/ exists w, h = EncodeToString w /\ candidate k memory w).

(** The result of a pattern search: nothing, or the hex string of a
    candidate. *)
Definition resultOf (k : keyKind) (memory : list byte) (key : string) (ok : bool) : Prop :=
  (ok = false /\ key = ""%string) \/
  (ok = true /\ exists w, key = EncodeToString w /\ candidate k memory w).

(** [hex.fromHexChar] on the lower-case digits, and the decoding of one
    byte from its two digits. *)
Definition fromHexChar (c : Ascii.ascii) : option N :=
  let n := Ascii.N_of_ascii c in
  if (48 <=? n)%N && (n <=? 57)%N then Some (n - 48)%N
  else if (97 <=? n)%N && (n <=? 102)%N then Some (n - 97 + 10)%N
  else None.

Definition decodeByte (c1 c2 : Ascii.ascii) : option byte :=
  match fromHexChar c1, fromHexChar c2 with
  | Some a, Some b => Byte.of_N (N.lor (N.shiftl a 4) b)
  | _, _ => None
  end.


(** *** Notions used to state properties of the derived-key scan *)

(** The number of zero bytes of a window. *)
Definition zeroBytes (w : list byte) : Z :=
  len (List.filter (fun b => Byte.eqb b x00) w).

(** The offsets of the 32-byte windows of a chunk that the scan steps
    through: the multiples of 8 at which 32 bytes fit, in increasing
    order. *)
Definition windowOffsets (chunk : list byte) : list Z :=
  (fun n => 8 * Z.of_nat n) <$> seq 0 (Z.to_nat ((len chunk - 32) / 8 + 1)).

(** The window of 32 bytes at an offset. *)
Definition window32 (chunk : list byte) (offset : Z) : list byte :=
  take 32 (drop (Z.to_nat offset) chunk).

Definition allFound (e : V4Extractor) : bool :=
  match validator e with
  | Some v => AllDerivedKeysFound v
  | None => false
  end.

(** What happens to one window that the scan reaches: it is skipped if it
    holds more than 24 zero bytes; it is not validated again if its hex
    string is among the processed keys; otherwise its hex string joins the
    processed keys, the window is handed to [ValidateDerivedKey], and if it
    validates its hex string is stored in [foundDerivedKeys] (and the count
    of this scan goes up). *)
Definition examineWindow (w : list byte) (count : Z) (e : V4Extractor)
    : Z * V4Extractor :=
  if 24 <? zeroBytes w then (count, e)
  else if decide (EncodeToString w ∈ processedDerivedKeys e) then (count, e)
  else
    match validator e with
    | None => (count, e)
    | Some v =>
        let r := ValidateDerivedKey v w in
        (if r.1 then count + 1 else count,
         {| validator := Some r.2;
            dataKeyPatterns := dataKeyPatterns e;
            derivedKeyPatterns := derivedKeyPatterns e;
            imgKeyPatterns := imgKeyPatterns e;
            processedDataKeys := processedDataKeys e;
            processedDerivedKeys := {[EncodeToString w]} ∪ processedDerivedKeys e;
            processedImgKeys := processedImgKeys e;
            foundDerivedKeys :=
              if r.1 then {[EncodeToString w]} ∪ foundDerivedKeys e
              else foundDerivedKeys e;
            asked := AskValidateDerivedKey w :: asked e |})
    end.

(** The scan over the windows at [offsets] under a context that is not
    cancelled: the windows are examined in order, and the scan stops in
    front of an offset that is a multiple of 8192 if all derived keys are
    found by then. *)
Fixpoint scanWindows (chunk : list byte) (offsets : list Z) (count : Z)
    (e : V4Extractor) : Z * V4Extractor :=
  match offsets with
  | [] => (count, e)
  | offset :: rest =>
      if (offset mod 8192 =? 0) && allFound e then (count, e)
      else
        let '(count, e) := examineWindow (window32 chunk offset) count e in
        scanWindows chunk rest count e
  end.

(** The same scan under any context; [polls] counts the polls made. *)
Fixpoint scanPolled (ctx : Context) (polls : nat) (chunk : list byte)
    (offsets : list Z) (count : Z) (e : V4Extractor) : Z * V4Extractor :=
  match offsets with
  | [] => (count, e)
  | offset :: rest =>
      if offset mod 8192 =? 0 then
        if ctx polls || allFound e then (count, e)
        else
          let '(count, e) := examineWindow (window32 chunk offset) count e in
          scanPolled ctx (S polls) chunk rest count e
      else
        let '(count, e) := examineWindow (window32 chunk offset) count e in
        scanPolled ctx polls chunk rest count e
  end.

(** Nothing is left to validate at the windows at [offsets]: each holds
    more than 24 zero bytes or has its hex string among the processed
    keys. *)
Definition settled (chunk : list byte) (offsets : list Z) (e : V4Extractor) : Prop :=
  Forall (fun offset =>
            24 < zeroBytes (window32 chunk offset) \/
            EncodeToString (window32 chunk offset) ∈ processedDerivedKeys e) offsets.

#[global] Instance asking_eq_dec : EqDecision asking.
Proof. solve_decision. Defined.


(** *** Notions used to state further properties of the pattern searches *)

(** The validator method that a pattern search calls. *)
Definition validateOf (k : keyKind) (v : Validator) (w : list byte) : bool :=
  match k with
  | DataKey => Validate v w
  | ImgKey => ValidateImgKey v w
  end.

(** The map of processed keys that a pattern search of the other kind
    uses. *)
Definition otherProcessed (k : keyKind) (e : V4Extractor) : gset string :=
  match k with
  | DataKey => processedImgKeys e
  | ImgKey => processedDataKeys e
  end.

(** What a pattern search that handed the windows [ws] (newest first) to
    the validator has done to the extractor: the windows are candidates,
    pairwise distinct and not processed before; their hex strings, and
    nothing else, have joined the processed keys; the calls are logged; the
    rest of the extractor is as it was. *)
Definition advanced (k : keyKind) (memory : list byte) (ws : list (list byte))
    (e e' : V4Extractor) : Prop :=
  validator e' = validator e /\
  dataKeyPatterns e' = dataKeyPatterns e /\
  derivedKeyPatterns e' = derivedKeyPatterns e /\
  imgKeyPatterns e' = imgKeyPatterns e /\
  foundDerivedKeys e' = foundDerivedKeys e /\
  processedDerivedKeys e' = processedDerivedKeys e /\
  otherProcessed k e' = otherProcessed k e /\
  asked e' = (askOf k <$> ws) ++ asked e /\
  processedOf k e' = list_to_set (EncodeToString <$> ws) ∪ processedOf k e /\
  NoDup ws /\
  Forall (fun w => candidate k memory w /\ (EncodeToString w ∉ processedOf k e)) ws.

(** How the result of a pattern search relates to the answers of the
    validator on the windows [ws] it was asked about (newest first): a key
    is returned exactly when the newest window was accepted, and it is the
    hex string of that window; all windows before it were rejected. *)
Definition answered (k : keyKind) (v : Validator) (ws : list (list byte))
    (key : string) (ok : bool) : Prop :=
  if ok then
    exists w ws', ws = w :: ws' /\ key = EncodeToString w /\
                  validateOf k v w = true /\
                  Forall (fun w' => validateOf k v w' = false) ws'
  else
    key = ""%string /\ Forall (fun w' => validateOf k v w' = false) ws.


(** *** Notions used to state further properties of the derived-key scan *)

(** Of the keys handed one after the other to [ValidateDerivedKey], those
    that it accepted, in the order of the calls. *)
Fixpoint acceptedOf (v : Validator) (keys : list (list byte)) : list (list byte) :=
  match keys with
  | [] => []
  | key :: rest =>
      (if (ValidateDerivedKey v key).1 then [key] else [])
      ++ acceptedOf (ValidateDerivedKey v key).2 rest
  end.

(** What a derived-key scan that handed the windows [ws] (newest first) to
    a validator that was [v] has done: the validator went through these
    calls in order; the hex strings of the windows joined the processed
    keys and those of the accepted windows joined the found keys; the count
    went up by the number of accepted windows; the windows are windows of
    the chunk at offsets the scan steps through, with at most 24 zero
    bytes, pairwise distinct and not processed before. *)
Definition scanned (chunk : list byte) (v : Validator) (ws : list (list byte))
    (count : Z) (e : V4Extractor) (count' : Z) (e' : V4Extractor) : Prop :=
  validator e' = Some (validateAll v (rev ws)) /\
  dataKeyPatterns e' = dataKeyPatterns e /\
  derivedKeyPatterns e' = derivedKeyPatterns e /\
  imgKeyPatterns e' = imgKeyPatterns e /\
  processedDataKeys e' = processedDataKeys e /\
  processedImgKeys e' = processedImgKeys e /\
  asked e' = (AskValidateDerivedKey <$> ws) ++ asked e /\
  processedDerivedKeys e' =
    list_to_set (EncodeToString <$> ws) ∪ processedDerivedKeys e /\
  foundDerivedKeys e' =
    list_to_set (EncodeToString <$> acceptedOf v (rev ws)) ∪ foundDerivedKeys e /\
  count' = count + len (acceptedOf v (rev ws)) /\
  NoDup ws /\
  Forall (fun w =>
            (exists offset, offset ∈ windowOffsets chunk /\ w = window32 chunk offset) /\
            zeroBytes w <= 24 /\
            (EncodeToString w ∉ processedDerivedKeys e)) ws.

(** A lower-case hex digit. *)
Definition isHexDigit (c : Ascii.ascii) : bool :=
  let n := Ascii.N_of_ascii c in
  ((48 <=? n)%N && (n <=? 57)%N) || ((97 <=? n)%N && (n <=? 102)%N).

Fixpoint allHexDigits (s : string) : bool :=
  match s with
  | EmptyString => true
  | String c rest => isHexDigit c && allHexDigits rest
  end.


(** *** Notions used to state properties of [worker] *)

(** [v'] is a later state of the validator [v]: the files, the decryptor
    and the image-key validator are the same, and marks were only
    added. *)
Definition later (v v' : Validator) : Prop :=
  decryptor v' = decryptor v /\ dbFile v' = dbFile v /\
  extraDBFiles v' = extraDBFiles v /\ imgKeyValidator v' = imgKeyValidator v /\
  totalDBCount v' = totalDBCount v /\ matchedDBs v ⊆ matchedDBs v'.

(** What a worker may hold in [rawDataKey] or [imgKey]: the empty string,
    or the hex string of a window of the size of the key that the
    validator accepts. *)
Definition acceptedKey (k : keyKind) (v : Validator) (key : string) : Prop :=
  key = ""%string \/
  exists w, key = EncodeToString w /\ len w = keySize k /\ validateOf k v w = true.

(** The number of sends that a variable of the worker still allows: one
    while it is empty. *)
Definition unset (s : string) : nat := if String.eqb s "" then 1%nat else 0%nat.

Definition isDerivedAsk (a : asking) : bool :=
  match a with
  | AskValidateDerivedKey _ => true
  | _ => false
  end.


(** A message of a worker whose keys are [rawKey] and [imgKey]: each
    component is empty or the worker's key, and not both are empty. *)
Definition carries (rawKey imgKey : string) (m : string * string) : Prop :=
  (m.1 = ""%string \/ m.1 = rawKey) /\
  (m.2 = ""%string \/ m.2 = imgKey) /\
  m <> (""%string, ""%string).


(** *** Notions used to state that a derived key is found

    The key [w] authenticates the page [page] of the database [i] of a
    validator that was [v0].  The extractor is on track for this key: its
    validator has the files of [v0] and its bookkeeping in order; once the
    hex string of [w] is among the processed keys, the database is
    matched; and if the database is matched and was not in [v0], then
    [foundDerivedKeys] holds a key that authenticates its page. *)
Definition onTrack (dv : list byte -> list byte -> bool) (v0 : Validator)
    (w : list byte) (i : Z) (page : list byte) (e : V4Extractor) : Prop :=
  exists v, validator e = Some v /\ tracked v /\
            Decryptor_ValidateDerivedKey (decryptor v) = Some dv /\
            dbFile v = dbFile v0 /\ extraDBFiles v = extraDBFiles v0 /\
            (EncodeToString w ∈ processedDerivedKeys e -> i ∈ matchedDBs v) /\
            (i ∈ matchedDBs v ->
             i ∈ matchedDBs v0 \/
             exists w', EncodeToString w' ∈ foundDerivedKeys e /\ dv page w' = true).

(** The worker goes through the loop with this arrival and does not
    return: it is a chunk, and the messages of the pass are taken. *)
Definition passesOn (a : arrival) : bool :=
  match a with
  | Chunk _ p => keyTaken p && imgKeyTaken p
  | _ => false
  end.


(** *** Notions used to state properties of the walk

    A database file is listed under an entry at [path]: the entry is a
    file that opens as this database file, its name ends in [".db"] and
    does not contain ["fts"], and its path is not the path of the primary;
    or the entry is a directory that can be read, its name does not
    contain ["fts"], and the database file is listed under one of its
    entries. *)
Inductive listed (join : string -> string -> string) (dbPath : string)
    : string -> entry -> DBFile -> Prop :=
  | listed_file path name d :
      strings_HasSuffix name ".db" = true ->
      strings_Contains name "fts" = false ->
      path <> dbPath ->
      listed join dbPath path (FileEntry name (Some d)) d
  | listed_dir path name names child d :
      strings_Contains name "fts" = false ->
      child ∈ names ->
      listed join dbPath (join path (entryName child)) child d ->
      listed join dbPath path (DirEntry name (Some names)) d.


(** *** Notions used to run goroutines under a schedule

    The shared validator after the goroutine [n] has executed its next
    atomic operation (nothing happens if there is no such goroutine), and
    after the goroutines named by a schedule have done so in turn. *)
Definition stepOf (n : nat) (s : shared) : shared :=
  match calls s !! n with
  | Some c =>
      let '(v', p') := callStep (callKey c) (sharedValidator s) (callAt c) in
      {| sharedValidator := v';
         calls := <[n := {| callKey := callKey c; callAt := p' |}]> (calls s) |}
  | None => s
  end.

Fixpoint schedule (ns : list nat) (s : shared) : shared :=
  match ns with
  | [] => s
  | n :: rest => schedule rest (stepOf n s)
  end.


(** ** Sample data for the examples

    The cryptography is outside the model, so the examples run with a
    stand-in for the page test: a page authenticates the key it starts
    with. *)
Definition samplePageTest (page1 key : list byte) : bool :=
  Equal (take 32 page1) key.

Definition sampleV4Decryptor : Decryptor :=
  {| Decryptor_Validate := samplePageTest;
     Decryptor_GetPageSize := 4096;
     Decryptor_ValidateDerivedKey := Some samplePageTest |}.

Definition sampleV3Decryptor : Decryptor :=
  {| Decryptor_Validate := samplePageTest;
     Decryptor_GetPageSize := 1024;
     Decryptor_ValidateDerivedKey := None |}.

Definition messageKey : list byte := repeat x17 32.
Definition sessionKey : list byte := repeat x33 32.

Definition messageDB : DBFile :=
  {| Path := "db_storage/message/message_0.db"; FirstPage := messageKey ++ repeat xaa 64 |}.
Definition sessionDB : DBFile :=
  {| Path := "db_storage/session/session.db"; FirstPage := sessionKey ++ repeat xbb 64 |}.

Definition sampleValidator : Validator :=
  NewValidatorWithFile "darwin" 4 "db_storage/message/message_0.db"
    sampleV4Decryptor messageDB (fun _ => false) [sessionDB].

Definition sampleV3Validator : Validator :=
  NewValidatorWithFile "darwin" 3 "Message/msg_0.db"
    sampleV3Decryptor messageDB (fun _ => false) [].

Definition sampleExtractor : V4Extractor :=
  SetValidate (Some sampleValidator) NewV4Extractor.

(** A chunk with the FTS5 pattern and, 16 bytes after its start, a raw
    key; the same with a window that holds two consecutive zero bytes. *)
Definition rawKeyChunk : list byte :=
  [x20; x66; x74; x73; x35; x28; x25; x00] ++ repeat x09 8 ++ messageKey.

Definition zeroPairWindow : list byte := [x11; x00; x00] ++ repeat x22 29.

Definition zeroPairChunk : list byte :=
  [x20; x66; x74; x73; x35; x28; x25; x00] ++ repeat x09 8 ++ zeroPairWindow.

(** A chunk with a derived key at offset 16, and a chunk of 8224 bytes
    with both derived keys in front and a window of its own at offset
    8192. *)
Definition derivedChunk : list byte := repeat x55 16 ++ sessionKey.

Definition lastWindow : list byte := repeat x77 32.

Definition longChunk : list byte :=
  messageKey ++ sessionKey ++ repeat x55 (Z.to_nat 8128) ++ lastWindow.

(** An extractor with a version 3 validator, and a chunk of zero bytes. *)
Definition sampleV3Extractor : V4Extractor :=
  SetValidate (Some sampleV3Validator) NewV4Extractor.

Definition zeroChunk : list byte := repeat x00 64.

(** A validator that has matched both its databases. *)
Definition matchedValidator : Validator :=
  validateAll sampleValidator [messageKey; sessionKey].

(** [context.Background()], and a context cancelled before the call. *)
Definition background : Context := fun _ => false.
Definition cancelledContext : Context := fun _ => true.

(** A pass in which the context is not cancelled and the messages are
    taken, and an extractor whose validator has matched its databases. *)
Definition samplePass : pass :=
  {| scanCtx := background; keyCtx := background; imgKeyCtx := background;
     keyTaken := true; imgKeyTaken := true |}.

Definition matchedExtractor : V4Extractor :=
  SetValidate (Some matchedValidator) NewV4Extractor.

(** Three goroutines enter [ValidateDerivedKey] on the sample validator,
    two of them with the key of the session database and one with the key
    of the message database, and a schedule that lets the first two test
    the same page before either of them stores its mark. *)
Definition sampleCalls : list call :=
  [{| callKey := sessionKey; callAt := AtEntry |};
   {| callKey := sessionKey; callAt := AtEntry |};
   {| callKey := messageKey; callAt := AtEntry |}].

Definition sampleSchedule : list nat :=
  [0; 1; 2; 0; 1; 2; 0; 1; 2; 0; 1; 2; 0]%nat.

(** * Properties *)

(** ** Strings and bytes *)

Lemma nonEmpty_true (s : string) : nonEmpty s = true <-> s <> ""%string.
Proof.
  unfold nonEmpty. rewrite negb_true_iff. split.
  - intros H ->. discriminate.
  - intros H. destruct s; [congruence | reflexivity].
Qed.

Lemma nonEmpty_false (s : string) : nonEmpty s = false <-> s = ""%string.
Proof.
  unfold nonEmpty. rewrite negb_false_iff. split.
  - intros H. destruct s; [reflexivity | discriminate].
  - intros ->. reflexivity.
Qed.

Lemma len_nonneg {A} (s : list A) : 0 <= len s.
Proof. unfold len. lia. Qed.

(** ** [Extract] *)

Section Collecting.

Variable derivedKeys : list string.

Let pick (s acc : string) : string := if nonEmpty s then s else acc.

(** Once a key is held, the fold never gives it up for the empty string. *)
Lemma foldl_pick_nonEmpty (l : list string) (acc : string) :
  nonEmpty acc = true ->
  nonEmpty (foldl (fun a s => pick s a) acc l) = true.
Proof.
  revert acc. induction l as [|s l IH]; intros acc Hacc; simpl; [assumption |].
  apply IH. unfold pick. destruct (nonEmpty s) eqn:E; assumption.
Qed.

(** The loop of [Extract], when the rounds are read up to the closing of
    the channel, ends in the branch for the closed channel with the last
    keys published. *)
Lemma awaitResults_drained (rounds : list received) (raw img : string) :
  CtxDone ∉ rounds ->
  foldl (fun a s => pick s a) raw (rawKeysOf rounds) = ""%string \/
  foldl (fun a s => pick s a) img (imgKeysOf rounds) = ""%string ->
  awaitResults rounds derivedKeys raw img =
  awaitResults [] derivedKeys
    (foldl (fun a s => pick s a) raw (rawKeysOf rounds))
    (foldl (fun a s => pick s a) img (imgKeysOf rounds)).
Proof.
  revert raw img. induction rounds as [|r rounds IH]; intros raw img Hctx Hone.
  - reflexivity.
  - destruct r as [r0 r1|].
    + cbn [awaitResults rawKeysOf imgKeysOf foldl] in *.
      fold (pick r0 raw) in *. fold (pick r1 img) in *.
      destruct (nonEmpty (pick r0 raw) && nonEmpty (pick r1 img)) eqn:Eboth.
      * apply andb_true_iff in Eboth as [Hr Hi].
        pose proof (foldl_pick_nonEmpty (rawKeysOf rounds) _ Hr) as Hr'.
        pose proof (foldl_pick_nonEmpty (imgKeysOf rounds) _ Hi) as Hi'.
        apply nonEmpty_true in Hr', Hi'. tauto.
      * apply IH; [| exact Hone].
        intros Hin. apply Hctx. right. exact Hin.
    + exfalso. apply Hctx. left.
Qed.

End Collecting.

Lemma drained_spec (rounds : list received) :
  drained rounds = true ->
  (CtxDone ∉ rounds) /\
  (lastNonEmpty (rawKeysOf rounds) = ""%string \/
   lastNonEmpty (imgKeysOf rounds) = ""%string).
Proof.
  unfold drained. rewrite andb_true_iff, orb_true_iff, !negb_true_iff, !nonEmpty_false.
  intros [Hall Hone]. split; [| exact Hone].
  intros Hin. rewrite forallb_forall in Hall.
  apply list_elem_of_In in Hin. apply Hall in Hin. discriminate.
Qed.

Lemma Extract_drained rangeOrder e rounds found v :
  validator e = Some v ->
  drained rounds = true ->
  Extract rangeOrder StatusOnline true e rounds found =
  awaitResults [] (rangeOrder found)
    (lastNonEmpty (rawKeysOf rounds)) (lastNonEmpty (imgKeysOf rounds)).
Proof.
  intros Hv Hd. apply drained_spec in Hd as [Hctx Hone].
  unfold Extract. rewrite Hv. cbn [negb].
  apply awaitResults_drained; assumption.
Qed.

Lemma rangeOrder_empty (rangeOrder : gset string -> list string) (found : gset string) :
  (forall m, rangeOrder m ≡ₚ elements m) ->
  (rangeOrder found = [] <-> found = ∅).
Proof.
  intros Hperm. split.
  - intros H. apply leibniz_equiv, elements_empty_inv.
    apply Permutation_nil_r. rewrite <- H. symmetry. apply Hperm.
  - intros ->. specialize (Hperm ∅). rewrite elements_empty in Hperm.
    apply Permutation_nil_r in Hperm. exact Hperm.
Qed.

(** C1, as the code has it.  When the result channel is read up to its
    closing, no derived key is in [foundDerivedKeys] and no worker published
    a raw key, [Extract] returns [ErrNoValidKey] if no worker published an
    image key either; if one did, it returns the empty data key and that
    image key, without an error. *)
Theorem Extract_no_data_key rangeOrder e rounds found v :
  (forall m, rangeOrder m ≡ₚ elements m) ->
  validator e = Some v ->
  drained rounds = true ->
  found = ∅ ->
  lastNonEmpty (rawKeysOf rounds) = ""%string ->
  Extract rangeOrder StatusOnline true e rounds found =
  if nonEmpty (lastNonEmpty (imgKeysOf rounds))
  then (""%string, lastNonEmpty (imgKeysOf rounds), None)
  else (""%string, ""%string, Some ErrNoValidKey).
Proof.
  intros Hperm Hv Hd Hfound Hraw.
  rewrite (Extract_drained _ _ _ _ _ Hv Hd).
  apply (rangeOrder_empty rangeOrder found Hperm) in Hfound.
  rewrite Hfound, Hraw. reflexivity.
Qed.

Lemma Extract_no_data_key_witness :
  Extract elements StatusOnline true sampleExtractor [Result "" ""] ∅ =
  (""%string, ""%string, Some ErrNoValidKey).
Proof.
  apply (Extract_no_data_key elements sampleExtractor [Result "" ""] ∅ sampleValidator);
    [intros m; reflexivity | reflexivity | reflexivity | reflexivity | reflexivity].
Defined.

(** C1 as stated fails: one worker publishes an image key and nothing else
    is found; [Extract] returns the image key and no error. *)
Lemma Extract_image_key_alone :
  lastNonEmpty (rawKeysOf [Result "" "00112233445566778899aabbccddeeff"]) = ""%string /\
  (∅ : gset string) = ∅ /\
  Extract elements StatusOnline true sampleExtractor
    [Result "" "00112233445566778899aabbccddeeff"] ∅ =
  (""%string, "00112233445566778899aabbccddeeff"%string, None) /\
  snd (Extract elements StatusOnline true sampleExtractor
         [Result "" "00112233445566778899aabbccddeeff"] ∅) <> Some ErrNoValidKey.
Proof.
  split; [reflexivity |]. split; [reflexivity |]. split; [reflexivity |].
  cbn. discriminate.
Qed.

(** [strings.Join] puts the separator between the elements and nowhere
    else: it is the concatenation of the Standard Library. *)
Lemma Join_concat (elems : list string) (sep : string) :
  Join elems sep = String.concat sep elems.
Proof.
  induction elems as [|x elems IH]; [reflexivity |].
  destruct elems as [|y elems]; [reflexivity |].
  change (Join (x :: y :: elems) sep) with (x +:+ sep +:+ Join (y :: elems) sep).
  rewrite IH. reflexivity.
Qed.

(** C5.  When the result channel is read up to its closing, the data key
    that [Extract] returns is ["derived:"] followed by the keys of
    [foundDerivedKeys] with [","] between them if that map is not empty,
    and otherwise the last raw key that a worker published (the empty
    string if none did). *)
Theorem Extract_data_key rangeOrder e rounds found v :
  (forall m, rangeOrder m ≡ₚ elements m) ->
  validator e = Some v ->
  drained rounds = true ->
  fst (fst (Extract rangeOrder StatusOnline true e rounds found)) =
  if decide (found = ∅) then lastNonEmpty (rawKeysOf rounds)
  else ("derived:" +:+ String.concat "," (rangeOrder found))%string.
Proof.
  intros Hperm Hv Hd.
  rewrite (Extract_drained _ _ _ _ _ Hv Hd).
  pose proof (rangeOrder_empty rangeOrder found Hperm) as Hempty.
  destruct (decide (found = ∅)) as [Hf|Hf].
  - apply Hempty in Hf. rewrite Hf. cbn [awaitResults].
    change (0 <? len []) with false. cbn iota.
    destruct (nonEmpty (lastNonEmpty (rawKeysOf rounds))) eqn:Eraw.
    + rewrite Eraw. reflexivity.
    + apply nonEmpty_false in Eraw. rewrite Eraw.
      destruct (nonEmpty (lastNonEmpty (imgKeysOf rounds))); reflexivity.
  - destruct (rangeOrder found) as [|k ks] eqn:Eks.
    + exfalso. apply Hf, Hempty. reflexivity.
    + cbn [awaitResults].
      replace (0 <? len (k :: ks)) with true
        by (symmetry; apply Z.ltb_lt; unfold len; cbn [length]; lia).
      rewrite Join_concat. reflexivity.
Qed.

(** Two derived keys are found, and a raw key was published: the data key
    holds the two derived keys with a comma between them. *)
Lemma Extract_data_key_witness :
  fst (fst (Extract elements StatusOnline true sampleExtractor
              [Result "aa" ""] {["33"%string; "17"%string]})) =
  "derived:33,17"%string.
Proof.
  rewrite (Extract_data_key elements sampleExtractor [Result "aa" ""]
             {["33"%string; "17"%string]} sampleValidator);
    [vm_compute; reflexivity | intros m; reflexivity | reflexivity | reflexivity].
Defined.

(** ** [SearchAllDerivedKeys] under a cancelled context *)

(** C7.  If the first poll of the context finds it cancelled, as it does
    when the context was cancelled before the call, [SearchAllDerivedKeys]
    returns 0 and leaves the extractor as it was: nothing is handed to the
    validator and [foundDerivedKeys] is unchanged, whatever the chunk
    holds. *)
Theorem SearchAllDerivedKeys_cancelled (ctx : Context) (memory : list byte)
    (e : V4Extractor) :
  ctx 0%nat = true ->
  SearchAllDerivedKeys ctx memory e = Done (0, e).
Proof.
  intros Hctx. unfold SearchAllDerivedKeys.
  destruct (len memory <? 32) eqn:Eshort; [reflexivity |].
  cbn [derivedLoop]. change (0 + 32) with 32. rewrite Eshort.
  unfold pollPoint. change (0 mod (8 * 1024) =? 0) with true. cbn iota.
  rewrite Hctx. reflexivity.
Qed.

Lemma SearchAllDerivedKeys_cancelled_witness :
  SearchAllDerivedKeys cancelledContext (repeat x55 16 ++ sessionKey) sampleExtractor =
  Done (0, sampleExtractor).
Proof.
  apply (SearchAllDerivedKeys_cancelled cancelledContext
           (repeat x55 16 ++ sessionKey) sampleExtractor).
  reflexivity.
Defined.

(** ** [ValidateDerivedKey] *)

(** C10.  With a decryptor that has no method [ValidateDerivedKey], the
    validator's [ValidateDerivedKey] returns false for every key and leaves
    the validator, hence [matchedDBs] and [matchedCount], as it was. *)
Theorem ValidateDerivedKey_unsupported (v : Validator) (key : list byte) :
  Decryptor_ValidateDerivedKey (decryptor v) = None ->
  ValidateDerivedKey v key = (false, v) /\
  matchedDBs (snd (ValidateDerivedKey v key)) = matchedDBs v /\
  matchedCount (snd (ValidateDerivedKey v key)) = matchedCount v.
Proof.
  intros Hnone. unfold ValidateDerivedKey. rewrite Hnone. auto.
Qed.

Lemma ValidateDerivedKey_unsupported_witness :
  ValidateDerivedKey sampleV3Validator messageKey = (false, sampleV3Validator) /\
  matchedDBs (snd (ValidateDerivedKey sampleV3Validator messageKey)) =
    matchedDBs sampleV3Validator /\
  matchedCount (snd (ValidateDerivedKey sampleV3Validator messageKey)) =
    matchedCount sampleV3Validator.
Proof.
  apply (ValidateDerivedKey_unsupported sampleV3Validator messageKey).
  reflexivity.
Defined.

Lemma set_probed_set_probed p q v : set_probed p (set_probed q v) = set_probed p v.
Proof. reflexivity. Qed.

Lemma set_probed_id v : set_probed (probed v) v = v.
Proof. destruct v; reflexivity. Qed.

Lemma upToFirst_none {A} (P : A -> bool) (l : list A) :
  List.find P l = None -> upToFirst P l = l.
Proof.
  induction l as [|x l IH]; cbn; [reflexivity |].
  destruct (P x); [discriminate |]. intros H. f_equal. apply IH, H.
Qed.

Lemma validateExtras_testRun dv key (extras : list DBFile) :
  forall i v,
    validateExtras dv key i extras v =
    testRun dv key
      (List.filter (unmatchedIn (matchedDBs v)) (indexed i (FirstPage <$> extras))) v.
Proof.
  induction extras as [|d extras IH]; intros i v.
  - unfold testRun. cbn. rewrite set_probed_id. reflexivity.
  - cbn [validateExtras fmap list_fmap indexed List.filter].
    unfold unmatchedIn at 1. cbn [fst].
    destruct (decide (i ∈ matchedDBs v)) as [Hin|Hnin].
    + rewrite bool_decide_eq_true_2 by assumption. cbn [negb]. apply IH.
    + rewrite bool_decide_eq_false_2 by assumption. cbn [negb].
      unfold probe, testRun. cbn [List.find upToFirst snd fst].
      destruct (dv (FirstPage d) key) eqn:Edv.
      * reflexivity.
      * rewrite IH. unfold testRun. cbn [matchedDBs set_probed probed].
        cbn [fmap list_fmap rev fst]. rewrite <- !app_assoc. cbn [app].
        destruct (List.find _ _); reflexivity.
Qed.

Lemma ValidateDerivedKey_testRun dv key v :
  Decryptor_ValidateDerivedKey (decryptor v) = Some dv ->
  ValidateDerivedKey v key = testRun dv key (unmatched v) v.
Proof.
  intros Hdv. unfold ValidateDerivedKey, unmatched, databases. rewrite Hdv.
  cbn [List.filter]. unfold unmatchedIn at 1. cbn [fst].
  destruct (decide (-1 ∈ matchedDBs v)) as [Hin|Hnin].
  - rewrite bool_decide_eq_true_2 by assumption. cbn [negb].
    apply validateExtras_testRun.
  - rewrite bool_decide_eq_false_2 by assumption. cbn [negb].
    unfold probe, testRun. cbn [List.find upToFirst snd fst].
    destruct (dv (FirstPage (dbFile v)) key) eqn:Edv.
    + reflexivity.
    + rewrite validateExtras_testRun. unfold testRun.
      cbn [matchedDBs set_probed probed].
      cbn [fmap list_fmap rev fst]. rewrite <- !app_assoc. cbn [app].
      destruct (List.find _ _); reflexivity.
Qed.

(** *** The interleaving model *)

Lemma elem_of_dbIndices v i : i ∈ dbIndices v <-> -1 <= i < len (extraDBFiles v).
Proof.
  unfold dbIndices. rewrite elem_of_list_to_set, elem_of_seqZ. lia.
Qed.

Lemma size_dbIndices v : Z.of_nat (size (dbIndices v)) = len (extraDBFiles v) + 1.
Proof.
  unfold dbIndices. rewrite size_list_to_set by apply NoDup_seqZ.
  rewrite length_seqZ. pose proof (len_nonneg (extraDBFiles v)). lia.
Qed.

Lemma size_matched_bound v :
  matchedDBs v ⊆ dbIndices v ->
  Z.of_nat (size (matchedDBs v)) <= len (extraDBFiles v) + 1.
Proof.
  intros Hsub. rewrite <- size_dbIndices.
  apply inj_le, subseteq_size, Hsub.
Qed.

Lemma pageOf_Some v i page : pageOf v i = Some page -> i ∈ dbIndices v.
Proof.
  unfold pageOf. rewrite elem_of_dbIndices. pose proof (len_nonneg (extraDBFiles v)).
  destruct (i =? -1) eqn:E1; [apply Z.eqb_eq in E1; lia |].
  destruct (i <? 0) eqn:E2; [discriminate |]. apply Z.ltb_ge in E2.
  destruct (extraDBFiles v !! Z.to_nat i) as [d|] eqn:El; [| discriminate].
  intros _. apply lookup_lt_Some in El. unfold len. lia.
Qed.

Lemma add32_small c : 0 <= c -> c + 1 < 2 ^ 31 -> add32 c 1 = c + 1.
Proof.
  intros H0 H1. unfold add32, int32.
  rewrite Z.mod_small by lia. lia.
Qed.

Lemma size_insert_new (m : gset Z) (i : Z) :
  i ∉ m -> Z.of_nat (size ({[i]} ∪ m)) = Z.of_nat (size m) + 1.
Proof.
  intros Hnin. rewrite size_union by set_solver. rewrite size_singleton. lia.
Qed.

Lemma pendingAdds_nonneg cs : 0 <= pendingAdds cs.
Proof. apply len_nonneg. Qed.

Lemma pendingAdds_insert cs n c c' :
  cs !! n = Some c ->
  pendingAdds (<[n := c']> cs) =
  pendingAdds cs - (if isAdding c then 1 else 0) + (if isAdding c' then 1 else 0).
Proof.
  unfold pendingAdds, len. revert n. induction cs as [|x cs IH]; intros n Hn.
  - discriminate.
  - destruct n as [|n]; cbn in Hn.
    + injection Hn as ->.
      change (<[0%nat := c']> (c :: cs)) with (c' :: cs). cbn [List.filter].
      destruct (isAdding c), (isAdding c'); cbn [length]; lia.
    + change (<[S n := c']> (x :: cs)) with (x :: <[n := c']> cs).
      cbn [List.filter]. specialize (IH n Hn).
      destruct (isAdding x), (isAdding c), (isAdding c'); cbn [length] in *; lia.
Qed.

Lemma pendingAdds_app cs c :
  pendingAdds (cs ++ [c]) = pendingAdds cs + (if isAdding c then 1 else 0).
Proof.
  unfold pendingAdds, len. rewrite List.filter_app, length_app. cbn [List.filter].
  destruct (isAdding c); cbn [length]; lia.
Qed.

Lemma pendingAdds_allReturned cs : allReturned cs -> pendingAdds cs = 0.
Proof.
  unfold pendingAdds, len. induction 1 as [|c cs [b Hb] _ IH]; [reflexivity |].
  cbn [List.filter]. unfold isAdding at 1. rewrite Hb. exact IH.
Qed.

Lemma pendingAdds_atEntry cs : forallb atEntry cs = true -> pendingAdds cs = 0.
Proof.
  unfold pendingAdds, len. induction cs as [|c cs IH]; [reflexivity |].
  cbn [forallb List.filter]. rewrite andb_true_iff. intros [Hc Hcs].
  unfold atEntry in Hc. unfold isAdding at 1.
  destruct (callAt c); try discriminate. apply IH, Hcs.
Qed.

Lemma callStep_extraDBFiles key v p v' p' :
  callStep key v p = (v', p') -> extraDBFiles v' = extraDBFiles v.
Proof.
  destruct p as [|i|i|i|b]; cbn [callStep].
  - destruct (Decryptor_ValidateDerivedKey (decryptor v)); intros [= <- <-]; reflexivity.
  - destruct (pageOf v i), (Decryptor_ValidateDerivedKey (decryptor v));
      try (intros [= <- <-]; reflexivity).
    destruct (decide (i ∈ matchedDBs v)); [intros [= <- <-]; reflexivity |].
    unfold probe. destruct (_ _ key); intros [= <- <-]; reflexivity.
  - destruct (decide (i ∈ matchedDBs v)); intros [= <- <-]; reflexivity.
  - intros [= <- <-]; reflexivity.
  - intros [= <- <-]; reflexivity.
Qed.

Lemma dbIndices_same v v' : extraDBFiles v' = extraDBFiles v -> dbIndices v' = dbIndices v.
Proof. unfold dbIndices. intros ->. reflexivity. Qed.

Lemma counted_step s s' : sharedStep s s' -> counted s -> counted s'.
Proof.
  intros Hstep (Hsub & Hcount & Hpos & Hbound & Hstore).
  destruct Hstep as [v cs n c v' p' Hn Hcall | v cs n c b key Hn Hret | v cs key];
    unfold counted; cbn [sharedValidator calls] in *.
  - pose proof (callStep_extraDBFiles _ _ _ _ _ Hcall) as Hfiles.
    pose proof (dbIndices_same _ _ Hfiles) as Hidx.
    pose proof (pendingAdds_insert cs n c {| callKey := callKey c; callAt := p' |} Hn) as Hpend.
    pose proof (pendingAdds_nonneg cs) as Hpn.
    pose proof (size_matched_bound v Hsub) as Hsize.
    assert (Hc : forall i, callAt c = AtStore i -> i ∈ dbIndices v).
    { rewrite Forall_forall in Hstore. apply Hstore.
      apply list_elem_of_lookup. eauto. }
    pose proof (pendingAdds_nonneg (<[n := {| callKey := callKey c; callAt := p' |}]> cs))
      as Hnew.
    unfold isAdding in Hpend. cbn [callAt] in Hpend.
    rewrite Hfiles, Hidx, Hpend. rewrite Hpend in Hnew. clear Hpend.
    assert (Hrest : forall q, (forall i, q = AtStore i -> i ∈ dbIndices v) ->
              Forall (fun c0 => forall i, callAt c0 = AtStore i -> i ∈ dbIndices v)
                     (<[n := {| callKey := callKey c; callAt := q |}]> cs)).
    { intros q Hq. apply Forall_insert; [exact Hstore | exact Hq]. }
    destruct (callAt c) as [|i|i|i|b] eqn:Ep; cbn [callStep] in Hcall.
    + destruct (Decryptor_ValidateDerivedKey (decryptor v));
        injection Hcall as <- <-; (repeat split; [assumption | lia | assumption | assumption |]);
        apply Hrest; intros ? [=].
    + destruct (pageOf v i) as [page|] eqn:Epage;
        [destruct (Decryptor_ValidateDerivedKey (decryptor v)) as [dv|] |].
      * destruct (decide (i ∈ matchedDBs v)).
        -- injection Hcall as <- <-.
           (repeat split; [assumption | lia | assumption | assumption |]).
           apply Hrest; intros ? [=].
        -- unfold probe in Hcall. destruct (dv page (callKey c)) eqn:Edv;
             injection Hcall as <- <-; cbn [matchedDBs matchedCount set_probed];
             (repeat split; [assumption | lia | assumption | assumption |]);
             apply Hrest; intros j [=]. subst j. eapply pageOf_Some, Epage.
      * injection Hcall as <- <-.
        (repeat split; [assumption | lia | assumption | assumption |]).
        apply Hrest; intros ? [=].
      * injection Hcall as <- <-.
        (repeat split; [assumption | lia | assumption | assumption |]).
        apply Hrest; intros ? [=].
    + destruct (decide (i ∈ matchedDBs v)) as [Hin|Hnin].
      * injection Hcall as <- <-.
        (repeat split; [assumption | lia | assumption | assumption |]).
        apply Hrest; intros ? [=].
      * injection Hcall as <- <-. cbn [matchedDBs matchedCount set_matchedDBs].
        pose proof (size_insert_new _ _ Hnin).
        specialize (Hc i eq_refl).
        (repeat split; [| lia | assumption | assumption |]);
          [apply union_subseteq; split; [apply singleton_subseteq_l, Hc | exact Hsub] |].
        apply Hrest; intros ? [=].
    + injection Hcall as <- <-. cbn [matchedDBs matchedCount set_matchedCount].
      cbn iota in Hnew. rewrite add32_small by lia.
      (repeat split; [assumption | lia | lia | assumption |]).
      apply Hrest; intros ? [=].
    + injection Hcall as <- <-.
      (repeat split; [assumption | lia | assumption | assumption |]).
      apply Hrest; intros ? [=].
  - pose proof (pendingAdds_insert cs n c {| callKey := key; callAt := AtEntry |} Hn) as Hpend.
    unfold isAdding in Hpend. rewrite Hret in Hpend. cbn [callAt] in Hpend.
    rewrite Hpend.
    (repeat split; [assumption | lia | assumption | assumption |]).
    apply Forall_insert; [exact Hstore | intros ? [=]].
  - rewrite pendingAdds_app. unfold isAdding. cbn [callAt].
    (repeat split; [assumption | lia | assumption | assumption |]).
    apply Forall_app. split; [exact Hstore |].
    constructor; [intros ? [=] | constructor].
Qed.

Lemma counted_steps s s' : sharedSteps s s' -> counted s -> counted s'.
Proof.
  induction 1 as [|s1 s2 s3 Hstep _ IH]; [auto |].
  intros Hs1. apply IH. eapply counted_step; eassumption.
Qed.

Lemma consistent_spec v :
  consistent v = true ->
  matchedDBs v ⊆ dbIndices v /\
  matchedCount v = Z.of_nat (size (matchedDBs v)) /\
  len (extraDBFiles v) + 1 < 2 ^ 31.
Proof.
  unfold consistent. rewrite !andb_true_iff, bool_decide_eq_true, Z.eqb_eq, Z.ltb_lt.
  tauto.
Qed.

Lemma counted_initial v cs :
  consistent v = true -> forallb atEntry cs = true ->
  counted {| sharedValidator := v; calls := cs |}.
Proof.
  intros Hc Hentry. apply consistent_spec in Hc as (Hsub & Hcount & Hbound).
  unfold counted. cbn [sharedValidator calls].
  rewrite (pendingAdds_atEntry cs Hentry).
  repeat split; [assumption | lia | lia | assumption |].
  rewrite Forall_forall. intros c Hin i Hi.
  rewrite forallb_forall in Hentry. apply list_elem_of_In in Hin.
  apply Hentry in Hin. unfold atEntry in Hin. rewrite Hi in Hin. discriminate.
Qed.

(** *** One call alone *)

Lemma indexed_range {A} (l : list A) : forall i j x,
  In (j, x) (indexed i l) -> i <= j < i + len l.
Proof.
  unfold len. induction l as [|y l IH]; intros i j x Hin; [destruct Hin |].
  cbn [indexed] in Hin. destruct Hin as [[= <- <-] | Hin].
  - cbn [length]. lia.
  - apply IH in Hin. cbn [length]. lia.
Qed.

Lemma databases_dbIndices v d : In d (databases v) -> d.1 ∈ dbIndices v.
Proof.
  rewrite elem_of_dbIndices. unfold databases. intros [<- | Hin].
  - cbn [fst]. pose proof (len_nonneg (extraDBFiles v)). lia.
  - destruct d as [j x]. apply indexed_range in Hin. cbn [fst].
    unfold len in *. rewrite length_fmap in Hin. lia.
Qed.

Lemma firstMatch_Some dv key v i :
  firstMatch dv key v = Some i -> (i ∉ matchedDBs v) /\ (i ∈ dbIndices v).
Proof.
  unfold firstMatch, unmatched.
  destruct (List.find _ _) as [d|] eqn:Efind; [| discriminate].
  intros [= <-]. apply find_some in Efind as [Hin _].
  apply filter_In in Hin as [Hdb Hun]. split.
  - unfold unmatchedIn in Hun. apply negb_true_iff, bool_decide_eq_false in Hun.
    exact Hun.
  - apply databases_dbIndices, Hdb.
Qed.

(** What one call does when it runs alone, in terms of [firstMatch] and
    [tested]. *)
Lemma ValidateDerivedKey_alone v dv key :
  Decryptor_ValidateDerivedKey (decryptor v) = Some dv ->
  let r := ValidateDerivedKey v key in
  probed r.2 = rev ((fun i => (i, key)) <$> tested dv key v) ++ probed v /\
  extraDBFiles r.2 = extraDBFiles v /\
  totalDBCount r.2 = totalDBCount v /\
  decryptor r.2 = decryptor v /\
  match firstMatch dv key v with
  | Some i =>
      r.1 = true /\ (i ∉ matchedDBs v) /\
      matchedDBs r.2 = {[i]} ∪ matchedDBs v /\
      matchedCount r.2 = add32 (matchedCount v) 1
  | None =>
      r.1 = false /\ matchedDBs r.2 = matchedDBs v /\
      matchedCount r.2 = matchedCount v
  end.
Proof.
  intros Hdv. cbv zeta. rewrite (ValidateDerivedKey_testRun dv key v Hdv).
  pose proof (firstMatch_Some dv key v) as Hfirst.
  unfold firstMatch, tested, testRun in *.
  assert (Hlog : forall l : list (Z * list byte),
            (fun d => (d.1, key)) <$> l = (fun i => (i, key)) <$> (fst <$> l)).
  { intros l. rewrite <- list_fmap_compose. reflexivity. }
  destruct (List.find (fun d => dv d.2 key) (unmatched v)) as [d|] eqn:Efind.
  - cbn [fmap option_fmap option_map] in *.
    destruct (Hfirst d.1 eq_refl) as [Hnin _].
    unfold markMatched. cbn [matchedDBs set_probed].
    destruct (decide (d.1 ∈ matchedDBs v)) as [Hin|_]; [contradiction |].
    cbn [fst snd probed extraDBFiles totalDBCount decryptor matchedDBs matchedCount
         set_matchedCount set_matchedDBs set_probed].
    rewrite Hlog. auto 10.
  - cbn [fst snd probed extraDBFiles totalDBCount decryptor matchedDBs matchedCount
         set_probed fmap option_fmap option_map].
    rewrite Hlog. auto 10.
Qed.

(** *** A call alone is the sequence of its atomic steps *)

Lemma runCall_extras dv key (rest : list DBFile) :
  forall (pre : list DBFile) (v : Validator),
    extraDBFiles v = pre ++ rest ->
    Decryptor_ValidateDerivedKey (decryptor v) = Some dv ->
    exists fuel,
      runCall fuel key v (AtLoad (len pre)) =
      ((validateExtras dv key (len pre) rest v).2,
       Returned (validateExtras dv key (len pre) rest v).1).
Proof.
  induction rest as [|d rest IH]; intros pre v Hfiles Hdv.
  - exists 1%nat. cbn [runCall callStep validateExtras fst snd].
    assert (Hpage : pageOf v (len pre) = None).
    { unfold pageOf, len. rewrite Hfiles, app_nil_r.
      destruct (Z.of_nat (length pre) =? -1) eqn:E; [apply Z.eqb_eq in E; lia |].
      destruct (Z.of_nat (length pre) <? 0) eqn:E2; [reflexivity |].
      rewrite Nat2Z.id, lookup_ge_None_2 by lia. reflexivity. }
    rewrite Hpage. reflexivity.
  - assert (Hpage : pageOf v (len pre) = Some (FirstPage d)).
    { unfold pageOf, len. rewrite Hfiles.
      destruct (Z.of_nat (length pre) =? -1) eqn:E; [apply Z.eqb_eq in E; lia |].
      destruct (Z.of_nat (length pre) <? 0) eqn:E2; [apply Z.ltb_lt in E2; lia |].
      rewrite Nat2Z.id, list_lookup_middle by reflexivity. reflexivity. }
    assert (Hnext : len pre + 1 = len (pre ++ [d])).
    { unfold len. rewrite length_app. cbn [length]. lia. }
    cbn [validateExtras].
    destruct (decide (len pre ∈ matchedDBs v)) as [Hin|Hnin].
    + destruct (IH (pre ++ [d]) v) as [fuel Hfuel];
        [rewrite <- app_assoc; exact Hfiles | exact Hdv |].
      exists (S fuel). cbn [runCall callStep]. rewrite Hpage, Hdv.
      destruct (decide (len pre ∈ matchedDBs v)); [| contradiction].
      rewrite Hnext. exact Hfuel.
    + unfold probe. destruct (dv (FirstPage d) key) eqn:Edv.
      * exists 3%nat. cbn [runCall callStep]. rewrite Hpage, Hdv.
        destruct (decide (len pre ∈ matchedDBs v)); [contradiction |].
        unfold probe. rewrite Edv. cbn [runCall callStep matchedDBs set_probed].
        unfold markMatched. cbn [matchedDBs set_probed].
        destruct (decide (len pre ∈ matchedDBs v)); [contradiction |].
        reflexivity.
      * destruct (IH (pre ++ [d]) (set_probed ((len pre, key) :: probed v) v))
          as [fuel Hfuel]; [rewrite <- app_assoc; exact Hfiles | exact Hdv |].
        exists (S fuel). cbn [runCall callStep]. rewrite Hpage, Hdv.
        destruct (decide (len pre ∈ matchedDBs v)); [contradiction |].
        unfold probe. rewrite Edv. rewrite Hnext. exact Hfuel.
Qed.

Lemma runCall_ValidateDerivedKey v dv key :
  Decryptor_ValidateDerivedKey (decryptor v) = Some dv ->
  exists fuel,
    runCall fuel key v AtEntry =
    ((ValidateDerivedKey v key).2, Returned (ValidateDerivedKey v key).1).
Proof.
  intros Hdv. unfold ValidateDerivedKey. rewrite Hdv.
  assert (Hpage : pageOf v (-1) = Some (FirstPage (dbFile v))) by reflexivity.
  destruct (decide (-1 ∈ matchedDBs v)) as [Hin|Hnin].
  - destruct (runCall_extras dv key (extraDBFiles v) [] v eq_refl Hdv) as [fuel Hfuel].
    exists (S (S fuel)). cbn [runCall callStep]. rewrite Hdv. cbn [runCall callStep]. rewrite Hdv, Hpage.
    destruct (decide (-1 ∈ matchedDBs v)); [| contradiction].
    exact Hfuel.
  - unfold probe. destruct (dv (FirstPage (dbFile v)) key) eqn:Edv.
    + exists 4%nat. cbn [runCall callStep]. rewrite Hdv. cbn [runCall callStep]. rewrite Hdv, Hpage.
      destruct (decide (-1 ∈ matchedDBs v)); [contradiction |].
      unfold probe. rewrite Edv. cbn [runCall callStep matchedDBs set_probed].
      unfold markMatched. cbn [matchedDBs set_probed].
      destruct (decide (-1 ∈ matchedDBs v)); [contradiction |].
      reflexivity.
    + destruct (runCall_extras dv key (extraDBFiles v) []
                  (set_probed ((-1, key) :: probed v) v) eq_refl Hdv) as [fuel Hfuel].
      exists (S (S fuel)). cbn [runCall callStep]. rewrite Hdv. cbn [runCall callStep]. rewrite Hdv, Hpage.
      destruct (decide (-1 ∈ matchedDBs v)); [contradiction |].
      unfold probe. rewrite Edv. exact Hfuel.
Qed.

Lemma consistent_intro v :
  matchedDBs v ⊆ dbIndices v ->
  matchedCount v = Z.of_nat (size (matchedDBs v)) ->
  len (extraDBFiles v) + 1 < 2 ^ 31 ->
  consistent v = true.
Proof.
  intros Hsub Hcount Hbound. unfold consistent.
  rewrite !andb_true_iff, bool_decide_eq_true, Z.eqb_eq, Z.ltb_lt. tauto.
Qed.

(** A call that runs alone keeps the bookkeeping consistent, and on a
    consistent validator the 32-bit addition is a plain increment. *)
Lemma ValidateDerivedKey_consistent v dv key :
  Decryptor_ValidateDerivedKey (decryptor v) = Some dv ->
  consistent v = true ->
  consistent (ValidateDerivedKey v key).2 = true /\
  (forall i, firstMatch dv key v = Some i ->
             matchedCount (ValidateDerivedKey v key).2 = matchedCount v + 1).
Proof.
  intros Hdv Hc.
  destruct (ValidateDerivedKey_alone v dv key Hdv) as (_ & Hfiles & _ & _ & Hmatch).
  apply consistent_spec in Hc as (Hsub & Hcount & Hbound).
  pose proof (firstMatch_Some dv key v) as Hfirst.
  set (r := ValidateDerivedKey v key) in *.
  destruct (firstMatch dv key v) as [i|].
  - destruct Hmatch as (_ & Hnin & Hm & Hcnt).
    destruct (Hfirst i eq_refl) as [_ Hidx].
    assert (Hsub' : matchedDBs r.2 ⊆ dbIndices r.2).
    { rewrite (dbIndices_same _ _ Hfiles), Hm.
      apply union_subseteq; split; [apply singleton_subseteq_l, Hidx | exact Hsub]. }
    pose proof (size_matched_bound _ Hsub') as Hsize.
    rewrite Hfiles, Hm, (size_insert_new _ _ Hnin) in Hsize.
    assert (Hplus : matchedCount r.2 = matchedCount v + 1).
    { rewrite Hcnt. apply add32_small; lia. }
    split; [| intros j [= <-]; exact Hplus].
    apply consistent_intro; [exact Hsub' | | rewrite Hfiles; exact Hbound].
    rewrite Hplus, Hm, (size_insert_new _ _ Hnin). lia.
  - destruct Hmatch as (_ & Hm & Hcnt).
    split; [| intros j [=]].
    apply consistent_intro; [| | rewrite Hfiles; exact Hbound].
    + rewrite (dbIndices_same _ _ Hfiles), Hm. exact Hsub.
    + rewrite Hcnt, Hm. exact Hcount.
Qed.

(** C2.  [ValidateDerivedKey], with a decryptor that can test derived keys
    and consistent bookkeeping.  A call that runs alone tests the unmatched
    databases in the order primary (index -1), then the extra files in
    order, up to the first whose first page authenticates the key; that
    index is marked, [matchedCount] grows by one and the call returns true;
    if no unmatched database authenticates the key the call returns false
    and marks nothing.  The call is the sequence of its atomic steps.  When
    any number of goroutines run such calls at once, every marked index is
    counted exactly once: at every moment [matchedCount] plus the number of
    goroutines between their store and their addition is the number of
    marked indices, so the two agree whenever all calls have returned. *)
Theorem ValidateDerivedKey_first_unmatched (v : Validator)
    (dv : list byte -> list byte -> bool) (key : list byte) :
  Decryptor_ValidateDerivedKey (decryptor v) = Some dv ->
  consistent v = true ->
  (let r := ValidateDerivedKey v key in
   probed r.2 = rev ((fun i => (i, key)) <$> tested dv key v) ++ probed v /\
   consistent r.2 = true /\
   match firstMatch dv key v with
   | Some i =>
       r.1 = true /\ (i ∉ matchedDBs v) /\
       matchedDBs r.2 = {[i]} ∪ matchedDBs v /\
       matchedCount r.2 = matchedCount v + 1
   | None =>
       r.1 = false /\ matchedDBs r.2 = matchedDBs v /\
       matchedCount r.2 = matchedCount v
   end) /\
  (exists fuel,
     runCall fuel key v AtEntry =
     ((ValidateDerivedKey v key).2, Returned (ValidateDerivedKey v key).1)) /\
  (forall (cs : list call) (s : shared),
     forallb atEntry cs = true ->
     sharedSteps {| sharedValidator := v; calls := cs |} s ->
     matchedCount (sharedValidator s) + pendingAdds (calls s) =
       Z.of_nat (size (matchedDBs (sharedValidator s))) /\
     (allReturned (calls s) ->
      matchedCount (sharedValidator s) =
        Z.of_nat (size (matchedDBs (sharedValidator s))))).
Proof.
  intros Hdv Hc. split; [| split].
  - cbv zeta.
    destruct (ValidateDerivedKey_alone v dv key Hdv) as (Hlog & _ & _ & _ & Hmatch).
    destruct (ValidateDerivedKey_consistent v dv key Hdv Hc) as [Hc' Hplus].
    split; [exact Hlog |]. split; [exact Hc' |].
    destruct (firstMatch dv key v) as [i|].
    + destruct Hmatch as (Hok & Hnin & Hm & _).
      split; [exact Hok |]. split; [exact Hnin |]. split; [exact Hm |].
      apply (Hplus i eq_refl).
    + exact Hmatch.
  - apply (runCall_ValidateDerivedKey v dv key Hdv).
  - intros cs s Hentry Hsteps.
    pose proof (counted_steps _ _ Hsteps (counted_initial v cs Hc Hentry))
      as (_ & Hcount & _).
    split; [exact Hcount |].
    intros Hret. rewrite (pendingAdds_allReturned _ Hret) in Hcount. lia.
Qed.

Lemma ValidateDerivedKey_first_unmatched_witness :
  (ValidateDerivedKey sampleValidator sessionKey).1 = true /\
  matchedDBs (ValidateDerivedKey sampleValidator sessionKey).2 = {[0]} ∪ ∅ /\
  matchedCount (ValidateDerivedKey sampleValidator sessionKey).2 = 0 + 1.
Proof.
  pose proof (ValidateDerivedKey_first_unmatched sampleValidator samplePageTest
                sessionKey eq_refl eq_refl) as [(_ & _ & H) _].
  exact (conj (proj1 H) (proj2 (proj2 H))).
Defined.

(** *** Sequences of calls after construction *)

Lemma tracked_new platform_ version_ dbPath_ dec d img walked :
  (version_ <> 4 -> Decryptor_ValidateDerivedKey dec = None) ->
  len walked + 1 < 2 ^ 31 ->
  tracked (NewValidatorWithFile platform_ version_ dbPath_ dec d img walked).
Proof.
  intros Hold Hbound. unfold NewValidatorWithFile, tracked.
  destruct (version_ =? 4) eqn:E.
  - split; [| left; reflexivity].
    apply consistent_intro; cbn [matchedDBs matchedCount extraDBFiles];
      [apply empty_subseteq | rewrite size_empty; reflexivity | exact Hbound].
  - apply Z.eqb_neq in E. split; [| right; cbn [decryptor totalDBCount matchedCount]; auto].
    apply consistent_intro; cbn [matchedDBs matchedCount extraDBFiles];
      [apply empty_subseteq | rewrite size_empty; reflexivity | reflexivity].
Qed.

Lemma tracked_ValidateDerivedKey v key :
  tracked v -> tracked (ValidateDerivedKey v key).2.
Proof.
  intros [Hc Hcases].
  destruct (Decryptor_ValidateDerivedKey (decryptor v)) as [dv|] eqn:Hdv.
  - destruct (ValidateDerivedKey_alone v dv key Hdv) as (_ & Hfiles & Htotal & _ & _).
    destruct (ValidateDerivedKey_consistent v dv key Hdv Hc) as [Hc' _].
    split; [exact Hc' |].
    destruct Hcases as [Hall | (Hnone & _)]; [| discriminate].
    left. rewrite Htotal, Hfiles. exact Hall.
  - unfold ValidateDerivedKey. rewrite Hdv. cbn [snd]. split; [exact Hc |].
    destruct Hcases as [Hall | (_ & Hzero & Hnone)]; [left; exact Hall | right; auto].
Qed.

Lemma tracked_validateAll keys : forall v, tracked v -> tracked (validateAll v keys).
Proof.
  induction keys as [|key keys IH]; intros v Hv; [exact Hv |].
  apply IH, tracked_ValidateDerivedKey, Hv.
Qed.

Lemma int32_small z : 0 <= z < 2 ^ 31 -> int32 z = z.
Proof. intros H. unfold int32. rewrite Z.mod_small by lia. lia. Qed.

(** C3.  After construction and any sequence of calls of
    [ValidateDerivedKey], [matchedCount] is at most [totalDBCount], and
    [AllDerivedKeysFound] answers true exactly when [totalDBCount] is
    positive and equals [matchedCount].  The decryptor comes from
    [NewDecryptor], which lives in the decrypt packages: it is taken as
    given, with what the design notes say of it, that only a version 4
    decryptor can test derived keys.  The number of database files is below
    2^31, the range of the counter. *)
Theorem matchedCount_le_totalDBCount (platform_ : string) (version_ : Z)
    (dbPath_ : string) (dec : Decryptor) (d : DBFile) (img : list byte -> bool)
    (walked : list DBFile) (keys : list (list byte)) :
  (version_ <> 4 -> Decryptor_ValidateDerivedKey dec = None) ->
  len walked + 1 < 2 ^ 31 ->
  let v := validateAll
             (NewValidatorWithFile platform_ version_ dbPath_ dec d img walked) keys in
  matchedCount v <= totalDBCount v /\
  (AllDerivedKeysFound v = true <->
   0 < totalDBCount v /\ matchedCount v = totalDBCount v).
Proof.
  intros Hold Hbound v.
  pose proof (tracked_validateAll keys _
                (tracked_new platform_ version_ dbPath_ dec d img walked Hold Hbound))
    as [Hc Hcases].
  fold v in Hc, Hcases.
  apply consistent_spec in Hc as (Hsub & Hcount & Hfit).
  pose proof (size_matched_bound v Hsub) as Hsize.
  pose proof (len_nonneg (extraDBFiles v)) as Hlen.
  assert (Hle : matchedCount v <= totalDBCount v /\ 0 <= totalDBCount v < 2 ^ 31).
  { destruct Hcases as [Hall | (_ & Hzero & Hnone)]; lia. }
  destruct Hle as [Hle Htotal]. split; [exact Hle |].
  unfold AllDerivedKeysFound. rewrite (int32_small _ Htotal).
  rewrite andb_true_iff, Z.ltb_lt, Z.leb_le. lia.
Qed.

Lemma matchedCount_le_totalDBCount_witness :
  let v := validateAll sampleValidator [sessionKey; messageKey; sessionKey] in
  matchedCount v <= totalDBCount v /\
  (AllDerivedKeysFound v = true <->
   0 < totalDBCount v /\ matchedCount v = totalDBCount v).
Proof.
  apply (matchedCount_le_totalDBCount "darwin" 4 "db_storage/message/message_0.db"
           sampleV4Decryptor messageDB (fun _ => false) [sessionDB]
           [sessionKey; messageKey; sessionKey]).
  - intros H. exfalso. apply H. reflexivity.
  - reflexivity.
Defined.

(** ** Byte-slice primitives *)

Lemma slice_Done (s : list byte) (lo hi : Z) :
  0 <= lo -> lo <= hi -> hi <= len s ->
  slice s lo hi = Done (take (Z.to_nat (hi - lo)) (drop (Z.to_nat lo) s)).
Proof.
  intros H1 H2 H3. unfold slice.
  rewrite (proj2 (Z.leb_le _ _) H1), (proj2 (Z.leb_le _ _) H2), (proj2 (Z.leb_le _ _) H3).
  reflexivity.
Qed.

Lemma slice_head (s : list byte) (n : Z) :
  0 <= n <= len s -> slice s 0 n = Done (take (Z.to_nat n) s).
Proof.
  intros H. rewrite slice_Done by lia. rewrite Z.sub_0_r. reflexivity.
Qed.

Lemma len_take (s : list byte) (n : Z) : 0 <= n <= len s -> len (take (Z.to_nat n) s) = n.
Proof. unfold len. intros H. rewrite length_take. lia. Qed.

Lemma lastIndexFrom_range (s sep : list byte) (k : nat) :
  -1 <= lastIndexFrom s sep k <= Z.of_nat k.
Proof.
  induction k as [|k IH]; cbn [lastIndexFrom];
    destruct (HasPrefix _ sep); lia.
Qed.

Lemma LastIndex_range (s sep : list byte) : -1 <= LastIndex s sep <= len s.
Proof.
  unfold LastIndex. pose proof (len_nonneg s).
  destruct (len sep =? 0); [lia |].
  destruct (len s <? len sep); [lia |].
  pose proof (lastIndexFrom_range s sep (length s - length sep)). unfold len. lia.
Qed.

Lemma Index_lower (s sep : list byte) : -1 <= Index s sep.
Proof.
  induction s as [|b s IH]; cbn [Index]; destruct (HasPrefix _ sep); try lia.
  destruct (Index s sep =? -1); lia.
Qed.

Lemma Contains_zero_pair (w : list byte) :
  Contains w [x00; x00] = true <-> hasZeroPair w.
Proof.
  unfold Contains, hasZeroPair. rewrite negb_true_iff, Z.eqb_neq.
  induction w as [|b w IH].
  - cbn [Index]. unfold HasPrefix, Equal.
    rewrite bool_decide_eq_false_2 by discriminate.
    split; [lia | intros (i & H & _); discriminate].
  - cbn [Index]. unfold HasPrefix, Equal. cbn [length].
    destruct (bool_decide (take 2 (b :: w) = [x00; x00])) eqn:E.
    + apply bool_decide_eq_true in E. split; [intros _ | lia].
      destruct w as [|b' w]; [discriminate |]. cbn in E. injection E as -> ->.
      exists 0%nat. split; reflexivity.
    + apply bool_decide_eq_false in E.
      pose proof (Index_lower w [x00; x00]) as Hlow.
      destruct (Index w [x00; x00] =? -1) eqn:Ei.
      * apply Z.eqb_eq in Ei. split; [lia |]. intros ([|i] & H1 & H2).
        -- exfalso. apply E. destruct w as [|b' w]; [discriminate |].
           cbn in H1, H2. injection H1 as ->. injection H2 as ->.
           destruct w; reflexivity.
        -- exfalso. apply (proj2 IH); [| exact Ei]. exists i. split; assumption.
      * apply Z.eqb_neq in Ei. split; [intros _ | lia].
        destruct (proj1 IH Ei) as (i & H1 & H2). exists (S i). split; assumption.
Qed.

(** *** [bytes.LastIndexFunc] *)

Lemma scanBack_le n p start lim : utf8.scanBack n p start lim <= start.
Proof.
  revert start. induction n as [|n IH]; intros start; cbn [utf8.scanBack]; [lia |].
  destruct (start <? lim); [lia |].
  destruct (utf8.RuneStart _); [lia |]. specialize (IH (start - 1)). lia.
Qed.

Lemma DecodeRune_size (p : list byte) :
  p <> [] -> 1 <= snd (utf8.DecodeRune p) <= 4.
Proof.
  intros Hp. unfold utf8.DecodeRune.
  assert (Hn : (len p <? 1) = false).
  { apply Z.ltb_ge. destruct p; [contradiction |]. unfold len. cbn [length]. lia. }
  rewrite Hn. cbv zeta.
  repeat match goal with
         | |- context [if ?c then _ else _] => destruct c
         end; cbn [snd]; lia.
Qed.

Lemma DecodeLastRune_size (p : list byte) :
  p <> [] -> 1 <= snd (utf8.DecodeLastRune p) <= len p.
Proof.
  intros Hp. unfold utf8.DecodeLastRune.
  assert (Hlen : 1 <= len p).
  { destruct p; [contradiction |]. unfold len. cbn [length]. lia. }
  destruct (len p =? 0) eqn:E0; [apply Z.eqb_eq in E0; lia |].
  cbv zeta. destruct (_ <? utf8.RuneSelf); [cbn [snd]; lia |].
  set (start := Z.max 0 (utf8.scanBack _ p _ _)).
  assert (Hstart : 0 <= start < len p).
  { subst start.
    pose proof (scanBack_le (Z.to_nat utf8.UTFMax) p (len p - 1 - 1)
                  (Z.max 0 (len p - utf8.UTFMax))). lia. }
  assert (Hrest : drop (Z.to_nat start) p <> []).
  { intros Hnil. apply (f_equal length) in Hnil. rewrite length_drop in Hnil.
    unfold len in Hstart. cbn [length] in Hnil. lia. }
  pose proof (DecodeRune_size _ Hrest) as Hsize.
  destruct (utf8.DecodeRune (drop (Z.to_nat start) p)) as [r size]. cbn [snd] in Hsize.
  destruct (start + size =? len p) eqn:E; cbn [snd]; [| lia].
  apply Z.eqb_eq in E. lia.
Qed.

Lemma lastRune_size (s : list byte) (i r size : Z) :
  0 < i <= len s ->
  (if utf8.RuneSelf <=? utf8.at_ s (Z.to_nat (i - 1))
   then utf8.DecodeLastRune (take (Z.to_nat i) s)
   else (utf8.at_ s (Z.to_nat (i - 1)), 1)) = (r, size) ->
  1 <= size <= i.
Proof.
  intros Hi. destruct (utf8.RuneSelf <=? _).
  - assert (Hne : take (Z.to_nat i) s <> []).
    { intros Hnil. apply (f_equal length) in Hnil. rewrite length_take in Hnil.
      unfold len in Hi. cbn [length] in Hnil. lia. }
    pose proof (DecodeLastRune_size _ Hne) as H.
    rewrite len_take in H by lia. intros Heq. rewrite Heq in H. exact H.
  - intros [= <- <-]. lia.
Qed.

Lemma lastIndexFunc_range (s : list byte) (f : Z -> bool) (fuel : nat) :
  forall i, 0 <= i <= len s ->
    lastIndexFunc fuel s f i = -1 \/ 0 <= lastIndexFunc fuel s f i < i.
Proof.
  induction fuel as [|fuel IH]; intros i Hi; cbn [lastIndexFunc]; [left; reflexivity |].
  destruct (i <=? 0) eqn:E0; [left; reflexivity |]. apply Z.leb_gt in E0.
  pose proof (lastRune_size s i) as Hsize.
  destruct (if utf8.RuneSelf <=? _ then _ else _) as [r size].
  specialize (Hsize r size ltac:(lia) eq_refl).
  destruct (f r); [right; lia |].
  destruct (IH (i - size)) as [H | H]; [lia | left; exact H | right; lia].
Qed.

(** The fuel given by [LastIndexFunc] is enough: any larger fuel gives the
    same answer. *)
Lemma lastIndexFunc_fuel (s : list byte) (f : Z -> bool) (fuel : nat) :
  forall fuel' i, 0 <= i <= len s -> i <= Z.of_nat fuel -> i <= Z.of_nat fuel' ->
    lastIndexFunc fuel s f i = lastIndexFunc fuel' s f i.
Proof.
  induction fuel as [|fuel IH]; intros fuel' i Hi Hf Hf'.
  - assert (i = 0) as -> by lia. destruct fuel'; reflexivity.
  - destruct fuel' as [|fuel'].
    + assert (i = 0) as -> by lia. reflexivity.
    + cbn [lastIndexFunc]. destruct (i <=? 0) eqn:E0; [reflexivity |].
      apply Z.leb_gt in E0.
      pose proof (lastRune_size s i) as Hsize.
      destruct (if utf8.RuneSelf <=? _ then _ else _) as [r size].
      specialize (Hsize r size ltac:(lia) eq_refl).
      destruct (f r); [reflexivity |].
      apply IH; lia.
Qed.

Lemma LastIndexFunc_range (s : list byte) (f : Z -> bool) :
  -1 <= LastIndexFunc s f < len s \/ (s = [] /\ LastIndexFunc s f = -1).
Proof.
  unfold LastIndexFunc. pose proof (len_nonneg s).
  destruct (lastIndexFunc_range s f (length s) (len s)) as [Hr | Hr]; [lia | |].
  - destruct s as [|b s]; [right; split; [reflexivity | exact Hr] |].
    left. rewrite Hr. unfold len. cbn [length]. lia.
  - left. lia.
Qed.

(** ** [SearchKey] and [SearchImgKey] *)

Lemma extends_refl k memory e : extends k memory e e.
Proof.
  unfold extends. repeat split; try reflexivity.
  - exists []. split; [reflexivity | constructor].
  - intros h Hh. left. exact Hh.
Qed.

Lemma extends_trans k memory e1 e2 e3 :
  extends k memory e1 e2 -> extends k memory e2 e3 -> extends k memory e1 e3.
Proof.
  intros (Hv1 & Hd1 & Hi1 & Hf1 & Hp1 & (new1 & Ha1 & Hn1) & Hs1)
         (Hv2 & Hd2 & Hi2 & Hf2 & Hp2 & (new2 & Ha2 & Hn2) & Hs2).
  unfold extends. repeat split; try congruence.
  - exists (new2 ++ new1). split.
    + rewrite Ha2, Ha1, app_assoc. reflexivity.
    + apply Forall_app. split; assumption.
  - intros h Hh. destruct (Hs2 h Hh) as [Hh2 | Hnew]; [apply Hs1, Hh2 | right; exact Hnew].
Qed.

Lemma extends_store k memory e w :
  candidate k memory w ->
  extends k memory e (loadOrStoreProcessed k (EncodeToString w) e).2.
Proof.
  intros Hw. unfold loadOrStoreProcessed.
  destruct (decide (EncodeToString w ∈ processedOf k e)); [apply extends_refl |].
  unfold extends. destruct k; cbn [snd]; (repeat split; try reflexivity);
    try (exists []; split; [reflexivity | constructor]).
  - cbn [processedOf processedDataKeys set_processedDataKeys].
    intros h Hh. apply elem_of_union in Hh as [Hh | Hh]; [| left; exact Hh].
    apply elem_of_singleton in Hh. right. exists w. split; assumption.
  - cbn [processedOf processedImgKeys set_processedImgKeys].
    intros h Hh. apply elem_of_union in Hh as [Hh | Hh]; [| left; exact Hh].
    apply elem_of_singleton in Hh. right. exists w. split; assumption.
Qed.

Lemma loadOrStoreProcessed_validator k h e :
  validator (loadOrStoreProcessed k h e).2 = validator e.
Proof.
  unfold loadOrStoreProcessed.
  destruct (decide (h ∈ processedOf k e)); [reflexivity |]. destruct k; reflexivity.
Qed.

Lemma askValidator_Done k w e v :
  validator e = Some v ->
  exists ok, askValidator k w e = Done (ok, set_asked (askOf k w :: asked e) e).
Proof.
  intros Hv. unfold askValidator, theValidator. rewrite Hv. cbn [andThen].
  destruct k; eexists; reflexivity.
Qed.

Lemma askValidator_nil k w e :
  validator e = None -> askValidator k w e = NilPanic.
Proof.
  intros Hv. unfold askValidator, theValidator. rewrite Hv. reflexivity.
Qed.

Lemma extends_ask k memory e w :
  candidate k memory w ->
  extends k memory e (set_asked (askOf k w :: asked e) e).
Proof.
  intros Hw. unfold extends. repeat split; try reflexivity.
  - exists [askOf k w]. split; [reflexivity |].
    constructor; [| constructor]. exists w. split; [reflexivity | exact Hw].
  - intros h Hh. left. destruct k; exact Hh.
Qed.

Lemma extends_validator k memory e e' :
  extends k memory e e' -> validator e' = validator e.
Proof. intros (H & _). exact H. Qed.

(** The loops of a pattern search end in one of two ways: with a result,
    or with the dereference of a validator that is nil.  No slice
    expression is out of range and the fuel is never used up. *)
Lemma tryOffsets_sound k memory index (offsets : list Z) :
  forall e,
    (validator e = None /\ tryOffsets k memory index offsets e = NilPanic) \/
    exists r e',
      tryOffsets k memory index offsets e = Done (r, e') /\
      extends k memory e e' /\
      (forall keyHex, r = Some keyHex ->
         exists w, keyHex = EncodeToString w /\ candidate k memory w).
Proof.
  induction offsets as [|offset offsets IH]; intros e.
  - right. exists None, e. split; [reflexivity |].
    split; [apply extends_refl |]. intros ? [=].
  - cbn [tryOffsets]. cbv zeta.
    destruct ((index + offset <? 0) || (len memory <? index + offset + keySize k)) eqn:Eguard;
      [apply IH |].
    apply orb_false_iff in Eguard as [Elo Ehi].
    apply Z.ltb_ge in Elo, Ehi.
    assert (Hsize : 0 <= keySize k) by (destruct k; cbn; lia).
    rewrite slice_Done by lia. cbn [andThen].
    replace (index + offset + keySize k - (index + offset)) with (keySize k) by lia.
    set (w := take (Z.to_nat (keySize k)) (drop (Z.to_nat (index + offset)) memory)).
    destruct (Contains w [x00; x00]) eqn:Ezero; [apply IH |].
    assert (Hw : candidate k memory w).
    { split; [| exact Ezero]. exists (index + offset). repeat split; [lia | lia]. }
    pose proof (extends_store k memory e w Hw) as Hstore.
    destruct (loadOrStoreProcessed k (EncodeToString w) e) as [loaded e1] eqn:Eload.
    cbn [snd] in Hstore.
    pose proof (extends_validator _ _ _ _ Hstore) as Hv1.
    destruct loaded.
    + destruct (IH e1) as [[Hnil Hrun] | (r & e' & Hrun & Hext & Hkey)].
      * left. split; [congruence | exact Hrun].
      * right. exists r, e'. split; [exact Hrun |]. split; [| exact Hkey].
        eapply extends_trans; eassumption.
    + destruct (validator e1) as [v|] eqn:Hve1.
      2: { left. split; [congruence |].
           rewrite (askValidator_nil k w e1 Hve1). reflexivity. }
      destruct (askValidator_Done k w e1 v Hve1) as [ok Hask]. rewrite Hask.
      cbn [andThen].
      pose proof (extends_ask k memory e1 w Hw) as Hasked.
      set (e2 := set_asked (askOf k w :: asked e1) e1) in *.
      destruct ok.
      * right. exists (Some (EncodeToString w)), e2. split; [reflexivity |].
        split; [eapply extends_trans; eassumption |].
        intros keyHex [= <-]. exists w. split; [reflexivity | exact Hw].
      * destruct (IH e2) as [[Hnil Hrun] | (r & e' & Hrun & Hext & Hkey)].
        -- exfalso. rewrite (extends_validator _ _ _ _ Hasked), Hve1 in Hnil.
           discriminate.
        -- right. exists r, e'. split; [exact Hrun |]. split; [| exact Hkey].
           eapply extends_trans; [| exact Hext]. eapply extends_trans; eassumption.
Qed.

Lemma patternLoop_sound k ctx memory keyPattern (fuel : nat) :
  forall index polls e,
    0 <= index <= len memory ->
    index < Z.of_nat fuel ->
    (validator e = None /\
     patternLoop fuel k ctx polls memory keyPattern index e = NilPanic) \/
    exists how polls' e',
      patternLoop fuel k ctx polls memory keyPattern index e = Done (how, polls', e') /\
      extends k memory e e' /\
      match how with
      | Returns key ok => resultOf k memory key ok
      | Breaks => True
      end.
Proof.
  induction fuel as [|fuel IH]; intros index polls e Hindex Hfuel; [lia |].
  cbn [patternLoop].
  destruct (ctx polls).
  { right. exists (Returns "" false), (S polls), e. split; [reflexivity |].
    split; [apply extends_refl | left; split; reflexivity]. }
  rewrite slice_head by lia. cbn [andThen].
  pose proof (LastIndex_range (take (Z.to_nat index) memory) (Pattern keyPattern)) as Hlast.
  rewrite len_take in Hlast by lia.
  set (i1 := LastIndex (take (Z.to_nat index) memory) (Pattern keyPattern)) in *.
  destruct (i1 =? -1) eqn:E1.
  { right. exists Breaks, (S polls), e. split; [reflexivity |].
    split; [apply extends_refl | exact I]. }
  apply Z.eqb_neq in E1.
  assert (Haligned : exists a,
            (if zeroPattern k (Pattern keyPattern)
             then (do head <- slice memory 0 i1;
                   if LastIndexFunc head (fun r => negb (r =? 0)) =? -1 then Done None
                   else Done (Some (LastIndexFunc head (fun r => negb (r =? 0)) + 1)))
             else Done (Some i1)) = Done a /\
            (forall i2, a = Some i2 -> 0 <= i2 <= i1)).
  { destruct (zeroPattern k (Pattern keyPattern)).
    - rewrite slice_head by lia. cbn [andThen].
      pose proof (LastIndexFunc_range (take (Z.to_nat i1) memory)
                    (fun r => negb (r =? 0))) as Hfunc.
      rewrite len_take in Hfunc by lia.
      destruct (LastIndexFunc _ _ =? -1) eqn:E2.
      + exists None. split; [reflexivity | intros ? [=]].
      + apply Z.eqb_neq in E2. eexists. split; [reflexivity |].
        intros i2 [= <-]. lia.
    - exists (Some i1). split; [reflexivity |]. intros i2 [= <-]. lia. }
  destruct Haligned as (a & Ha & Hrange). rewrite Ha. cbn [andThen].
  destruct a as [i2|].
  2: { right. exists Breaks, (S polls), e. split; [reflexivity |].
       split; [apply extends_refl | exact I]. }
  specialize (Hrange i2 eq_refl).
  destruct (tryOffsets_sound k memory i2 (Offsets keyPattern) e)
    as [[Hnil Htry] | (r & e1 & Htry & Hext1 & Hkey)].
  { left. split; [exact Hnil |]. rewrite Htry. reflexivity. }
  rewrite Htry. cbn [andThen].
  destruct r as [keyHex|].
  { right. exists (Returns keyHex true), (S polls), e1. split; [reflexivity |].
    split; [exact Hext1 |]. right. split; [reflexivity |]. apply Hkey. reflexivity. }
  destruct (i2 - 1 <? 0) eqn:E3.
  { right. exists Breaks, (S polls), e1. split; [reflexivity |].
    split; [exact Hext1 | exact I]. }
  apply Z.ltb_ge in E3.
  destruct (IH (i2 - 1) (S polls) e1)
    as [[Hnil Hrun] | (how & polls' & e' & Hrun & Hext & Hhow)]; [lia | lia | |].
  - left. split; [| exact Hrun].
    rewrite <- (extends_validator _ _ _ _ Hext1). exact Hnil.
  - right. exists how, polls', e'. split; [exact Hrun |]. split; [| exact Hhow].
    eapply extends_trans; eassumption.
Qed.

Lemma searchPatterns_sound k ctx memory (patterns : list KeyPatternInfo) :
  forall polls e,
    (validator e = None /\ searchPatterns k ctx polls memory patterns e = NilPanic) \/
    exists key ok e',
      searchPatterns k ctx polls memory patterns e = Done (key, ok, e') /\
      extends k memory e e' /\
      resultOf k memory key ok.
Proof.
  induction patterns as [|keyPattern patterns IH]; intros polls e.
  - right. exists ""%string, false, e. split; [reflexivity |].
    split; [apply extends_refl | left; split; reflexivity].
  - cbn [searchPatterns].
    destruct (patternLoop_sound k ctx memory keyPattern (S (length memory))
                (len memory) polls e)
      as [[Hnil Hrun] | (how & polls' & e1 & Hrun & Hext1 & Hhow)].
    { pose proof (len_nonneg memory). lia. }
    { unfold len. lia. }
    { left. split; [exact Hnil |]. rewrite Hrun. reflexivity. }
    rewrite Hrun. cbn [andThen].
    destruct how as [key ok|].
    + right. exists key, ok, e1. split; [reflexivity |]. split; assumption.
    + destruct (IH polls' e1) as [[Hnil Hrest] | (key & ok & e' & Hrest & Hext & Hfound)].
      * left. split; [| exact Hrest].
        rewrite <- (extends_validator _ _ _ _ Hext1). exact Hnil.
      * right. exists key, ok, e'. split; [exact Hrest |]. split; [| exact Hfound].
        eapply extends_trans; eassumption.
Qed.

(** With a validator set, a pattern search returns. *)
Lemma searchPatterns_Done k ctx memory (patterns : list KeyPatternInfo) polls e v :
  validator e = Some v ->
  exists key ok e',
    searchPatterns k ctx polls memory patterns e = Done (key, ok, e') /\
    extends k memory e e' /\
    resultOf k memory key ok.
Proof.
  intros Hv.
  destruct (searchPatterns_sound k ctx memory patterns polls e) as [[Hnil _] | H];
    [congruence | exact H].
Qed.

(** *** Hex strings determine the bytes *)

Lemma decodeByte_hexchar (b : byte) :
  decodeByte (hexchar (N.shiftr (Byte.to_N b) 4)) (hexchar (N.land (Byte.to_N b) 0x0f))
  = Some b.
Proof. destruct b; vm_compute; reflexivity. Qed.

Lemma EncodeToString_inj (w w' : list byte) :
  EncodeToString w = EncodeToString w' -> w = w'.
Proof.
  revert w'. induction w as [|b w IH]; intros [|b' w'] H; cbn [EncodeToString] in H;
    try discriminate; [reflexivity |].
  injection H as H1 H2 Hrest.
  pose proof (decodeByte_hexchar b) as Hb. pose proof (decodeByte_hexchar b') as Hb'.
  rewrite H1, H2, Hb' in Hb. injection Hb as ->.
  f_equal. apply IH, Hrest.
Qed.

Lemma candidate_no_zero_pair k memory w : candidate k memory w -> ~ hasZeroPair w.
Proof.
  intros [_ Hno] Hpair. apply Contains_zero_pair in Hpair. congruence.
Qed.

(** C9.  On every chunk, under every context and whatever the extractor
    holds, [SearchKey] and [SearchImgKey] take a candidate only at a
    [keyOffset] with [0 <= keyOffset] and [keyOffset] plus the candidate
    length (32, respectively 16) at most the length of the chunk: no slice
    expression is out of range, and the loops end.  With a validator set,
    as [Extract] requires, both return: [("", false)], or the hex string
    of a window that lies inside the chunk; every candidate they hand to
    the validator is such a window; on a chunk shorter than a candidate
    they return [("", false)].  (With the validator nil the first candidate
    that reaches the validator dereferences a nil pointer.) *)
Theorem SearchKey_SearchImgKey_total (ctx : Context) (memory : list byte)
    (e : V4Extractor) :
  SearchKey ctx memory e <> IndexPanic /\
  SearchKey ctx memory e <> OutOfFuel /\
  SearchImgKey ctx memory e <> IndexPanic /\
  SearchImgKey ctx memory e <> OutOfFuel /\
  (is_Some (validator e) ->
   (exists key ok e',
      SearchKey ctx memory e = Done (key, ok, e') /\
      ((ok = false /\ key = ""%string) \/
       (ok = true /\ exists keyOffset w,
          windowAt memory 32 keyOffset w /\ key = EncodeToString w)) /\
      (len memory < 32 -> ok = false) /\
      exists new, asked e' = new ++ asked e /\
        Forall (fun a => exists keyOffset w,
                  windowAt memory 32 keyOffset w /\ a = AskValidate w) new) /\
   (exists key ok e',
      SearchImgKey ctx memory e = Done (key, ok, e') /\
      ((ok = false /\ key = ""%string) \/
       (ok = true /\ exists keyOffset w,
          windowAt memory 16 keyOffset w /\ key = EncodeToString w)) /\
      (len memory < 16 -> ok = false) /\
      exists new, asked e' = new ++ asked e /\
        Forall (fun a => exists keyOffset w,
                  windowAt memory 16 keyOffset w /\ a = AskValidateImgKey w) new)).
Proof.
  assert (Hsafe : forall k,
            searchPatterns k ctx 0 memory (patternsOf k e) e <> IndexPanic /\
            searchPatterns k ctx 0 memory (patternsOf k e) e <> OutOfFuel).
  { intros k.
    destruct (searchPatterns_sound k ctx memory (patternsOf k e) 0%nat e)
      as [[_ Hrun] | (key & ok & e' & Hrun & _)]; rewrite Hrun; split; discriminate. }
  assert (Hboth : forall k, is_Some (validator e) ->
            exists key ok e',
              searchPatterns k ctx 0 memory (patternsOf k e) e = Done (key, ok, e') /\
              ((ok = false /\ key = ""%string) \/
               (ok = true /\ exists keyOffset w,
                  windowAt memory (keySize k) keyOffset w /\ key = EncodeToString w)) /\
              (len memory < keySize k -> ok = false) /\
              exists new, asked e' = new ++ asked e /\
                Forall (fun a => exists keyOffset w,
                          windowAt memory (keySize k) keyOffset w /\ a = askOf k w) new).
  { intros k [v Hv].
    destruct (searchPatterns_Done k ctx memory (patternsOf k e) 0%nat e v Hv)
      as (key & ok & e' & Hrun & Hext & Hfound).
    exists key, ok, e'. split; [exact Hrun |].
    assert (Hres : (ok = false /\ key = ""%string) \/
                   (ok = true /\ exists keyOffset w,
                      windowAt memory (keySize k) keyOffset w /\ key = EncodeToString w)).
    { destruct Hfound as [Hnone | (Hok & w & Hkey & (keyOffset & Hwin) & _)];
        [left; exact Hnone | right].
      split; [exact Hok |]. exists keyOffset, w. split; assumption. }
    split; [exact Hres |]. split.
    - intros Hshort. destruct Hres as [[Hok _] | (_ & keyOffset & w & Hwin & _)];
        [exact Hok |].
      destruct Hwin as (H0 & H1 & _). lia.
    - destruct Hext as (_ & _ & _ & _ & _ & (new & Hasked & Hnew) & _).
      exists new. split; [exact Hasked |].
      eapply Forall_impl; [exact Hnew |]. cbn beta.
      intros a (w & Ha & (keyOffset & Hwin) & _). exists keyOffset, w.
      split; assumption. }
  destruct (Hsafe DataKey) as [H1 H2]. destruct (Hsafe ImgKey) as [H3 H4].
  split; [exact H1 |]. split; [exact H2 |]. split; [exact H3 |]. split; [exact H4 |].
  intros Hv. split; [exact (Hboth DataKey Hv) | exact (Hboth ImgKey Hv)].
Qed.

(** C6.  [SearchKey] rejects every window that contains two consecutive
    zero bytes: whatever the chunk and the context, the call returns, it
    adds the hex string of no such window to [processedDataKeys], it hands
    no such window to the validator, and it returns no such window. *)
Theorem SearchKey_rejects_zero_pair (ctx : Context) (memory : list byte)
    (e : V4Extractor) (v : Validator) (w : list byte) :
  validator e = Some v ->
  hasZeroPair w ->
  exists key ok e',
    SearchKey ctx memory e = Done (key, ok, e') /\
    (EncodeToString w ∈ processedDataKeys e' ->
     EncodeToString w ∈ processedDataKeys e) /\
    (exists new, asked e' = new ++ asked e /\ (AskValidate w ∉ new)) /\
    (ok = true -> key <> EncodeToString w).
Proof.
  intros Hv Hpair.
  destruct (searchPatterns_Done DataKey ctx memory (dataKeyPatterns e) 0%nat e v Hv)
    as (key & ok & e' & Hrun & Hext & Hfound).
  exists key, ok, e'. split; [exact Hrun |].
  destruct Hext as (_ & _ & _ & _ & _ & (new & Hasked & Hnew) & Hstored).
  split; [| split].
  - intros Hin. destruct (Hstored _ Hin) as [Hold | (w' & Hhex & Hcand)]; [exact Hold |].
    apply EncodeToString_inj in Hhex. subst w'.
    exfalso. exact (candidate_no_zero_pair _ _ _ Hcand Hpair).
  - exists new. split; [exact Hasked |]. intros Hin.
    rewrite Forall_forall in Hnew. destruct (Hnew _ Hin) as (w' & Heq & Hcand).
    injection Heq as <-. exact (candidate_no_zero_pair _ _ _ Hcand Hpair).
  - intros Hok Hkey. destruct Hfound as [[Hno _] | (_ & w' & Hhex & Hcand)]; [congruence |].
    rewrite Hkey in Hhex. apply EncodeToString_inj in Hhex. subst w'.
    exact (candidate_no_zero_pair _ _ _ Hcand Hpair).
Qed.

(** ** [SearchAllDerivedKeys] as a scan over windows *)

Lemma zeroCount_zeroBytes (w : list byte) : zeroCount w = zeroBytes w.
Proof.
  unfold zeroBytes, len. induction w as [|b w IH]; [reflexivity |].
  cbn [zeroCount List.filter]. rewrite IH.
  destruct (Byte.eqb b x00); cbn [length]; lia.
Qed.

Lemma examine_Done (w : list byte) (count : Z) (e : V4Extractor) (v : Validator) :
  validator e = Some v ->
  examine w count e = Done (examineWindow w count e) /\
  is_Some (validator (examineWindow w count e).2).
Proof.
  intros Hv. unfold examine, examineWindow. rewrite zeroCount_zeroBytes.
  destruct (24 <? zeroBytes w); [split; [reflexivity | cbn [snd]; rewrite Hv; eauto] |].
  destruct (decide (EncodeToString w ∈ processedDerivedKeys e));
    [split; [reflexivity | cbn [snd]; rewrite Hv; eauto] |].
  unfold theValidator. cbn [validator set_processedDerivedKeys]. rewrite Hv.
  cbn [andThen]. destruct (ValidateDerivedKey v w) as [[|] v']; cbn [fst snd];
    (split; [reflexivity | eauto]).
Qed.

Lemma elem_of_windowOffsets (chunk : list byte) (offset : Z) :
  offset ∈ windowOffsets chunk <->
  0 <= offset /\ offset mod 8 = 0 /\ offset + 32 <= len chunk.
Proof.
  unfold windowOffsets. rewrite list_elem_of_fmap. split.
  - intros (n & -> & Hn). apply elem_of_seq in Hn.
    assert (Hpos : 0 < (len chunk - 32) / 8 + 1) by lia.
    pose proof (Z.mul_div_le (len chunk - 32) 8 ltac:(lia)).
    split; [lia |]. split; [| lia].
    rewrite Z.mul_comm. apply Z.mod_mul. lia.
  - intros (H0 & Hmod & Hfit). exists (Z.to_nat (offset / 8)). split.
    + rewrite Z2Nat.id by (apply Z.div_pos; lia).
      apply Z.div_exact in Hmod; lia.
    + apply elem_of_seq. split; [lia |].
      assert (offset / 8 <= (len chunk - 32) / 8) by (apply Z.div_le_mono; lia).
      assert (0 <= offset / 8) by (apply Z.div_pos; lia). lia.
Qed.

Lemma derivedLoop_scanPolled ctx memory (m : nat) :
  forall (n fuel : nat) (polls : nat) (count : Z) (e : V4Extractor),
    is_Some (validator e) ->
    (n + m)%nat = Z.to_nat ((len memory - 32) / 8 + 1) ->
    len memory < Z.of_nat fuel + 8 * Z.of_nat n ->
    derivedLoop fuel ctx polls memory (8 * Z.of_nat n) count e =
    Done (scanPolled ctx polls memory
            ((fun n => 8 * Z.of_nat n) <$> seq n m) count e).
Proof.
  pose proof (len_nonneg memory) as Hlen.
  pose proof (Z.mul_div_le (len memory - 32) 8 ltac:(lia)) as Hdiv.
  pose proof (Z.mul_succ_div_gt (len memory - 32) 8 ltac:(lia)) as Hdiv'.
  induction m as [|m IH]; intros n fuel polls count e [v Hv] Hn Hfuel.
  - assert (Hend : len memory < 8 * Z.of_nat n + 32) by lia.
    destruct fuel as [|fuel]; [lia |].
    cbn [derivedLoop seq fmap list_fmap scanPolled].
    rewrite (proj2 (Z.ltb_lt _ _) Hend). reflexivity.
  - assert (Hfit : 8 * Z.of_nat n + 32 <= len memory) by lia.
    destruct fuel as [|fuel]; [lia |].
    cbn [derivedLoop seq fmap list_fmap scanPolled].
    rewrite (proj2 (Z.ltb_ge _ _) Hfit).
    unfold pollPoint, theValidator, allFound. rewrite Hv.
    change (8 * 1024) with 8192.
    assert (Hbody : forall polls',
              (do keyData <- slice memory (8 * Z.of_nat n) (8 * Z.of_nat n + 32);
               do '(count0, e0) <- examine keyData count e;
               derivedLoop fuel ctx polls' memory (8 * Z.of_nat n + 8) count0 e0) =
              Done (let '(count0, e0) :=
                      examineWindow (window32 memory (8 * Z.of_nat n)) count e in
                    scanPolled ctx polls' memory
                      ((fun n => 8 * Z.of_nat n) <$> seq (S n) m) count0 e0)).
    { intros polls'. rewrite slice_Done by lia. cbn [andThen].
      replace (8 * Z.of_nat n + 32 - 8 * Z.of_nat n) with 32 by lia.
      change (take (Z.to_nat 32) (drop (Z.to_nat (8 * Z.of_nat n)) memory))
        with (window32 memory (8 * Z.of_nat n)).
      destruct (examine_Done (window32 memory (8 * Z.of_nat n)) count e v Hv)
        as [Hex Hsome].
      rewrite Hex. cbn [andThen].
      destruct (examineWindow (window32 memory (8 * Z.of_nat n)) count e)
        as [count0 e0].
      replace (8 * Z.of_nat n + 8) with (8 * Z.of_nat (S n)) by lia.
      apply IH; [exact Hsome | lia | lia]. }
    destruct (8 * Z.of_nat n mod 8192 =? 0).
    + destruct (ctx polls); [reflexivity |]. cbn [andThen orb].
      destruct (AllDerivedKeysFound v); [reflexivity |]. apply Hbody.
    + cbn [andThen]. apply Hbody.
Qed.

Lemma SearchAllDerivedKeys_scanPolled ctx memory e :
  is_Some (validator e) ->
  SearchAllDerivedKeys ctx memory e =
  Done (scanPolled ctx 0 memory (windowOffsets memory) 0 e).
Proof.
  intros Hv. unfold SearchAllDerivedKeys, windowOffsets.
  pose proof (len_nonneg memory) as Hlen.
  destruct (len memory <? 32) eqn:Eshort.
  - apply Z.ltb_lt in Eshort.
    assert (Hnone : (len memory - 32) / 8 + 1 <= 0).
    { assert ((len memory - 32) / 8 < 0) by (apply Z.div_lt_upper_bound; lia). lia. }
    replace (Z.to_nat ((len memory - 32) / 8 + 1)) with 0%nat by lia.
    reflexivity.
  - apply (derivedLoop_scanPolled ctx memory _ 0 (S (length memory)) 0 0 e Hv);
      [reflexivity | unfold len; lia].
Qed.

Lemma scanPolled_never ctx chunk (offsets : list Z) :
  (forall n, ctx n = false) ->
  forall polls count e,
    scanPolled ctx polls chunk offsets count e = scanWindows chunk offsets count e.
Proof.
  intros Hctx. induction offsets as [|offset offsets IH]; intros polls count e;
    [reflexivity |].
  cbn [scanPolled scanWindows]. rewrite Hctx. cbn [orb].
  destruct (offset mod 8192 =? 0); cbn [andb].
  - destruct (allFound e); [reflexivity |].
    destruct (examineWindow _ count e). apply IH.
  - destruct (examineWindow _ count e). apply IH.
Qed.

(** *** Running the scan again *)

Lemma examineWindow_settles (w : list byte) (count : Z) (e : V4Extractor) :
  is_Some (validator e) ->
  is_Some (validator (examineWindow w count e).2) /\
  processedDerivedKeys e ⊆ processedDerivedKeys (examineWindow w count e).2 /\
  (24 < zeroBytes w \/
   EncodeToString w ∈ processedDerivedKeys (examineWindow w count e).2).
Proof.
  intros [v Hv]. unfold examineWindow.
  destruct (24 <? zeroBytes w) eqn:Ez.
  { apply Z.ltb_lt in Ez. cbn [snd]. rewrite Hv. eauto. }
  destruct (decide (EncodeToString w ∈ processedDerivedKeys e)) as [Hin|Hnin].
  { cbn [snd]. rewrite Hv. eauto. }
  rewrite Hv. cbn [snd validator processedDerivedKeys].
  split; [eauto |]. split; [set_solver | right; set_solver].
Qed.

Lemma examineWindow_idle (w : list byte) (count : Z) (e : V4Extractor) :
  24 < zeroBytes w \/ EncodeToString w ∈ processedDerivedKeys e ->
  examineWindow w count e = (count, e).
Proof.
  intros [Hz | Hin]; unfold examineWindow.
  - rewrite (proj2 (Z.ltb_lt _ _) Hz). reflexivity.
  - destruct (24 <? zeroBytes w); [reflexivity |].
    destruct (decide (EncodeToString w ∈ processedDerivedKeys e)); [reflexivity |].
    contradiction.
Qed.

(** After a scan that no cancellation cut short, all derived keys are
    found or nothing is left to validate in the chunk. *)
Lemma scanWindows_settles chunk (offsets : list Z) :
  forall count e,
    is_Some (validator e) ->
    is_Some (validator (scanWindows chunk offsets count e).2) /\
    processedDerivedKeys e ⊆ processedDerivedKeys (scanWindows chunk offsets count e).2 /\
    (allFound (scanWindows chunk offsets count e).2 = true \/
     settled chunk offsets (scanWindows chunk offsets count e).2).
Proof.
  induction offsets as [|offset offsets IH]; intros count e Hv.
  - cbn [scanWindows snd]. split; [exact Hv |]. split; [reflexivity |].
    right. constructor.
  - cbn [scanWindows].
    destruct ((offset mod 8192 =? 0) && allFound e) eqn:Estop.
    + apply andb_true_iff in Estop as [_ Hall]. cbn [snd].
      split; [exact Hv |]. split; [reflexivity | left; exact Hall].
    + destruct (examineWindow_settles (window32 chunk offset) count e Hv)
        as (Hv1 & Hsub1 & Hhead).
      destruct (examineWindow (window32 chunk offset) count e) as [count1 e1].
      cbn [snd] in Hv1, Hsub1, Hhead.
      destruct (IH count1 e1 Hv1) as (Hv' & Hsub' & Hrest).
      split; [exact Hv' |]. split; [etrans; eassumption |].
      destruct Hrest as [Hall | Hrest]; [left; exact Hall | right].
      constructor; [| exact Hrest].
      destruct Hhead as [Hz | Hin]; [left; exact Hz | right; apply Hsub', Hin].
Qed.

Lemma scanPolled_settled ctx chunk (offsets : list Z) :
  forall polls count e,
    settled chunk offsets e ->
    scanPolled ctx polls chunk offsets count e = (count, e).
Proof.
  induction offsets as [|offset offsets IH]; intros polls count e Hs; [reflexivity |].
  apply Forall_cons in Hs as [Hhead Hrest].
  cbn [scanPolled]. rewrite (examineWindow_idle _ count e Hhead).
  destruct (offset mod 8192 =? 0); [| apply IH, Hrest].
  destruct (ctx polls || allFound e); [reflexivity | apply IH, Hrest].
Qed.

Lemma scanPolled_allFound ctx chunk count e :
  allFound e = true ->
  scanPolled ctx 0 chunk (windowOffsets chunk) count e = (count, e).
Proof.
  intros Hall. unfold windowOffsets.
  destruct (Z.to_nat ((len chunk - 32) / 8 + 1)) as [|n]; [reflexivity |].
  cbn [seq fmap list_fmap scanPolled]. change (8 * Z.of_nat 0 mod 8192 =? 0) with true.
  cbn iota. rewrite Hall, orb_true_r. reflexivity.
Qed.

(** C4, as the code has it.  On every chunk (one shorter than 32 bytes has
    no window), under a context that is not cancelled and with a validator
    set,
    [SearchAllDerivedKeys] goes in increasing order through the 32-byte
    windows at the offsets that are multiples of 8 and fit in the chunk,
    and it stops in front of an offset that is a multiple of 8192 if
    [AllDerivedKeysFound] holds there.  A window it reaches is skipped if
    it holds more than 24 zero bytes, is not validated again if its hex
    string is in [processedDerivedKeys], and is otherwise handed to
    [ValidateDerivedKey] and, if it validates, stored as its hex string in
    [foundDerivedKeys]. *)
Theorem SearchAllDerivedKeys_scan (ctx : Context) (memory : list byte)
    (e : V4Extractor) (v : Validator) :
  validator e = Some v ->
  (forall n, ctx n = false) ->
  SearchAllDerivedKeys ctx memory e =
    Done (scanWindows memory (windowOffsets memory) 0 e) /\
  (forall offset,
     offset ∈ windowOffsets memory <->
     0 <= offset /\ offset mod 8 = 0 /\ offset + 32 <= len memory).
Proof.
  intros Hv Hctx. split; [| apply elem_of_windowOffsets].
  rewrite SearchAllDerivedKeys_scanPolled by (rewrite Hv; eauto).
  rewrite (scanPolled_never ctx memory _ Hctx). reflexivity.
Qed.

Lemma SearchAllDerivedKeys_scan_witness :
  SearchAllDerivedKeys background derivedChunk sampleExtractor =
    Done (scanWindows derivedChunk (windowOffsets derivedChunk) 0 sampleExtractor) /\
  (forall offset,
     offset ∈ windowOffsets derivedChunk <->
     0 <= offset /\ offset mod 8 = 0 /\ offset + 32 <= len derivedChunk).
Proof.
  apply (SearchAllDerivedKeys_scan background derivedChunk sampleExtractor sampleValidator).
  - reflexivity.
  - intros n. reflexivity.
Defined.

(** C4 as stated fails: the two derived keys lie in the first 8 KiB of
    [longChunk], so at offset 8192 all derived keys are found and the scan
    returns; the window at offset 8192 fits in the chunk, holds no zero
    byte and was never processed, yet it is neither handed to the validator
    nor recorded. *)
Lemma SearchAllDerivedKeys_leaves_window_out :
  32 <= len longChunk /\
  windowAt longChunk 32 8192 lastWindow /\
  8192 mod 8 = 0 /\
  zeroBytes lastWindow = 0 /\
  (EncodeToString lastWindow ∉ processedDerivedKeys sampleExtractor) /\
  exists count e',
    SearchAllDerivedKeys background longChunk sampleExtractor = Done (count, e') /\
    (AskValidateDerivedKey lastWindow ∉ asked e') /\
    (EncodeToString lastWindow ∉ processedDerivedKeys e').
Proof.
  split; [vm_compute; discriminate |].
  split; [repeat split; vm_compute; try discriminate; reflexivity |].
  split; [reflexivity |]. split; [reflexivity |].
  split; [apply not_elem_of_empty |].
  assert (H : match SearchAllDerivedKeys background longChunk sampleExtractor with
              | Done (_, e') =>
                  bool_decide (AskValidateDerivedKey lastWindow ∉ asked e') &&
                  bool_decide (EncodeToString lastWindow ∉ processedDerivedKeys e')
              | _ => false
              end = true) by (vm_compute; reflexivity).
  destruct (SearchAllDerivedKeys background longChunk sampleExtractor)
    as [[count e']| | |]; [| discriminate | discriminate | discriminate].
  apply andb_true_iff in H as [H1 H2]. apply bool_decide_eq_true in H1, H2.
  exists count, e'. split; [reflexivity |]. split; assumption.
Qed.

(** The scan under any context ends in one of three ways: a poll found
    the context cancelled, all derived keys are found, or nothing is left
    to validate at the windows. *)
Lemma scanPolled_settles ctx chunk (offsets : list Z) :
  forall polls count e,
    is_Some (validator e) ->
    is_Some (validator (scanPolled ctx polls chunk offsets count e).2) /\
    processedDerivedKeys e ⊆
      processedDerivedKeys (scanPolled ctx polls chunk offsets count e).2 /\
    ((exists n, ctx n = true) \/
     allFound (scanPolled ctx polls chunk offsets count e).2 = true \/
     settled chunk offsets (scanPolled ctx polls chunk offsets count e).2).
Proof.
  induction offsets as [|offset offsets IH]; intros polls count e Hv.
  - cbn [scanPolled snd]. split; [exact Hv |]. split; [reflexivity |].
    right. right. constructor.
  - cbn [scanPolled].
    destruct (examineWindow_settles (window32 chunk offset) count e Hv)
      as (Hv1 & Hsub1 & Hhead).
    destruct (examineWindow (window32 chunk offset) count e) as [count1 e1].
    cbn [snd] in Hv1, Hsub1, Hhead.
    assert (Hgo : forall polls',
              is_Some (validator (scanPolled ctx polls' chunk offsets count1 e1).2) /\
              processedDerivedKeys e ⊆
                processedDerivedKeys (scanPolled ctx polls' chunk offsets count1 e1).2 /\
              ((exists n, ctx n = true) \/
               allFound (scanPolled ctx polls' chunk offsets count1 e1).2 = true \/
               settled chunk (offset :: offsets)
                 (scanPolled ctx polls' chunk offsets count1 e1).2)).
    { intros polls'. destruct (IH polls' count1 e1 Hv1) as (Hv' & Hsub' & Hrest).
      split; [exact Hv' |]. split; [etrans; eassumption |].
      destruct Hrest as [Hc | [Hall | Hrest]]; [left; exact Hc | right; left; exact Hall |].
      right. right. constructor; [| exact Hrest].
      destruct Hhead as [Hz | Hin]; [left; exact Hz | right; apply Hsub', Hin]. }
    destruct (offset mod 8192 =? 0); [| apply Hgo].
    destruct (ctx polls) eqn:Ectx; cbn [orb].
    + cbn [snd]. split; [exact Hv |]. split; [reflexivity |].
      left. exists polls. exact Ectx.
    + destruct (allFound e) eqn:Eall; [| apply Hgo].
      cbn [snd]. split; [exact Hv |]. split; [reflexivity |].
      right. left. exact Eall.
Qed.

Lemma scanPolled_cancelled ctx chunk count e :
  ctx 0%nat = true ->
  scanPolled ctx 0 chunk (windowOffsets chunk) count e = (count, e).
Proof.
  intros Hctx. unfold windowOffsets.
  destruct (Z.to_nat ((len chunk - 32) / 8 + 1)) as [|n]; [reflexivity |].
  cbn [seq fmap list_fmap scanPolled]. change (8 * Z.of_nat 0 mod 8192 =? 0) with true.
  cbn iota. rewrite Hctx. reflexivity.
Qed.

(** C8.  [SearchAllDerivedKeys] is idempotent.  With a validator set, run
    it on a chunk, and run it a second time on the same chunk with the same
    extractor and the same context: a context that a poll of the first run
    found cancelled is found cancelled by the first poll of the second.
    The second run returns 0 and leaves the extractor as the first run left
    it: [foundDerivedKeys] is the same set and nothing is handed to
    [ValidateDerivedKey].  It finds nothing to validate because the context
    is cancelled, or all derived keys are found, or every window holds
    more than 24 zero bytes or has its hex string in
    [processedDerivedKeys]. *)
Theorem SearchAllDerivedKeys_again (ctx1 ctx2 : Context) (memory : list byte)
    (e : V4Extractor) (v : Validator) :
  validator e = Some v ->
  (forall n, ctx1 n = true -> ctx2 0%nat = true) ->
  exists count1 e1,
    SearchAllDerivedKeys ctx1 memory e = Done (count1, e1) /\
    SearchAllDerivedKeys ctx2 memory e1 = Done (0, e1) /\
    (forall count2 e2,
       SearchAllDerivedKeys ctx2 memory e1 = Done (count2, e2) ->
       foundDerivedKeys e2 = foundDerivedKeys e1 /\ asked e2 = asked e1) /\
    (ctx2 0%nat = true \/ allFound e1 = true \/
     settled memory (windowOffsets memory) e1).
Proof.
  intros Hv Hsame.
  assert (Hsome : is_Some (validator e)) by (rewrite Hv; eauto).
  rewrite (SearchAllDerivedKeys_scanPolled ctx1 memory e Hsome).
  destruct (scanPolled_settles ctx1 memory (windowOffsets memory) 0%nat 0 e Hsome)
    as (Hsome1 & _ & Hdone).
  destruct (scanPolled ctx1 0 memory (windowOffsets memory) 0 e) as [count1 e1].
  cbn [snd] in Hsome1, Hdone.
  assert (Hwhy : ctx2 0%nat = true \/ allFound e1 = true \/
                 settled memory (windowOffsets memory) e1).
  { destruct Hdone as [[n Hn] | [Hall | Hsettled]];
      [left; apply (Hsame n Hn) | right; left; exact Hall | right; right; exact Hsettled]. }
  assert (Hsecond : SearchAllDerivedKeys ctx2 memory e1 = Done (0, e1)).
  { rewrite (SearchAllDerivedKeys_scanPolled ctx2 memory e1 Hsome1). f_equal.
    destruct Hwhy as [Hc | [Hall | Hsettled]].
    - apply scanPolled_cancelled, Hc.
    - apply scanPolled_allFound, Hall.
    - apply scanPolled_settled, Hsettled. }
  exists count1, e1. split; [reflexivity |]. split; [exact Hsecond |].
  split; [| exact Hwhy].
  intros count2 e2 Hrun. rewrite Hsecond in Hrun. injection Hrun as <- <-.
  split; reflexivity.
Qed.

Lemma SearchAllDerivedKeys_again_witness :
  exists count1 e1,
    SearchAllDerivedKeys background derivedChunk sampleExtractor = Done (count1, e1) /\
    SearchAllDerivedKeys background derivedChunk e1 = Done (0, e1) /\
    (forall count2 e2,
       SearchAllDerivedKeys background derivedChunk e1 = Done (count2, e2) ->
       foundDerivedKeys e2 = foundDerivedKeys e1 /\ asked e2 = asked e1) /\
    (background 0%nat = true \/ allFound e1 = true \/
     settled derivedChunk (windowOffsets derivedChunk) e1).
Proof.
  apply (SearchAllDerivedKeys_again background background derivedChunk
           sampleExtractor sampleValidator eq_refl).
  intros n Hn. discriminate Hn.
Defined.

(** Witnesses for the pattern searches. *)
Lemma SearchKey_SearchImgKey_total_witness :
  (exists key ok e', SearchKey background rawKeyChunk sampleExtractor = Done (key, ok, e')) /\
  (exists key ok e', SearchImgKey background rawKeyChunk sampleExtractor = Done (key, ok, e')).
Proof.
  destruct (SearchKey_SearchImgKey_total background rawKeyChunk sampleExtractor)
    as (_ & _ & _ & _ & Hdone).
  destruct (Hdone (ex_intro _ sampleValidator eq_refl))
    as [(key & ok & e' & H & _) (key' & ok' & e'' & H' & _)].
  split; [exists key, ok, e'; exact H | exists key', ok', e''; exact H'].
Defined.

Lemma SearchKey_rejects_zero_pair_witness :
  exists key ok e',
    SearchKey background zeroPairChunk sampleExtractor = Done (key, ok, e') /\
    (EncodeToString zeroPairWindow ∈ processedDataKeys e' ->
     EncodeToString zeroPairWindow ∈ processedDataKeys sampleExtractor) /\
    (exists new, asked e' = new ++ asked sampleExtractor /\
                 (AskValidate zeroPairWindow ∉ new)) /\
    (ok = true -> key <> EncodeToString zeroPairWindow).
Proof.
  apply (SearchKey_rejects_zero_pair background zeroPairChunk sampleExtractor
           sampleValidator zeroPairWindow).
  - reflexivity.
  - exists 1%nat. split; reflexivity.
Defined.

(** ** Examples *)

(** The raw key 16 bytes after the start of the FTS5 pattern is found by
    [SearchKey], through [Validate]. *)
Example SearchKey_finds_raw_key :
  match SearchKey background rawKeyChunk sampleExtractor with
  | Done (key, ok, e') =>
      key = EncodeToString messageKey /\ ok = true /\
      asked e' = [AskValidate messageKey]
  | _ => False
  end.
Proof. vm_compute. repeat split. Qed.

(** The window with two zero bytes in a row is not even recorded. *)
Example SearchKey_skips_zero_pair :
  match SearchKey background zeroPairChunk sampleExtractor with
  | Done (key, ok, e') =>
      key = ""%string /\ ok = false /\ asked e' = [] /\ processedDataKeys e' = ∅
  | _ => False
  end.
Proof. vm_compute. repeat split. Qed.

(** A derived key at an offset that is a multiple of 8 and not of 16. *)
Example SearchAllDerivedKeys_finds_key_at_8 :
  match SearchAllDerivedKeys background (repeat x55 8 ++ sessionKey) sampleExtractor with
  | Done (count, e') =>
      count = 1 /\ elements (foundDerivedKeys e') = [EncodeToString sessionKey]
  | _ => False
  end.
Proof. vm_compute. repeat split. Qed.

(** A chunk of zero bytes and a chunk shorter than 32 bytes give no
    candidate. *)
Example SearchAllDerivedKeys_zero_chunk :
  SearchAllDerivedKeys background (repeat x00 64) sampleExtractor =
  Done (0, sampleExtractor).
Proof. vm_compute. reflexivity. Qed.

Example SearchAllDerivedKeys_short_chunk :
  SearchAllDerivedKeys background (repeat x55 31) sampleExtractor =
  Done (0, sampleExtractor).
Proof. reflexivity. Qed.

(** [bytes.LastIndexFunc] works on runes: after the two-byte rune C3 A9 it
    answers the index of the byte C3. *)
Example LastIndexFunc_rune :
  LastIndexFunc [x01; xc3; xa9; x00; x00] (fun r => negb (r =? 0)) = 1.
Proof. reflexivity. Qed.

(** Both derived keys found, and a raw key published: the data key is the
    list of derived keys. *)
Example Extract_prefers_derived_keys :
  Extract elements StatusOnline true sampleExtractor [Result "aa" ""]
    {[ "17"%string; "33"%string ]} =
  ("derived:17,33"%string, ""%string, None) \/
  Extract elements StatusOnline true sampleExtractor [Result "aa" ""]
    {[ "17"%string; "33"%string ]} =
  ("derived:33,17"%string, ""%string, None).
Proof. vm_compute. auto. Qed.

(** A raw key and an image key: [Extract] cancels and returns both at
    once, whatever [foundDerivedKeys] holds. *)
Example Extract_returns_early :
  Extract elements StatusOnline true sampleExtractor
    [Result "aa" ""; Result "" "bb"; Result "cc" ""] {[ "33"%string ]} =
  ("aa"%string, "bb"%string, None).
Proof. reflexivity. Qed.

Example Extract_validator_not_set :
  Extract elements StatusOnline true NewV4Extractor [] ∅ =
  (""%string, ""%string, Some ErrValidatorNotSet).
Proof. reflexivity. Qed.

(** Without [SetValidate] the first candidate of a pattern search
    dereferences the nil validator; a chunk without candidate is searched
    to the end. *)
Example SearchKey_without_validator :
  SearchKey background rawKeyChunk NewV4Extractor = NilPanic /\
  SearchKey background zeroPairChunk NewV4Extractor = Done (""%string, false, NewV4Extractor).
Proof. split; vm_compute; reflexivity. Qed.

(** * Further properties *)

(** ** Pattern searches: what is asked, recorded and returned *)

Lemma V4Extractor_eq (e e' : V4Extractor) :
  validator e' = validator e ->
  dataKeyPatterns e' = dataKeyPatterns e ->
  derivedKeyPatterns e' = derivedKeyPatterns e ->
  imgKeyPatterns e' = imgKeyPatterns e ->
  processedDataKeys e' = processedDataKeys e ->
  processedDerivedKeys e' = processedDerivedKeys e ->
  processedImgKeys e' = processedImgKeys e ->
  foundDerivedKeys e' = foundDerivedKeys e ->
  asked e' = asked e ->
  e' = e.
Proof. destruct e, e'; cbn; intros; subst; reflexivity. Qed.

Lemma advanced_refl k memory e : advanced k memory [] e e.
Proof.
  unfold advanced. repeat split; try reflexivity.
  - cbn. set_solver.
  - constructor.
  - constructor.
Qed.

Lemma advanced_trans k memory ws1 ws2 e1 e2 e3 :
  advanced k memory ws1 e1 e2 -> advanced k memory ws2 e2 e3 ->
  advanced k memory (ws2 ++ ws1) e1 e3.
Proof.
  intros (Hv1 & Hd1 & Hr1 & Hi1 & Hf1 & Hp1 & Ho1 & Ha1 & Hs1 & Hn1 & Hc1)
         (Hv2 & Hd2 & Hr2 & Hi2 & Hf2 & Hp2 & Ho2 & Ha2 & Hs2 & Hn2 & Hc2).
  unfold advanced. repeat split; try congruence.
  - rewrite Ha2, Ha1, fmap_app, app_assoc. reflexivity.
  - rewrite Hs2, Hs1, fmap_app, list_to_set_app_L. set_solver.
  - apply NoDup_app. split; [exact Hn2 |]. split; [| exact Hn1].
    intros w Hw2 Hw1. rewrite Forall_forall in Hc2.
    destruct (Hc2 w Hw2) as [_ Hnew]. apply Hnew. rewrite Hs1.
    apply elem_of_union_l, elem_of_list_to_set, list_elem_of_fmap.
    exists w. split; [reflexivity | exact Hw1].
  - apply Forall_app. split; [| exact Hc1].
    eapply Forall_impl; [exact Hc2 |]. cbn beta. intros w [Hcand Hnew].
    split; [exact Hcand |]. intros Hin. apply Hnew. rewrite Hs1. set_solver.
Qed.

Lemma tryOffsets_advanced k memory index v (offsets : list Z) :
  forall e r e',
    validator e = Some v ->
    tryOffsets k memory index offsets e = Done (r, e') ->
    exists ws,
      advanced k memory ws e e' /\
      match r with
      | Some keyHex => answered k v ws keyHex true
      | None => Forall (fun w => validateOf k v w = false) ws
      end.
Proof.
  induction offsets as [|offset offsets IH]; intros e r e' Hv Hrun.
  - cbn [tryOffsets] in Hrun. injection Hrun as <- <-.
    exists []. split; [apply advanced_refl | constructor].
  - cbn [tryOffsets] in Hrun. cbv zeta in Hrun.
    destruct ((index + offset <? 0) || (len memory <? index + offset + keySize k)) eqn:Eguard;
      [eapply IH; eassumption |].
    apply orb_false_iff in Eguard as [Elo Ehi].
    apply Z.ltb_ge in Elo, Ehi.
    assert (Hsize : 0 <= keySize k) by (destruct k; cbn; lia).
    rewrite slice_Done in Hrun by lia. cbn [andThen] in Hrun.
    replace (index + offset + keySize k - (index + offset)) with (keySize k) in Hrun by lia.
    set (w := take (Z.to_nat (keySize k)) (drop (Z.to_nat (index + offset)) memory)) in *.
    destruct (Contains w [x00; x00]) eqn:Ezero; [eapply IH; eassumption |].
    assert (Hw : candidate k memory w).
    { split; [| exact Ezero]. exists (index + offset). repeat split; [lia | lia]. }
    unfold loadOrStoreProcessed in Hrun.
    destruct (decide (EncodeToString w ∈ processedOf k e)) as [Hin|Hnin];
      [eapply IH; eassumption |].
    set (e1 := match k with
               | DataKey => set_processedDataKeys ({[EncodeToString w]} ∪ processedDataKeys e) e
               | ImgKey => set_processedImgKeys ({[EncodeToString w]} ∪ processedImgKeys e) e
               end) in *.
    assert (Hv1 : validator e1 = Some v) by (subst e1; destruct k; exact Hv).
    destruct (askValidator_Done k w e1 v Hv1) as [ok Hask].
    assert (Hok : ok = validateOf k v w).
    { unfold askValidator, theValidator in Hask. rewrite Hv1 in Hask. cbn [andThen] in Hask.
      destruct k; injection Hask as <-; reflexivity. }
    rewrite Hask in Hrun. cbn [andThen] in Hrun.
    set (e2 := set_asked (askOf k w :: asked e1) e1) in *.
    assert (Hstep : advanced k memory [w] e e2).
    { unfold advanced. subst e2 e1.
      destruct k; cbn; (repeat split; try reflexivity);
        try (apply NoDup_singleton);
        try (constructor; [split; assumption | constructor]);
        set_solver. }
    destruct ok.
    + injection Hrun as <- <-. exists [w]. split; [exact Hstep |].
      unfold answered. exists w, []. repeat split; [congruence | constructor].
    + assert (Hv2 : validator e2 = Some v) by exact Hv1.
      destruct (IH e2 r e' Hv2 Hrun) as (ws & Hadv & Hans).
      exists (ws ++ [w]). split; [eapply advanced_trans; eassumption |].
      destruct r as [keyHex|].
      * unfold answered in *. destruct Hans as (w0 & ws' & -> & Hkey & Hacc & Hrej).
        exists w0, (ws' ++ [w]). repeat split; try assumption.
        apply Forall_app. split; [exact Hrej |]. constructor; [congruence | constructor].
      * apply Forall_app. split; [exact Hans |]. constructor; [congruence | constructor].
Qed.

Lemma patternLoop_advanced k ctx memory keyPattern v (fuel : nat) :
  forall index polls e how polls' e',
    validator e = Some v ->
    patternLoop fuel k ctx polls memory keyPattern index e = Done (how, polls', e') ->
    exists ws,
      advanced k memory ws e e' /\
      match how with
      | Returns key ok => answered k v ws key ok
      | Breaks => Forall (fun w => validateOf k v w = false) ws
      end.
Proof.
  induction fuel as [|fuel IH]; intros index polls e how polls' e' Hv Hrun;
    [discriminate |].
  cbn [patternLoop] in Hrun.
  assert (Hnone : forall e0, e0 = e ->
            exists ws, advanced k memory ws e e0 /\
                       Forall (fun w => validateOf k v w = false) ws).
  { intros e0 ->. exists []. split; [apply advanced_refl | constructor]. }
  destruct (ctx polls).
  { injection Hrun as <- <- <-. exists []. split; [apply advanced_refl |].
    split; [reflexivity | constructor]. }
  destruct (slice memory 0 index) as [head| | |]; try discriminate.
  cbn [andThen] in Hrun.
  destruct (LastIndex head (Pattern keyPattern) =? -1).
  { injection Hrun as <- <- <-. apply Hnone. reflexivity. }
  destruct (zeroPattern k (Pattern keyPattern)).
  - destruct (slice memory 0 (LastIndex head (Pattern keyPattern))) as [head'| | |];
      try discriminate.
    cbn [andThen] in Hrun.
    destruct (LastIndexFunc head' (fun r => negb (r =? 0)) =? -1); cbn [andThen] in Hrun.
    { injection Hrun as <- <- <-. apply Hnone. reflexivity. }
    destruct (tryOffsets k memory _ (Offsets keyPattern) e) as [[r e1]| | |] eqn:Etry;
      try discriminate.
    cbn [andThen] in Hrun.
    destruct (tryOffsets_advanced k memory _ v _ e r e1 Hv Etry) as (ws1 & Hadv1 & Hans1).
    destruct r as [keyHex|].
    { injection Hrun as <- <- <-. exists ws1. split; assumption. }
    destruct (_ - 1 <? 0).
    { injection Hrun as <- <- <-. exists ws1. split; assumption. }
    assert (Hv1 : validator e1 = Some v) by (destruct Hadv1 as (-> & _); exact Hv).
    destruct (IH _ _ e1 how polls' e' Hv1 Hrun) as (ws2 & Hadv2 & Hans2).
    exists (ws2 ++ ws1). split; [eapply advanced_trans; eassumption |].
    destruct how as [key [|]|].
    + destruct Hans2 as (w0 & ws' & -> & Hkey & Hacc & Hrej).
      exists w0, (ws' ++ ws1). repeat split; try assumption.
      apply Forall_app. split; assumption.
    + destruct Hans2 as [Hkey Hrej]. split; [exact Hkey |].
      apply Forall_app. split; assumption.
    + apply Forall_app. split; assumption.
  - cbn [andThen] in Hrun.
    destruct (tryOffsets k memory _ (Offsets keyPattern) e) as [[r e1]| | |] eqn:Etry;
      try discriminate.
    cbn [andThen] in Hrun.
    destruct (tryOffsets_advanced k memory _ v _ e r e1 Hv Etry) as (ws1 & Hadv1 & Hans1).
    destruct r as [keyHex|].
    { injection Hrun as <- <- <-. exists ws1. split; assumption. }
    destruct (_ - 1 <? 0).
    { injection Hrun as <- <- <-. exists ws1. split; assumption. }
    assert (Hv1 : validator e1 = Some v) by (destruct Hadv1 as (-> & _); exact Hv).
    destruct (IH _ _ e1 how polls' e' Hv1 Hrun) as (ws2 & Hadv2 & Hans2).
    exists (ws2 ++ ws1). split; [eapply advanced_trans; eassumption |].
    destruct how as [key [|]|].
    + destruct Hans2 as (w0 & ws' & -> & Hkey & Hacc & Hrej).
      exists w0, (ws' ++ ws1). repeat split; try assumption.
      apply Forall_app. split; assumption.
    + destruct Hans2 as [Hkey Hrej]. split; [exact Hkey |].
      apply Forall_app. split; assumption.
    + apply Forall_app. split; assumption.
Qed.

Lemma searchPatterns_advanced k ctx memory v (patterns : list KeyPatternInfo) :
  forall polls e key ok e',
    validator e = Some v ->
    searchPatterns k ctx polls memory patterns e = Done (key, ok, e') ->
    exists ws, advanced k memory ws e e' /\ answered k v ws key ok.
Proof.
  induction patterns as [|keyPattern patterns IH]; intros polls e key ok e' Hv Hrun.
  - cbn [searchPatterns] in Hrun. injection Hrun as <- <- <-.
    exists []. split; [apply advanced_refl |]. split; [reflexivity | constructor].
  - cbn [searchPatterns] in Hrun.
    destruct (patternLoop _ k ctx polls memory keyPattern _ e)
      as [[[how polls1] e1]| | |] eqn:Eloop; try discriminate.
    cbn [andThen] in Hrun.
    destruct (patternLoop_advanced k ctx memory keyPattern v _ _ _ e how polls1 e1 Hv Eloop)
      as (ws1 & Hadv1 & Hans1).
    destruct how as [key1 ok1|].
    + injection Hrun as <- <- <-. exists ws1. split; assumption.
    + assert (Hv1 : validator e1 = Some v) by (destruct Hadv1 as (-> & _); exact Hv).
      destruct (IH polls1 e1 key ok e' Hv1 Hrun) as (ws2 & Hadv2 & Hans2).
      exists (ws2 ++ ws1). split; [eapply advanced_trans; eassumption |].
      destruct ok.
      * destruct Hans2 as (w0 & ws' & -> & Hkey & Hacc & Hrej).
        exists w0, (ws' ++ ws1). repeat split; try assumption.
        apply Forall_app. split; assumption.
      * destruct Hans2 as [Hkey Hrej]. split; [exact Hkey |].
        apply Forall_app. split; assumption.
Qed.

(** A pattern search with a validator set: it returns, and [advanced] and
    [answered] tell what it did. *)
Lemma search_advanced k ctx memory e v :
  validator e = Some v ->
  exists key ok e' ws,
    searchPatterns k ctx 0 memory (patternsOf k e) e = Done (key, ok, e') /\
    advanced k memory ws e e' /\ answered k v ws key ok.
Proof.
  intros Hv.
  destruct (searchPatterns_Done k ctx memory (patternsOf k e) 0%nat e v Hv)
    as (key & ok & e' & Hrun & _).
  destruct (searchPatterns_advanced k ctx memory v _ _ e key ok e' Hv Hrun)
    as (ws & Hadv & Hans).
  exists key, ok, e', ws. split; [exact Hrun |]. split; assumption.
Qed.

(** X1.  With a validator set, [SearchKey] returns a key only when
    [Validate] accepted the window whose hex string the key is, and that
    window is the last one it asked about; every other window it handed to
    the validator in this call was rejected.  [SearchImgKey] does the same
    with [ValidateImgKey]. *)
Theorem search_returns_accepted (ctx : Context) (memory : list byte)
    (e : V4Extractor) (v : Validator) :
  validator e = Some v ->
  (exists key ok e' ws,
     SearchKey ctx memory e = Done (key, ok, e') /\
     asked e' = (AskValidate <$> ws) ++ asked e /\
     if ok then
       exists w ws', ws = w :: ws' /\ key = EncodeToString w /\
                     Validate v w = true /\
                     Forall (fun w' => Validate v w' = false) ws'
     else key = ""%string /\ Forall (fun w' => Validate v w' = false) ws) /\
  (exists key ok e' ws,
     SearchImgKey ctx memory e = Done (key, ok, e') /\
     asked e' = (AskValidateImgKey <$> ws) ++ asked e /\
     if ok then
       exists w ws', ws = w :: ws' /\ key = EncodeToString w /\
                     ValidateImgKey v w = true /\
                     Forall (fun w' => ValidateImgKey v w' = false) ws'
     else key = ""%string /\ Forall (fun w' => ValidateImgKey v w' = false) ws).
Proof.
  intros Hv. split.
  - destruct (search_advanced DataKey ctx memory e v Hv)
      as (key & ok & e' & ws & Hrun & Hadv & Hans).
    exists key, ok, e', ws. split; [exact Hrun |].
    destruct Hadv as (_ & _ & _ & _ & _ & _ & _ & Hasked & _).
    split; [exact Hasked | exact Hans].
  - destruct (search_advanced ImgKey ctx memory e v Hv)
      as (key & ok & e' & ws & Hrun & Hadv & Hans).
    exists key, ok, e', ws. split; [exact Hrun |].
    destruct Hadv as (_ & _ & _ & _ & _ & _ & _ & Hasked & _).
    split; [exact Hasked | exact Hans].
Qed.

Lemma search_returns_accepted_witness :
  exists key ok e' ws,
    SearchKey background rawKeyChunk sampleExtractor = Done (key, ok, e') /\
    asked e' = (AskValidate <$> ws) ++ asked sampleExtractor /\
    if ok then
      exists w ws', ws = w :: ws' /\ key = EncodeToString w /\
                    Validate sampleValidator w = true /\
                    Forall (fun w' => Validate sampleValidator w' = false) ws'
    else key = ""%string /\ Forall (fun w' => Validate sampleValidator w' = false) ws.
Proof.
  exact (proj1 (search_returns_accepted background rawKeyChunk sampleExtractor
                  sampleValidator eq_refl)).
Defined.

(** X2.  With a validator set, a pattern search hands no window to the
    validator twice: the windows it asks about in one call are pairwise
    distinct and none of them had its hex string among the processed keys;
    afterwards the processed keys of its kind are those of before and the
    hex strings of the windows asked about, so no later call asks about
    them again.  The other maps of the extractor are left alone. *)
Theorem search_asks_once (ctx : Context) (memory : list byte)
    (e : V4Extractor) (v : Validator) :
  validator e = Some v ->
  (exists key ok e' ws,
     SearchKey ctx memory e = Done (key, ok, e') /\
     asked e' = (AskValidate <$> ws) ++ asked e /\
     NoDup ws /\
     Forall (fun w => EncodeToString w ∉ processedDataKeys e) ws /\
     processedDataKeys e' = list_to_set (EncodeToString <$> ws) ∪ processedDataKeys e /\
     processedImgKeys e' = processedImgKeys e /\
     processedDerivedKeys e' = processedDerivedKeys e /\
     foundDerivedKeys e' = foundDerivedKeys e /\
     validator e' = validator e) /\
  (exists key ok e' ws,
     SearchImgKey ctx memory e = Done (key, ok, e') /\
     asked e' = (AskValidateImgKey <$> ws) ++ asked e /\
     NoDup ws /\
     Forall (fun w => EncodeToString w ∉ processedImgKeys e) ws /\
     processedImgKeys e' = list_to_set (EncodeToString <$> ws) ∪ processedImgKeys e /\
     processedDataKeys e' = processedDataKeys e /\
     processedDerivedKeys e' = processedDerivedKeys e /\
     foundDerivedKeys e' = foundDerivedKeys e /\
     validator e' = validator e).
Proof.
  intros Hv. split.
  - destruct (search_advanced DataKey ctx memory e v Hv)
      as (key & ok & e' & ws & Hrun & Hadv & _).
    exists key, ok, e', ws. split; [exact Hrun |].
    destruct Hadv as (Hval & _ & _ & _ & Hfound & Hder & Hother & Hasked & Hproc & Hnd & Hnew).
    repeat split; try assumption.
    eapply Forall_impl; [exact Hnew |]. cbn beta. intros w [_ H]. exact H.
  - destruct (search_advanced ImgKey ctx memory e v Hv)
      as (key & ok & e' & ws & Hrun & Hadv & _).
    exists key, ok, e', ws. split; [exact Hrun |].
    destruct Hadv as (Hval & _ & _ & _ & Hfound & Hder & Hother & Hasked & Hproc & Hnd & Hnew).
    repeat split; try assumption.
    eapply Forall_impl; [exact Hnew |]. cbn beta. intros w [_ H]. exact H.
Qed.

Lemma search_asks_once_witness :
  exists key ok e' ws,
    SearchKey background rawKeyChunk sampleExtractor = Done (key, ok, e') /\
    asked e' = (AskValidate <$> ws) ++ asked sampleExtractor /\
    NoDup ws.
Proof.
  destruct (search_asks_once background rawKeyChunk sampleExtractor sampleValidator eq_refl)
    as [(key & ok & e' & ws & Hrun & Hasked & Hnd & _) _].
  exists key, ok, e', ws. split; [exact Hrun |]. split; assumption.
Defined.

Lemma ValidateDerivedKey_imgKeyValidator v key :
  imgKeyValidator (ValidateDerivedKey v key).2 = imgKeyValidator v.
Proof.
  destruct (Decryptor_ValidateDerivedKey (decryptor v)) as [dv|] eqn:Hdv.
  - rewrite (ValidateDerivedKey_testRun dv key v Hdv). unfold testRun.
    destruct (List.find _ _); cbn [snd]; [| reflexivity].
    unfold markMatched. destruct (decide _); reflexivity.
  - unfold ValidateDerivedKey. rewrite Hdv. reflexivity.
Qed.

Lemma validateAll_imgKeyValidator keys :
  forall v, imgKeyValidator (validateAll v keys) = imgKeyValidator v.
Proof.
  induction keys as [|key keys IH]; intros v; [reflexivity |].
  cbn [validateAll]. rewrite IH. apply ValidateDerivedKey_imgKeyValidator.
Qed.

(** X3.  A validator built for a version other than 4 has no image-key
    validator, so it rejects every image key, and [SearchImgKey] with such
    a validator returns [("", false)] on every chunk. *)
Theorem SearchImgKey_without_image_validator (ctx : Context) (memory : list byte)
    (e : V4Extractor) (platform_ : string) (version_ : Z) (dbPath_ : string)
    (dec : Decryptor) (d : DBFile) (img : list byte -> bool) (walked : list DBFile)
    (keys : list (list byte)) :
  version_ <> 4 ->
  validator e =
    Some (validateAll (NewValidatorWithFile platform_ version_ dbPath_ dec d img walked)
            keys) ->
  (forall key, ValidateImgKey
                 (validateAll
                    (NewValidatorWithFile platform_ version_ dbPath_ dec d img walked) keys)
                 key = false) /\
  exists e', SearchImgKey ctx memory e = Done (""%string, false, e').
Proof.
  intros Hversion Hv.
  set (v := validateAll _ keys) in *.
  assert (Himg : imgKeyValidator v = None).
  { subst v. rewrite validateAll_imgKeyValidator. unfold NewValidatorWithFile.
    destruct (version_ =? 4) eqn:E; [apply Z.eqb_eq in E; contradiction |].
    reflexivity. }
  assert (Hreject : forall key, ValidateImgKey v key = false).
  { intros key. unfold ValidateImgKey. rewrite Himg. reflexivity. }
  split; [exact Hreject |].
  destruct (search_advanced ImgKey ctx memory e v Hv)
    as (key & ok & e' & ws & Hrun & _ & Hans).
  exists e'. unfold SearchImgKey. change (imgKeyPatterns e) with (patternsOf ImgKey e).
  rewrite Hrun. destruct ok.
  - destruct Hans as (w & ws' & _ & _ & Hacc & _). cbn [validateOf] in Hacc.
    rewrite Hreject in Hacc. discriminate.
  - destruct Hans as [-> _]. reflexivity.
Qed.

Lemma SearchImgKey_without_image_validator_witness :
  exists e', SearchImgKey background rawKeyChunk sampleV3Extractor =
             Done (""%string, false, e').
Proof.
  refine (proj2 (SearchImgKey_without_image_validator background rawKeyChunk
                   sampleV3Extractor "darwin" 3 "Message/msg_0.db" sampleV3Decryptor
                   messageDB (fun _ => false) [] [] _ eq_refl)).
  discriminate.
Defined.

(** X4.  If the first poll of the context finds it cancelled, [SearchKey]
    and [SearchImgKey] return [("", false)] at once and leave the extractor
    as it was, whatever the chunk holds and whether or not a validator is
    set. *)
Theorem search_cancelled (ctx : Context) (memory : list byte) (e : V4Extractor) :
  ctx 0%nat = true ->
  SearchKey ctx memory e = Done (""%string, false, e) /\
  SearchImgKey ctx memory e = Done (""%string, false, e).
Proof.
  intros Hctx.
  assert (H : forall k patterns,
            searchPatterns k ctx 0 memory patterns e = Done (""%string, false, e)).
  { intros k [|keyPattern patterns]; [reflexivity |].
    cbn [searchPatterns patternLoop]. rewrite Hctx. reflexivity. }
  split; apply H.
Qed.

Lemma search_cancelled_witness :
  SearchKey cancelledContext rawKeyChunk sampleExtractor =
    Done (""%string, false, sampleExtractor) /\
  SearchImgKey cancelledContext rawKeyChunk sampleExtractor =
    Done (""%string, false, sampleExtractor).
Proof.
  apply (search_cancelled cancelledContext rawKeyChunk sampleExtractor). reflexivity.
Defined.

(** ** Chunks of zero bytes *)

Lemma zeroBytes_all_zero (w : list byte) :
  Forall (fun b => b = x00) w -> zeroBytes w = len w.
Proof.
  unfold zeroBytes, len. induction 1 as [|b w -> _ IH]; [reflexivity |].
  cbn [List.filter Byte.eqb]. change (Byte.eqb x00 x00) with true. cbn iota.
  cbn [length]. lia.
Qed.

Lemma all_zero_window (memory : list byte) (n off : nat) :
  Forall (fun b => b = x00) memory ->
  Forall (fun b => b = x00) (take n (drop off memory)).
Proof. intros H. apply Forall_take, Forall_drop, H. Qed.

Lemma all_zero_pair (w : list byte) :
  Forall (fun b => b = x00) w -> (2 <= length w)%nat -> hasZeroPair w.
Proof.
  intros H Hlen. destruct w as [|a [|b w]]; cbn [length] in Hlen; try lia.
  apply Forall_cons in H as [-> H]. apply Forall_cons in H as [-> _].
  exists 0%nat. split; reflexivity.
Qed.

Lemma all_zero_no_candidate k (memory w : list byte) :
  Forall (fun b => b = x00) memory -> ~ candidate k memory w.
Proof.
  intros Hzero [(keyOffset & H0 & Hfit & ->) Hno].
  assert (Hpair : hasZeroPair (take (Z.to_nat (keySize k))
                                 (drop (Z.to_nat keyOffset) memory))).
  { apply all_zero_pair; [apply all_zero_window, Hzero |].
    rewrite length_take, length_drop. unfold len in Hfit.
    destruct k; cbn [keySize] in *; lia. }
  apply Contains_zero_pair in Hpair. congruence.
Qed.

Lemma search_all_zero k ctx memory e v :
  validator e = Some v ->
  Forall (fun b => b = x00) memory ->
  searchPatterns k ctx 0 memory (patternsOf k e) e = Done (""%string, false, e).
Proof.
  intros Hv Hzero.
  destruct (search_advanced k ctx memory e v Hv)
    as (key & ok & e' & ws & Hrun & Hadv & Hans).
  rewrite Hrun.
  destruct Hadv as (Hval & Hd & Hr & Hi & Hfound & Hder & Hother & Hasked & Hproc & _ & Hnew).
  assert (ws = []) as ->.
  { destruct ws as [|w ws]; [reflexivity |]. apply Forall_cons in Hnew as [[Hcand _] _].
    exfalso. exact (all_zero_no_candidate k memory w Hzero Hcand). }
  cbn [fmap list_fmap app list_to_set] in Hasked, Hproc.
  rewrite union_empty_l_L in Hproc.
  assert (e' = e) as ->.
  { destruct k; cbn [processedOf otherProcessed] in *; apply V4Extractor_eq; assumption. }
  destruct ok.
  - destruct Hans as (w & ws' & [=] & _).
  - destruct Hans as [-> _]. reflexivity.
Qed.

(** X5.  A chunk of zero bytes, of any length, gives no candidate: with a
    validator set, the derived-key scan and both pattern searches hand
    nothing to the validator and return no key, and they leave the
    extractor as it was. *)
Theorem searches_on_zero_chunk (ctx : Context) (memory : list byte)
    (e : V4Extractor) (v : Validator) :
  validator e = Some v ->
  Forall (fun b => b = x00) memory ->
  SearchAllDerivedKeys ctx memory e = Done (0, e) /\
  SearchKey ctx memory e = Done (""%string, false, e) /\
  SearchImgKey ctx memory e = Done (""%string, false, e).
Proof.
  intros Hv Hzero. split; [| split].
  - rewrite SearchAllDerivedKeys_scanPolled by (rewrite Hv; eauto). f_equal.
    apply scanPolled_settled. unfold settled. apply Forall_forall.
    intros offset Hin. left. apply elem_of_windowOffsets in Hin as (H0 & _ & Hfit).
    unfold window32. rewrite zeroBytes_all_zero by (apply all_zero_window, Hzero).
    unfold len in *. rewrite length_take, length_drop. lia.
  - apply (search_all_zero DataKey ctx memory e v Hv Hzero).
  - apply (search_all_zero ImgKey ctx memory e v Hv Hzero).
Qed.

Lemma searches_on_zero_chunk_witness :
  SearchAllDerivedKeys background zeroChunk sampleExtractor = Done (0, sampleExtractor) /\
  SearchKey background zeroChunk sampleExtractor = Done (""%string, false, sampleExtractor) /\
  SearchImgKey background zeroChunk sampleExtractor =
    Done (""%string, false, sampleExtractor).
Proof.
  apply (searches_on_zero_chunk background zeroChunk sampleExtractor sampleValidator).
  - reflexivity.
  - apply Forall_forall. intros b Hb. apply list_elem_of_In in Hb.
    exact (repeat_spec _ _ _ Hb).
Defined.

(** ** The derived-key scan: what is validated, recorded and counted *)

Lemma validateAll_app keys1 : forall v keys2,
  validateAll v (keys1 ++ keys2) = validateAll (validateAll v keys1) keys2.
Proof.
  induction keys1 as [|key keys1 IH]; intros v keys2; [reflexivity |].
  cbn [app validateAll]. apply IH.
Qed.

Lemma acceptedOf_app keys1 : forall v keys2,
  acceptedOf v (keys1 ++ keys2) =
  acceptedOf v keys1 ++ acceptedOf (validateAll v keys1) keys2.
Proof.
  induction keys1 as [|key keys1 IH]; intros v keys2; [reflexivity |].
  cbn [app acceptedOf validateAll]. rewrite IH, app_assoc. reflexivity.
Qed.

Lemma scanned_refl chunk v count e :
  validator e = Some v -> scanned chunk v [] count e count e.
Proof.
  intros Hv. unfold scanned. cbn [rev validateAll acceptedOf fmap list_fmap app].
  repeat split; try reflexivity; try assumption.
  - cbn. set_solver.
  - cbn. set_solver.
  - unfold len. cbn. lia.
  - constructor.
  - constructor.
Qed.

Lemma scanned_trans chunk v ws1 ws2 c1 c2 c3 e1 e2 e3 :
  scanned chunk v ws1 c1 e1 c2 e2 ->
  scanned chunk (validateAll v (rev ws1)) ws2 c2 e2 c3 e3 ->
  scanned chunk v (ws2 ++ ws1) c1 e1 c3 e3.
Proof.
  intros (Hv1 & Hd1 & Hr1 & Hi1 & Hpd1 & Hpi1 & Ha1 & Hs1 & Hf1 & Hc1 & Hn1 & Hw1)
         (Hv2 & Hd2 & Hr2 & Hi2 & Hpd2 & Hpi2 & Ha2 & Hs2 & Hf2 & Hc2 & Hn2 & Hw2).
  unfold scanned. rewrite rev_app_distr, validateAll_app, acceptedOf_app.
  repeat split; try congruence.
  - rewrite Ha2, Ha1, fmap_app, app_assoc. reflexivity.
  - rewrite Hs2, Hs1, fmap_app, list_to_set_app_L. set_solver.
  - rewrite Hf2, Hf1, fmap_app, list_to_set_app_L. set_solver.
  - rewrite Hc2, Hc1. unfold len. rewrite length_app. lia.
  - apply NoDup_app. split; [exact Hn2 |]. split; [| exact Hn1].
    intros w Hw2' Hw1'. rewrite Forall_forall in Hw2.
    destruct (Hw2 w Hw2') as (_ & _ & Hnew). apply Hnew. rewrite Hs1.
    apply elem_of_union_l, elem_of_list_to_set, list_elem_of_fmap.
    exists w. split; [reflexivity | exact Hw1'].
  - apply Forall_app. split; [| exact Hw1].
    eapply Forall_impl; [exact Hw2 |]. cbn beta. intros w (Hwin & Hz & Hnew).
    split; [exact Hwin |]. split; [exact Hz |].
    intros Hin. apply Hnew. rewrite Hs1. set_solver.
Qed.

Lemma examineWindow_scanned chunk v offset count e :
  validator e = Some v ->
  offset ∈ windowOffsets chunk ->
  exists ws,
    scanned chunk v ws count e
      (examineWindow (window32 chunk offset) count e).1
      (examineWindow (window32 chunk offset) count e).2.
Proof.
  intros Hv Hoff. unfold examineWindow.
  set (w := window32 chunk offset).
  destruct (24 <? zeroBytes w) eqn:Ez;
    [exists []; apply scanned_refl, Hv |].
  apply Z.ltb_ge in Ez.
  destruct (decide (EncodeToString w ∈ processedDerivedKeys e)) as [Hin|Hnin];
    [exists []; apply scanned_refl, Hv |].
  rewrite Hv. exists [w]. unfold scanned.
  cbn [fst snd rev app validateAll acceptedOf fmap list_fmap validator dataKeyPatterns
       derivedKeyPatterns imgKeyPatterns processedDataKeys processedImgKeys asked
       processedDerivedKeys foundDerivedKeys].
  rewrite app_nil_r.
  repeat split; try reflexivity.
  - cbn. set_solver.
  - destruct (ValidateDerivedKey v w).1; cbn; set_solver.
  - destruct (ValidateDerivedKey v w).1; unfold len; cbn; lia.
  - apply NoDup_singleton.
  - constructor; [| constructor]. split; [exists offset; split; [exact Hoff | reflexivity] |].
    split; [exact Ez | exact Hnin].
Qed.

Lemma scanPolled_scanned ctx chunk (offsets : list Z) :
  forall polls count e v,
    validator e = Some v ->
    Forall (fun offset => offset ∈ windowOffsets chunk) offsets ->
    exists ws,
      scanned chunk v ws count e
        (scanPolled ctx polls chunk offsets count e).1
        (scanPolled ctx polls chunk offsets count e).2.
Proof.
  induction offsets as [|offset offsets IH]; intros polls count e v Hv Hoffs.
  - exists []. apply scanned_refl, Hv.
  - apply Forall_cons in Hoffs as [Hoff Hoffs].
    assert (Hstep : forall polls',
              exists ws,
                scanned chunk v ws count e
                  (let '(count0, e0) := examineWindow (window32 chunk offset) count e in
                   scanPolled ctx polls' chunk offsets count0 e0).1
                  (let '(count0, e0) := examineWindow (window32 chunk offset) count e in
                   scanPolled ctx polls' chunk offsets count0 e0).2).
    { intros polls'.
      destruct (examineWindow_scanned chunk v offset count e Hv Hoff) as (ws1 & Hs1).
      destruct (examineWindow (window32 chunk offset) count e) as [count1 e1].
      cbn [fst snd] in Hs1.
      destruct (IH polls' count1 e1 (validateAll v (rev ws1)) (proj1 Hs1) Hoffs)
        as (ws2 & Hs2).
      exists (ws2 ++ ws1). eapply scanned_trans; eassumption. }
    cbn [scanPolled].
    destruct (offset mod 8192 =? 0); [| apply Hstep].
    destruct (ctx polls || allFound e); [| apply Hstep].
    exists []. apply scanned_refl, Hv.
Qed.

(** The derived-key scan with a validator set: it returns, and [scanned]
    tells what it did. *)
Lemma SearchAllDerivedKeys_scanned ctx memory e v :
  validator e = Some v ->
  exists count e' ws,
    SearchAllDerivedKeys ctx memory e = Done (count, e') /\
    scanned memory v ws 0 e count e'.
Proof.
  intros Hv.
  rewrite SearchAllDerivedKeys_scanPolled by (rewrite Hv; eauto).
  destruct (scanPolled_scanned ctx memory (windowOffsets memory) 0%nat 0 e v Hv)
    as (ws & Hs); [apply Forall_forall; auto |].
  destruct (scanPolled ctx 0 memory (windowOffsets memory) 0 e) as [count e'].
  exists count, e', ws. split; [reflexivity | exact Hs].
Qed.

(** *** Sequences of validator calls *)

Lemma indexed_lookup {A} (l : list A) : forall i j x,
  In (j, x) (indexed i l) -> i <= j /\ l !! Z.to_nat (j - i) = Some x.
Proof.
  induction l as [|y l IH]; intros i j x Hin; [destruct Hin |].
  cbn [indexed] in Hin. destruct Hin as [[= <- <-] | Hin].
  - split; [lia |]. rewrite Z.sub_diag. reflexivity.
  - apply IH in Hin as [Hle Hl]. split; [lia |].
    replace (Z.to_nat (j - i)) with (S (Z.to_nat (j - (i + 1)))) by lia. exact Hl.
Qed.

Lemma databases_pageOf v i page :
  In (i, page) (databases v) -> pageOf v i = Some page.
Proof.
  unfold databases, pageOf. intros [[= <- <-] | Hin]; [reflexivity |].
  apply indexed_lookup in Hin as [Hle Hl]. rewrite Z.sub_0_r in Hl.
  destruct (i =? -1) eqn:E1; [apply Z.eqb_eq in E1; lia |].
  destruct (i <? 0) eqn:E2; [apply Z.ltb_lt in E2; lia |].
  rewrite list_lookup_fmap in Hl. exact Hl.
Qed.

Lemma firstMatch_authenticates dv key v i :
  firstMatch dv key v = Some i ->
  exists page, pageOf v i = Some page /\ dv page key = true.
Proof.
  unfold firstMatch, unmatched.
  destruct (List.find _ _) as [[j page]|] eqn:Efind; [| discriminate].
  intros [= <-]. apply find_some in Efind as [Hin Hdv].
  apply filter_In in Hin as [Hdb _]. exists page.
  split; [apply databases_pageOf, Hdb | exact Hdv].
Qed.

Lemma ValidateDerivedKey_dbFile v key : dbFile (ValidateDerivedKey v key).2 = dbFile v.
Proof.
  destruct (Decryptor_ValidateDerivedKey (decryptor v)) as [dv|] eqn:Hdv.
  - rewrite (ValidateDerivedKey_testRun dv key v Hdv). unfold testRun.
    destruct (List.find _ _); cbn [snd]; [| reflexivity].
    unfold markMatched. destruct (decide _); reflexivity.
  - unfold ValidateDerivedKey. rewrite Hdv. reflexivity.
Qed.

Lemma pageOf_same v v' i :
  dbFile v' = dbFile v -> extraDBFiles v' = extraDBFiles v -> pageOf v' i = pageOf v i.
Proof. unfold pageOf. intros -> ->. reflexivity. Qed.

(** What one call changes, whatever the decryptor: the files and the
    decryptor stay, and marks are only added. *)
Lemma ValidateDerivedKey_keeps v key :
  dbFile (ValidateDerivedKey v key).2 = dbFile v /\
  extraDBFiles (ValidateDerivedKey v key).2 = extraDBFiles v /\
  decryptor (ValidateDerivedKey v key).2 = decryptor v /\
  totalDBCount (ValidateDerivedKey v key).2 = totalDBCount v /\
  matchedDBs v ⊆ matchedDBs (ValidateDerivedKey v key).2.
Proof.
  split; [apply ValidateDerivedKey_dbFile |].
  destruct (Decryptor_ValidateDerivedKey (decryptor v)) as [dv|] eqn:Hdv.
  - destruct (ValidateDerivedKey_alone v dv key Hdv) as (_ & Hfiles & Htotal & Hdec & Hmatch).
    repeat split; try assumption.
    destruct (firstMatch dv key v).
    + destruct Hmatch as (_ & _ & -> & _). set_solver.
    + destruct Hmatch as (_ & -> & _). reflexivity.
  - unfold ValidateDerivedKey. rewrite Hdv. cbn [snd]. repeat split; reflexivity.
Qed.

Lemma validateAll_keeps keys : forall v,
  dbFile (validateAll v keys) = dbFile v /\
  extraDBFiles (validateAll v keys) = extraDBFiles v /\
  decryptor (validateAll v keys) = decryptor v /\
  totalDBCount (validateAll v keys) = totalDBCount v /\
  matchedDBs v ⊆ matchedDBs (validateAll v keys).
Proof.
  induction keys as [|key keys IH]; intros v; [repeat split; reflexivity |].
  cbn [validateAll].
  destruct (IH (ValidateDerivedKey v key).2) as (H1 & H2 & H3 & H4 & H5).
  destruct (ValidateDerivedKey_keeps v key) as (K1 & K2 & K3 & K4 & K5).
  repeat split; try congruence. etrans; eassumption.
Qed.

(** Every accepted key authenticates the first page of a database that
    was unmatched and is matched after the calls. *)
Lemma acceptedOf_sound dv keys : forall v w,
  Decryptor_ValidateDerivedKey (decryptor v) = Some dv ->
  In w (acceptedOf v keys) ->
  exists i page,
    pageOf v i = Some page /\ dv page w = true /\
    (i ∉ matchedDBs v) /\ i ∈ matchedDBs (validateAll v keys).
Proof.
  induction keys as [|key keys IH]; intros v w Hdv Hin; [destruct Hin |].
  cbn [acceptedOf validateAll] in *.
  destruct (ValidateDerivedKey_keeps v key) as (K1 & K2 & K3 & _ & K5).
  destruct (validateAll_keeps keys (ValidateDerivedKey v key).2) as (_ & _ & _ & _ & M).
  apply in_app_or in Hin as [Hhead | Htail].
  - destruct (ValidateDerivedKey_alone v dv key Hdv) as (_ & _ & _ & _ & Hmatch).
    destruct (ValidateDerivedKey v key).1 eqn:Eok; [| destruct Hhead].
    destruct Hhead as [<- | []].
    pose proof (firstMatch_authenticates dv key v) as Hauth.
    destruct (firstMatch dv key v) as [i|].
    + destruct Hmatch as (_ & Hnin & Hm & _).
      destruct (Hauth i eq_refl) as (page & Hpage & Hok).
      exists i, page. repeat split; try assumption.
      apply M. rewrite Hm. set_solver.
    + destruct Hmatch as [Hfalse _]. congruence.
  - assert (Hdv' : Decryptor_ValidateDerivedKey (decryptor (ValidateDerivedKey v key).2)
                   = Some dv) by (rewrite K3; exact Hdv).
    destruct (IH _ w Hdv' Htail) as (i & page & Hpage & Hok & Hnin & Hin').
    exists i, page. rewrite (pageOf_same _ _ i K1 K2) in Hpage.
    repeat split; try assumption. intros Hold. apply Hnin, K5, Hold.
Qed.

Lemma acceptedOf_no_capability keys : forall v,
  Decryptor_ValidateDerivedKey (decryptor v) = None ->
  acceptedOf v keys = [] /\ validateAll v keys = v.
Proof.
  induction keys as [|key keys IH]; intros v Hdv; [split; reflexivity |].
  cbn [acceptedOf validateAll]. unfold ValidateDerivedKey. rewrite Hdv. cbn [fst snd app].
  apply IH, Hdv.
Qed.

(** On a consistent validator the counter goes up by one with every
    accepted key. *)
Lemma validateAll_counts keys : forall v,
  consistent v = true ->
  consistent (validateAll v keys) = true /\
  matchedCount (validateAll v keys) = matchedCount v + len (acceptedOf v keys).
Proof.
  induction keys as [|key keys IH]; intros v Hc.
  - split; [exact Hc |]. unfold len. cbn. lia.
  - cbn [validateAll acceptedOf].
    destruct (Decryptor_ValidateDerivedKey (decryptor v)) as [dv|] eqn:Hdv.
    + destruct (ValidateDerivedKey_consistent v dv key Hdv Hc) as [Hc' Hplus].
      destruct (ValidateDerivedKey_alone v dv key Hdv) as (_ & _ & _ & _ & Hmatch).
      destruct (IH _ Hc') as [Hc'' Hcount]. split; [exact Hc'' |].
      rewrite Hcount. unfold len. rewrite length_app.
      destruct (firstMatch dv key v) as [i|].
      * destruct Hmatch as (-> & _). rewrite (Hplus i eq_refl). cbn [length]. lia.
      * destruct Hmatch as (-> & _ & ->). cbn [length]. lia.
    + unfold ValidateDerivedKey. rewrite Hdv. cbn [fst snd app]. apply IH, Hc.
Qed.

Lemma acceptedOf_sublist keys : forall v, sublist (acceptedOf v keys) keys.
Proof.
  induction keys as [|key keys IH]; intros v; [constructor |].
  cbn [acceptedOf]. destruct (ValidateDerivedKey v key).1; cbn [app].
  - apply sublist_skip, IH.
  - apply sublist_cons, IH.
Qed.

(** *** The form of a hex string *)

Lemma hexchar_digits (b : byte) :
  isHexDigit (hexchar (N.shiftr (Byte.to_N b) 4)) &&
  isHexDigit (hexchar (N.land (Byte.to_N b) 0x0f)) = true.
Proof. destruct b; vm_compute; reflexivity. Qed.

Lemma EncodeToString_length (w : list byte) :
  String.length (EncodeToString w) = (2 * length w)%nat.
Proof.
  induction w as [|b w IH]; [reflexivity |].
  cbn [EncodeToString String.length length]. rewrite IH. lia.
Qed.

Lemma EncodeToString_hex (w : list byte) : allHexDigits (EncodeToString w) = true.
Proof.
  induction w as [|b w IH]; [reflexivity |].
  cbn [EncodeToString allHexDigits]. rewrite IH, andb_true_r.
  apply hexchar_digits.
Qed.

#[global] Instance EncodeToString_Inj : Inj (=) (=) EncodeToString.
Proof. intros w w'. apply EncodeToString_inj. Qed.

Lemma window32_length (chunk : list byte) (offset : Z) :
  offset ∈ windowOffsets chunk -> length (window32 chunk offset) = 32%nat.
Proof.
  intros Hin. apply elem_of_windowOffsets in Hin as (H0 & _ & Hfit).
  unfold window32, len in *. rewrite length_take, length_drop. lia.
Qed.

(** X6.  With a validator set, [SearchAllDerivedKeys] returns and only
    adds to its own maps.  If [ws] are the windows it handed to
    [ValidateDerivedKey] in this call (newest first), then no window was
    handed over twice and none had been processed before;
    [processedDerivedKeys] is the old set with the hex strings of [ws],
    [foundDerivedKeys] is the old set with the hex strings of the windows
    that were accepted, the count returned is the number of accepted
    windows, the validator is what these calls made of it, and the maps of
    the pattern searches are untouched. *)
Theorem SearchAllDerivedKeys_bookkeeping (ctx : Context) (memory : list byte)
    (e : V4Extractor) (v : Validator) :
  validator e = Some v ->
  exists count e' ws,
    SearchAllDerivedKeys ctx memory e = Done (count, e') /\
    asked e' = (AskValidateDerivedKey <$> ws) ++ asked e /\
    NoDup ws /\
    Forall (fun w => EncodeToString w ∉ processedDerivedKeys e) ws /\
    validator e' = Some (validateAll v (rev ws)) /\
    processedDerivedKeys e' =
      list_to_set (EncodeToString <$> ws) ∪ processedDerivedKeys e /\
    foundDerivedKeys e' =
      list_to_set (EncodeToString <$> acceptedOf v (rev ws)) ∪ foundDerivedKeys e /\
    count = len (acceptedOf v (rev ws)) /\
    processedDataKeys e' = processedDataKeys e /\
    processedImgKeys e' = processedImgKeys e.
Proof.
  intros Hv.
  destruct (SearchAllDerivedKeys_scanned ctx memory e v Hv) as (count & e' & ws & Hrun & Hs).
  destruct Hs as (Hv' & _ & _ & _ & Hpd & Hpi & Ha & Hp & Hf & Hc & Hn & Hw).
  exists count, e', ws.
  split; [exact Hrun |]. split; [exact Ha |]. split; [exact Hn |]. split.
  { eapply Forall_impl; [exact Hw |]. cbn beta. intros w (_ & _ & H). exact H. }
  split; [exact Hv' |]. split; [exact Hp |]. split; [exact Hf |].
  split; [lia |]. split; assumption.
Qed.

Lemma SearchAllDerivedKeys_bookkeeping_witness :
  exists count e' ws,
    SearchAllDerivedKeys background derivedChunk sampleExtractor = Done (count, e') /\
    asked e' = (AskValidateDerivedKey <$> ws) ++ asked sampleExtractor /\
    NoDup ws.
Proof.
  destruct (SearchAllDerivedKeys_bookkeeping background derivedChunk sampleExtractor
              sampleValidator eq_refl)
    as (count & e' & ws & Hrun & Hasked & Hnd & _).
  exists count, e', ws. split; [exact Hrun |]. split; assumption.
Defined.

(** X7.  [foundDerivedKeys] stays inside [processedDerivedKeys]: if every
    found key is a processed key before a scan, so it is afterwards, and
    then the count the scan returns is exactly the number of keys by which
    [foundDerivedKeys] has grown. *)
Theorem SearchAllDerivedKeys_count_is_growth (ctx : Context) (memory : list byte)
    (e : V4Extractor) (v : Validator) :
  validator e = Some v ->
  foundDerivedKeys e ⊆ processedDerivedKeys e ->
  exists count e',
    SearchAllDerivedKeys ctx memory e = Done (count, e') /\
    foundDerivedKeys e ⊆ foundDerivedKeys e' /\
    processedDerivedKeys e ⊆ processedDerivedKeys e' /\
    foundDerivedKeys e' ⊆ processedDerivedKeys e' /\
    Z.of_nat (size (foundDerivedKeys e')) = Z.of_nat (size (foundDerivedKeys e)) + count.
Proof.
  intros Hv Hinv.
  destruct (SearchAllDerivedKeys_scanned ctx memory e v Hv) as (count & e' & ws & Hrun & Hs).
  destruct Hs as (_ & _ & _ & _ & _ & _ & _ & Hp & Hf & Hc & Hn & Hw).
  exists count, e'. split; [exact Hrun |].
  pose proof (acceptedOf_sublist (rev ws) v) as Hsub.
  assert (Hacc : forall w, w ∈ acceptedOf v (rev ws) -> w ∈ ws).
  { intros w Hin. pose proof (elem_of_sublist _ _ _ Hin Hsub) as Hin'.
    apply list_elem_of_In, in_rev, list_elem_of_In, Hin'. }
  assert (Hnd : NoDup (acceptedOf v (rev ws))).
  { apply (sublist_NoDup _ (rev ws)); [| exact Hsub].
    rewrite <- (Permutation_rev ws). exact Hn. }
  split; [rewrite Hf; set_solver |]. split; [rewrite Hp; set_solver |]. split.
  - rewrite Hf, Hp. apply union_least; [| set_solver].
    intros h Hh. apply elem_of_list_to_set, list_elem_of_fmap in Hh as (w & -> & Hin).
    apply elem_of_union_l, elem_of_list_to_set, list_elem_of_fmap.
    exists w. split; [reflexivity | apply Hacc, Hin].
  - rewrite Hf, size_union.
    + rewrite size_list_to_set by (apply NoDup_fmap_2; [apply _ | exact Hnd]).
      rewrite length_fmap. unfold len in Hc. lia.
    + intros h Hh Hold. apply elem_of_list_to_set, list_elem_of_fmap in Hh as (w & -> & Hin).
      rewrite Forall_forall in Hw. destruct (Hw w (Hacc w Hin)) as (_ & _ & Hnew).
      apply Hnew, Hinv, Hold.
Qed.

Lemma SearchAllDerivedKeys_count_is_growth_witness :
  exists count e',
    SearchAllDerivedKeys background derivedChunk sampleExtractor = Done (count, e') /\
    Z.of_nat (size (foundDerivedKeys e')) =
      Z.of_nat (size (foundDerivedKeys sampleExtractor)) + count.
Proof.
  destruct (SearchAllDerivedKeys_count_is_growth background derivedChunk sampleExtractor
              sampleValidator eq_refl (empty_subseteq _))
    as (count & e' & Hrun & _ & _ & _ & Hsize).
  exists count, e'. split; assumption.
Defined.

(** X8.  Every key that a scan adds to [foundDerivedKeys] is the hex
    string, 64 lower-case hex digits long, of a 32-byte window of the chunk
    at an offset that is a multiple of 8, with at most 24 zero bytes, and
    this window authenticates the first page of a database of the validator
    that was unmatched before the scan and is matched after it. *)
Theorem SearchAllDerivedKeys_found_sound (ctx : Context) (memory : list byte)
    (e : V4Extractor) (v : Validator) (dv : list byte -> list byte -> bool) :
  validator e = Some v ->
  Decryptor_ValidateDerivedKey (decryptor v) = Some dv ->
  exists count e' v',
    SearchAllDerivedKeys ctx memory e = Done (count, e') /\
    validator e' = Some v' /\
    forall h, h ∈ foundDerivedKeys e' ->
      h ∈ foundDerivedKeys e \/
      exists w offset i page,
        h = EncodeToString w /\
        String.length h = 64%nat /\ allHexDigits h = true /\
        0 <= offset /\ offset mod 8 = 0 /\ offset + 32 <= len memory /\
        w = window32 memory offset /\ zeroBytes w <= 24 /\
        pageOf v i = Some page /\ dv page w = true /\
        (i ∉ matchedDBs v) /\ i ∈ matchedDBs v'.
Proof.
  intros Hv Hdv.
  destruct (SearchAllDerivedKeys_scanned ctx memory e v Hv) as (count & e' & ws & Hrun & Hs).
  destruct Hs as (Hv' & _ & _ & _ & _ & _ & _ & _ & Hf & _ & _ & Hw).
  exists count, e', (validateAll v (rev ws)). split; [exact Hrun |]. split; [exact Hv' |].
  intros h Hh. rewrite Hf in Hh. apply elem_of_union in Hh as [Hnew | Hold];
    [right | left; exact Hold].
  apply elem_of_list_to_set, list_elem_of_fmap in Hnew as (w & -> & Hin).
  apply list_elem_of_In in Hin.
  destruct (acceptedOf_sound dv (rev ws) v w Hdv Hin) as (i & page & Hpage & Hok & Hnin & Hmatched).
  assert (Hws : w ∈ ws).
  { apply list_elem_of_In, in_rev, list_elem_of_In.
    apply (elem_of_sublist (acceptedOf v (rev ws))); [| apply acceptedOf_sublist].
    apply list_elem_of_In, Hin. }
  rewrite Forall_forall in Hw. destruct (Hw w Hws) as ((offset & Hoff & Hwin) & Hz & _).
  pose proof (window32_length memory offset Hoff) as Hlen.
  apply elem_of_windowOffsets in Hoff as (H0 & Hmod & Hfit).
  exists w, offset, i, page. repeat split; try assumption.
  - rewrite EncodeToString_length, Hwin, Hlen. reflexivity.
  - apply EncodeToString_hex.
Qed.

Lemma SearchAllDerivedKeys_found_sound_witness :
  exists count e' v',
    SearchAllDerivedKeys background derivedChunk sampleExtractor = Done (count, e') /\
    validator e' = Some v'.
Proof.
  destruct (SearchAllDerivedKeys_found_sound background derivedChunk sampleExtractor
              sampleValidator samplePageTest eq_refl eq_refl)
    as (count & e' & v' & Hrun & Hv' & _).
  exists count, e', v'. split; assumption.
Defined.

(** X9.  On a validator with consistent bookkeeping, the count a scan
    returns is the amount by which [matchedCount] has grown, the
    bookkeeping is consistent afterwards, and so a scan never reports more
    derived keys than there were databases left to match. *)
Theorem SearchAllDerivedKeys_count_is_matched (ctx : Context) (memory : list byte)
    (e : V4Extractor) (v : Validator) :
  validator e = Some v ->
  consistent v = true ->
  exists count e' v',
    SearchAllDerivedKeys ctx memory e = Done (count, e') /\
    validator e' = Some v' /\
    consistent v' = true /\
    matchedCount v' = matchedCount v + count /\
    0 <= count <= len (extraDBFiles v) + 1 - matchedCount v.
Proof.
  intros Hv Hc.
  destruct (SearchAllDerivedKeys_scanned ctx memory e v Hv) as (count & e' & ws & Hrun & Hs).
  destruct Hs as (Hv' & _ & _ & _ & _ & _ & _ & _ & _ & Hcount & _).
  destruct (validateAll_counts (rev ws) v Hc) as [Hc' Hmc].
  destruct (validateAll_keeps (rev ws) v) as (_ & Hfiles & _).
  exists count, e', (validateAll v (rev ws)).
  split; [exact Hrun |]. split; [exact Hv' |]. split; [exact Hc' |].
  split; [lia |].
  apply consistent_spec in Hc' as (Hsub & Hsize & _).
  pose proof (size_matched_bound _ Hsub) as Hbound. rewrite Hfiles in Hbound.
  pose proof (len_nonneg (acceptedOf v (rev ws))). lia.
Qed.

Lemma SearchAllDerivedKeys_count_is_matched_witness :
  exists count e' v',
    SearchAllDerivedKeys background derivedChunk sampleExtractor = Done (count, e') /\
    validator e' = Some v' /\
    matchedCount v' = matchedCount sampleValidator + count.
Proof.
  destruct (SearchAllDerivedKeys_count_is_matched background derivedChunk sampleExtractor
              sampleValidator eq_refl eq_refl)
    as (count & e' & v' & Hrun & Hv' & _ & Hmc & _).
  exists count, e', v'. split; [exact Hrun |]. split; assumption.
Defined.

(** *** A validator that has matched all its databases *)

Lemma indexed_In {A} (l : list A) : forall i n x,
  l !! n = Some x -> In (i + Z.of_nat n, x) (indexed i l).
Proof.
  induction l as [|y l IH]; intros i n x Hl; [discriminate |].
  destruct n as [|n]; cbn [indexed].
  - injection Hl as ->. left. f_equal. lia.
  - right. replace (i + Z.of_nat (S n)) with (i + 1 + Z.of_nat n) by lia.
    apply IH, Hl.
Qed.

Lemma pageOf_databases v i page :
  pageOf v i = Some page -> In (i, page) (databases v).
Proof.
  unfold pageOf, databases.
  destruct (i =? -1) eqn:E1.
  - apply Z.eqb_eq in E1 as ->. intros [= <-]. left. reflexivity.
  - destruct (i <? 0) eqn:E2; [discriminate |]. apply Z.ltb_ge in E2.
    intros Hl. right. rewrite <- list_lookup_fmap in Hl.
    apply (indexed_In _ 0) in Hl. rewrite Z2Nat.id in Hl by lia. exact Hl.
Qed.

Lemma firstMatch_None dv key v :
  firstMatch dv key v = None ->
  forall i page, pageOf v i = Some page -> i ∉ matchedDBs v -> dv page key = false.
Proof.
  unfold firstMatch, unmatched.
  destruct (List.find _ _) as [d|] eqn:Efind; [discriminate |]. intros _ i page Hpage Hnin.
  apply (find_none _ _ Efind (i, page)), filter_In.
  split; [apply pageOf_databases, Hpage |].
  unfold unmatchedIn. cbn [fst]. rewrite bool_decide_eq_false_2 by exact Hnin. reflexivity.
Qed.

Lemma all_matched v :
  tracked v -> AllDerivedKeysFound v = true -> matchedDBs v = dbIndices v.
Proof.
  intros [Hc Hcases] Hall. apply consistent_spec in Hc as (Hsub & Hcount & Hbound).
  unfold AllDerivedKeysFound in Hall. apply andb_true_iff in Hall as [Hpos Hge].
  apply Z.ltb_lt in Hpos. apply Z.leb_le in Hge.
  destruct Hcases as [Htotal | (_ & Hzero & _)]; [| lia].
  rewrite int32_small in Hge by lia.
  apply set_subseteq_size_eq; [exact Hsub |].
  pose proof (size_dbIndices v). lia.
Qed.

Lemma filter_none {A} (f : A -> bool) (l : list A) :
  (forall x, In x l -> f x = false) -> List.filter f l = [].
Proof.
  induction l as [|x l IH]; intros H; [reflexivity |].
  cbn [List.filter]. rewrite (H x (or_introl eq_refl)).
  apply IH. intros y Hy. apply H. right. exact Hy.
Qed.

Lemma unmatched_nil v : matchedDBs v = dbIndices v -> unmatched v = [].
Proof.
  intros Hall. unfold unmatched. apply filter_none. intros [i page] Hin.
  unfold unmatchedIn. cbn [fst]. rewrite bool_decide_eq_true_2; [reflexivity |].
  rewrite Hall. eapply pageOf_Some, databases_pageOf, Hin.
Qed.

Lemma set_probed_same v : set_probed (probed v) v = v.
Proof. destruct v; reflexivity. Qed.

Lemma ValidateDerivedKey_none_left v key :
  unmatched v = [] -> ValidateDerivedKey v key = (false, v).
Proof.
  intros Hnil.
  destruct (Decryptor_ValidateDerivedKey (decryptor v)) as [dv|] eqn:Hdv.
  - rewrite (ValidateDerivedKey_testRun dv key v Hdv), Hnil. unfold testRun.
    cbn [upToFirst List.find fmap list_fmap rev app]. rewrite set_probed_same. reflexivity.
  - unfold ValidateDerivedKey. rewrite Hdv. reflexivity.
Qed.

(** X10.  Once [AllDerivedKeysFound] holds of a validator whose bookkeeping
    is in order (as it is after construction and any sequence of calls),
    [ValidateDerivedKey] rejects every key, runs no page test and leaves
    the validator as it is: no key is accepted beyond one per database,
    and [AllDerivedKeysFound] stays true. *)
Theorem ValidateDerivedKey_all_found (v : Validator) (keys : list (list byte)) :
  tracked v ->
  AllDerivedKeysFound v = true ->
  (forall key, ValidateDerivedKey v key = (false, v)) /\
  validateAll v keys = v /\
  acceptedOf v keys = [].
Proof.
  intros Ht Hall.
  assert (Hone : forall key, ValidateDerivedKey v key = (false, v)).
  { intros key. apply ValidateDerivedKey_none_left, unmatched_nil, all_matched; assumption. }
  split; [exact Hone |].
  induction keys as [|key keys [IH1 IH2]]; [split; reflexivity |].
  cbn [validateAll acceptedOf]. rewrite Hone. cbn [fst snd app]. split; assumption.
Qed.

Lemma tracked_sampleValidator : tracked sampleValidator.
Proof.
  apply tracked_new; [intros H; exfalso; apply H; reflexivity | vm_compute; reflexivity].
Qed.

Lemma ValidateDerivedKey_all_found_witness :
  (forall key, ValidateDerivedKey matchedValidator key = (false, matchedValidator)) /\
  validateAll matchedValidator [messageKey] = matchedValidator /\
  acceptedOf matchedValidator [messageKey] = [].
Proof.
  apply (ValidateDerivedKey_all_found matchedValidator [messageKey]).
  - apply tracked_validateAll, tracked_sampleValidator.
  - vm_compute. reflexivity.
Defined.

(** X11.  The same key is not counted twice: if a key authenticates the
    first page of at most one database of the validator, then a call of
    [ValidateDerivedKey] that follows a call with the same key returns
    false and leaves [matchedDBs] and [matchedCount] as the first call left
    them. *)
Theorem ValidateDerivedKey_same_key_again (v : Validator)
    (dv : list byte -> list byte -> bool) (key : list byte) :
  Decryptor_ValidateDerivedKey (decryptor v) = Some dv ->
  (forall i j pagei pagej,
     pageOf v i = Some pagei -> pageOf v j = Some pagej ->
     dv pagei key = true -> dv pagej key = true -> i = j) ->
  let v1 := (ValidateDerivedKey v key).2 in
  (ValidateDerivedKey v1 key).1 = false /\
  matchedDBs (ValidateDerivedKey v1 key).2 = matchedDBs v1 /\
  matchedCount (ValidateDerivedKey v1 key).2 = matchedCount v1.
Proof.
  intros Hdv Hunique v1.
  destruct (ValidateDerivedKey_keeps v key) as (Kdb & Kfiles & Kdec & _ & _).
  fold v1 in Kdb, Kfiles, Kdec.
  assert (Hdv1 : Decryptor_ValidateDerivedKey (decryptor v1) = Some dv) by (rewrite Kdec; exact Hdv).
  assert (Hnone : firstMatch dv key v1 = None).
  { destruct (firstMatch dv key v1) as [j|] eqn:Ej; [exfalso | reflexivity].
    destruct (firstMatch_Some dv key v1 j Ej) as [Hnin _].
    destruct (firstMatch_authenticates dv key v1 j Ej) as (pagej & Hpagej & Hokj).
    rewrite (pageOf_same v v1 j Kdb Kfiles) in Hpagej.
    destruct (ValidateDerivedKey_alone v dv key Hdv) as (_ & _ & _ & _ & Hmatch).
    fold v1 in Hmatch.
    destruct (firstMatch dv key v) as [i|] eqn:Ei.
    - destruct Hmatch as (_ & _ & Hm & _).
      destruct (firstMatch_authenticates dv key v i Ei) as (pagei & Hpagei & Hoki).
      rewrite (Hunique i j pagei pagej Hpagei Hpagej Hoki Hokj) in Hm.
      apply Hnin. rewrite Hm. set_solver.
    - destruct Hmatch as (_ & Hm & _). rewrite Hm in Hnin.
      rewrite (firstMatch_None dv key v Ei j pagej Hpagej Hnin) in Hokj. discriminate. }
  destruct (ValidateDerivedKey_alone v1 dv key Hdv1) as (_ & _ & _ & _ & Hmatch).
  rewrite Hnone in Hmatch. exact Hmatch.
Qed.

Lemma ValidateDerivedKey_same_key_again_witness :
  let v1 := (ValidateDerivedKey sampleValidator sessionKey).2 in
  (ValidateDerivedKey v1 sessionKey).1 = false /\
  matchedDBs (ValidateDerivedKey v1 sessionKey).2 = matchedDBs v1 /\
  matchedCount (ValidateDerivedKey v1 sessionKey).2 = matchedCount v1.
Proof.
  apply (ValidateDerivedKey_same_key_again sampleValidator samplePageTest sessionKey eq_refl).
  intros i j pagei pagej Hi Hj Hoki Hokj.
  apply pageOf_Some in Hi as Hini. apply pageOf_Some in Hj as Hinj.
  apply elem_of_dbIndices in Hini, Hinj.
  change (len (extraDBFiles sampleValidator)) with 1 in Hini, Hinj.
  assert (Hsession : forall k page, -1 <= k < 1 -> pageOf sampleValidator k = Some page ->
                                   samplePageTest page sessionKey = true -> k = 0).
  { intros k page Hk Hpage Hok.
    assert (k = -1 \/ k = 0) as [-> | ->] by lia; [| reflexivity].
    vm_compute in Hpage. injection Hpage as <-. vm_compute in Hok. discriminate. }
  rewrite (Hsession i pagei Hini Hi Hoki), (Hsession j pagej Hinj Hj Hokj). reflexivity.
Defined.

(** *** A derived key in the chunk is found *)

Lemma ValidateDerivedKey_marks v dv w i page :
  Decryptor_ValidateDerivedKey (decryptor v) = Some dv ->
  pageOf v i = Some page -> dv page w = true ->
  (forall j pagej, pageOf v j = Some pagej -> dv pagej w = true -> j = i) ->
  i ∈ matchedDBs (ValidateDerivedKey v w).2.
Proof.
  intros Hdv Hpage Hok Hunique.
  destruct (ValidateDerivedKey_alone v dv w Hdv) as (_ & _ & _ & _ & Hmatch).
  destruct (firstMatch dv w v) as [j|] eqn:Ej.
  - destruct Hmatch as (_ & _ & Hm & _).
    destruct (firstMatch_authenticates dv w v j Ej) as (pagej & Hpagej & Hokj).
    rewrite (Hunique j pagej Hpagej Hokj) in Hm. rewrite Hm. set_solver.
  - destruct Hmatch as (_ & Hm & _). rewrite Hm.
    destruct (decide (i ∈ matchedDBs v)) as [Hin|Hnin]; [exact Hin |].
    rewrite (firstMatch_None dv w v Ej i page Hpage Hnin) in Hok. discriminate.
Qed.

Lemma ValidateDerivedKey_new_mark v dv w i :
  Decryptor_ValidateDerivedKey (decryptor v) = Some dv ->
  i ∉ matchedDBs v ->
  i ∈ matchedDBs (ValidateDerivedKey v w).2 ->
  (ValidateDerivedKey v w).1 = true /\
  exists page, pageOf v i = Some page /\ dv page w = true.
Proof.
  intros Hdv Hnin Hin.
  destruct (ValidateDerivedKey_alone v dv w Hdv) as (_ & _ & _ & _ & Hmatch).
  destruct (firstMatch dv w v) as [j|] eqn:Ej.
  - destruct Hmatch as (Hok & _ & Hm & _). split; [exact Hok |].
    rewrite Hm in Hin. assert (i = j) as -> by set_solver.
    apply (firstMatch_authenticates dv w v j Ej).
  - destruct Hmatch as (_ & Hm & _). rewrite Hm in Hin. contradiction.
Qed.

Section Embedded.

Variable dv : list byte -> list byte -> bool.
Variable v0 : Validator.
Variable w : list byte.
Variable i : Z.
Variable page : list byte.

Hypothesis Hpage : pageOf v0 i = Some page.
Hypothesis Hok : dv page w = true.
Hypothesis Hunique :
  forall j pagej, pageOf v0 j = Some pagej -> dv pagej w = true -> j = i.

Lemma onTrack_start e :
  validator e = Some v0 ->
  tracked v0 ->
  Decryptor_ValidateDerivedKey (decryptor v0) = Some dv ->
  (EncodeToString w ∈ processedDerivedKeys e -> i ∈ matchedDBs v0) ->
  onTrack dv v0 w i page e.
Proof.
  intros Hv Ht Hdv Hnew. exists v0. split; [exact Hv |]. split; [exact Ht |].
  split; [exact Hdv |]. split; [reflexivity |]. split; [reflexivity |].
  split; [exact Hnew | tauto].
Qed.

Lemma examineWindow_onTrack w' count e :
  onTrack dv v0 w i page e -> onTrack dv v0 w i page (examineWindow w' count e).2.
Proof.
  intros (v & Hv & Ht & Hdv & Hdb & Hfiles & Hinv & Hkey). unfold examineWindow.
  destruct (24 <? zeroBytes w'); [exists v; cbn [snd]; tauto |].
  destruct (decide _) as [Hold|Hnew]; [exists v; cbn [snd]; tauto |].
  rewrite Hv. cbn [snd validator processedDerivedKeys foundDerivedKeys].
  destruct (ValidateDerivedKey_keeps v w') as (Kdb & Kfiles & Kdec & _ & Kmono).
  exists (ValidateDerivedKey v w').2. split; [reflexivity |].
  split; [apply tracked_ValidateDerivedKey, Ht |].
  split; [rewrite Kdec; exact Hdv |].
  split; [congruence |]. split; [congruence |]. split.
  - intros Hin. apply elem_of_union in Hin as [Hsame | Hbefore].
    + apply elem_of_singleton, EncodeToString_inj in Hsame. subst w'.
      apply (ValidateDerivedKey_marks v dv w i page Hdv).
      * rewrite (pageOf_same v0 v i Hdb Hfiles). exact Hpage.
      * exact Hok.
      * intros j pagej Hj. apply Hunique.
        rewrite <- (pageOf_same v0 v j Hdb Hfiles). exact Hj.
    + apply Kmono, Hinv, Hbefore.
  - intros Hin. destruct (decide (i ∈ matchedDBs v)) as [Hbefore|Hnin].
    + destruct (Hkey Hbefore) as [Hstart | (w'' & Hfound & Hok'')]; [left; exact Hstart |].
      right. exists w''. split; [| exact Hok''].
      destruct (ValidateDerivedKey v w').1; set_solver.
    + destruct (ValidateDerivedKey_new_mark v dv w' i Hdv Hnin Hin)
        as (Haccepted & page' & Hpage' & Hok').
      rewrite (pageOf_same v0 v i Hdb Hfiles), Hpage in Hpage'. injection Hpage' as <-.
      right. exists w'. split; [| exact Hok']. rewrite Haccepted. set_solver.
Qed.

Lemma scanPolled_onTrack ctx chunk (offsets : list Z) :
  forall polls count e,
    onTrack dv v0 w i page e ->
    onTrack dv v0 w i page (scanPolled ctx polls chunk offsets count e).2.
Proof.
  induction offsets as [|offset rest IH]; intros polls count e He; [exact He |].
  cbn [scanPolled].
  pose proof (examineWindow_onTrack (window32 chunk offset) count e He) as He'.
  destruct (examineWindow _ count e) as [count' e'].
  destruct (offset mod 8192 =? 0); [destruct (_ || _); [exact He |] |]; apply IH, He'.
Qed.

Lemma SearchAllDerivedKeys_onTrack ctx memory e :
  onTrack dv v0 w i page e ->
  exists count e',
    SearchAllDerivedKeys ctx memory e = Done (count, e') /\
    onTrack dv v0 w i page e'.
Proof.
  intros He.
  assert (Hsome : is_Some (validator e)).
  { destruct He as (v & Hv & _). rewrite Hv. eexists. reflexivity. }
  rewrite (SearchAllDerivedKeys_scanPolled ctx memory e Hsome).
  pose proof (scanPolled_onTrack ctx memory (windowOffsets memory) 0%nat 0 e He) as He'.
  destruct (scanPolled ctx 0 memory (windowOffsets memory) 0 e) as [count e'].
  exists count, e'. split; [reflexivity | exact He'].
Qed.

Lemma onTrack_all_found e v :
  onTrack dv v0 w i page e -> validator e = Some v ->
  AllDerivedKeysFound v = true -> i ∈ matchedDBs v.
Proof.
  intros (v' & Hv' & Ht & _ & _ & Hfiles & _) Hv Hall.
  rewrite Hv in Hv'. injection Hv' as <-.
  rewrite (all_matched v Ht Hall).
  pose proof (pageOf_Some _ _ _ Hpage) as Hin. apply elem_of_dbIndices in Hin.
  apply elem_of_dbIndices. rewrite Hfiles. exact Hin.
Qed.

(** After a scan that is not cancelled, the database of a key that sits
    in a window of the chunk is matched. *)
Lemma SearchAllDerivedKeys_onTrack_matches ctx memory offset e :
  onTrack dv v0 w i page e ->
  (forall n, ctx n = false) ->
  offset ∈ windowOffsets memory ->
  window32 memory offset = w ->
  zeroBytes w <= 24 ->
  exists count e' v',
    SearchAllDerivedKeys ctx memory e = Done (count, e') /\
    onTrack dv v0 w i page e' /\
    validator e' = Some v' /\ i ∈ matchedDBs v'.
Proof.
  intros He Hctx Hoff Hwin Hzero.
  destruct (SearchAllDerivedKeys_onTrack ctx memory e He) as (count & e' & Hrun & He').
  assert (Hsome : is_Some (validator e)).
  { destruct He as (v & Hv & _). rewrite Hv. eexists. reflexivity. }
  pose proof Hrun as Hscan.
  rewrite (SearchAllDerivedKeys_scanPolled ctx memory e Hsome) in Hscan.
  rewrite (scanPolled_never ctx memory (windowOffsets memory) Hctx) in Hscan.
  injection Hscan as Hscan.
  destruct (scanWindows_settles memory (windowOffsets memory) 0 e Hsome) as (_ & _ & Hend).
  rewrite Hscan in Hend. cbn [snd] in Hend.
  destruct He' as (v' & Hv' & Hrest). pose proof Hrest as (_ & _ & _ & _ & Hinv' & _).
  exists count, e', v'. split; [exact Hrun |].
  split; [exists v'; split; [exact Hv' | exact Hrest] |]. split; [exact Hv' |].
  destruct Hend as [Hall | Hsettled].
  - unfold allFound in Hall. rewrite Hv' in Hall.
    apply (onTrack_all_found e' v'); [exists v'; split; assumption | exact Hv' | exact Hall].
  - unfold settled in Hsettled. rewrite Forall_forall in Hsettled.
    destruct (Hsettled offset Hoff) as [Hmany | Hprocessed].
    + rewrite Hwin in Hmany. lia.
    + rewrite Hwin in Hprocessed. apply Hinv', Hprocessed.
Qed.

End Embedded.

Lemma acceptedOf_nil_matched keys : forall v,
  acceptedOf v keys = [] -> matchedDBs (validateAll v keys) = matchedDBs v.
Proof.
  induction keys as [|key keys IH]; intros v Hnil; [reflexivity |].
  cbn [acceptedOf validateAll] in *. apply app_eq_nil in Hnil as [Hhead Htail].
  rewrite (IH _ Htail).
  destruct (Decryptor_ValidateDerivedKey (decryptor v)) as [dv|] eqn:Hdv.
  - destruct (ValidateDerivedKey_alone v dv key Hdv) as (_ & _ & _ & _ & Hmatch).
    destruct (firstMatch dv key v).
    + destruct Hmatch as (Hok & _). rewrite Hok in Hhead. discriminate.
    + destruct Hmatch as (_ & Hm & _). exact Hm.
  - unfold ValidateDerivedKey. rewrite Hdv. reflexivity.
Qed.

Lemma SearchAllDerivedKeys_matches_at ctx memory e v dv w offset i page :
  validator e = Some v ->
  tracked v ->
  Decryptor_ValidateDerivedKey (decryptor v) = Some dv ->
  (forall n, ctx n = false) ->
  offset ∈ windowOffsets memory ->
  window32 memory offset = w ->
  zeroBytes w <= 24 ->
  (EncodeToString w ∈ processedDerivedKeys e -> i ∈ matchedDBs v) ->
  pageOf v i = Some page ->
  dv page w = true ->
  (forall j pagej, pageOf v j = Some pagej -> dv pagej w = true -> j = i) ->
  exists count e' v',
    SearchAllDerivedKeys ctx memory e = Done (count, e') /\
    validator e' = Some v' /\ i ∈ matchedDBs v' /\
    (i ∈ matchedDBs v \/
     exists w', EncodeToString w' ∈ foundDerivedKeys e' /\ dv page w' = true).
Proof.
  intros Hv Ht Hdv Hctx Hoff Hwin Hzero Hnew Hpage Hok Hunique.
  pose proof (onTrack_start dv v w i page e Hv Ht Hdv Hnew) as He.
  destruct (SearchAllDerivedKeys_onTrack_matches dv v w i page Hpage Hok Hunique
              ctx memory offset e He Hctx Hoff Hwin Hzero)
    as (count & e' & v' & Hrun & He' & Hv' & Hin).
  exists count, e', v'. split; [exact Hrun |]. split; [exact Hv' |]. split; [exact Hin |].
  destruct He' as (v'' & Hv'' & _ & _ & _ & _ & _ & Hkey).
  rewrite Hv' in Hv''. injection Hv'' as <-. apply Hkey, Hin.
Qed.

(** X12.  A derived key in the chunk is not missed.  Under a context that
    is never cancelled, if a 32-byte window at an offset that is a multiple
    of 8 holds at most 24 zero bytes, was not processed before (or its
    database is matched already) and authenticates the first page of one
    database of the validator, and of that database only, then that
    database is matched when [SearchAllDerivedKeys] returns; and unless it
    was matched before, [foundDerivedKeys] then holds a key that
    authenticates its first page. *)
Theorem SearchAllDerivedKeys_matches (ctx : Context) (memory : list byte)
    (e : V4Extractor) (v : Validator) (dv : list byte -> list byte -> bool)
    (offset i : Z) (page : list byte) :
  validator e = Some v ->
  tracked v ->
  Decryptor_ValidateDerivedKey (decryptor v) = Some dv ->
  (forall n, ctx n = false) ->
  0 <= offset /\ offset mod 8 = 0 /\ offset + 32 <= len memory ->
  zeroBytes (window32 memory offset) <= 24 ->
  (EncodeToString (window32 memory offset) ∉ processedDerivedKeys e) \/ i ∈ matchedDBs v ->
  pageOf v i = Some page ->
  dv page (window32 memory offset) = true ->
  (forall j pagej, pageOf v j = Some pagej ->
                   dv pagej (window32 memory offset) = true -> j = i) ->
  exists count e' v',
    SearchAllDerivedKeys ctx memory e = Done (count, e') /\
    validator e' = Some v' /\ i ∈ matchedDBs v' /\
    (i ∈ matchedDBs v \/
     exists w', EncodeToString w' ∈ foundDerivedKeys e' /\ dv page w' = true).
Proof.
  intros Hv Ht Hdv Hctx Hoff Hzero Hnew Hpage Hok Hunique.
  apply (SearchAllDerivedKeys_matches_at ctx memory e v dv (window32 memory offset)
           offset i page); try assumption; try reflexivity.
  - apply elem_of_windowOffsets, Hoff.
  - intros Hin. destruct Hnew as [Hnot | Hmatched]; [contradiction | exact Hmatched].
Qed.

Lemma sample_pages j pagej :
  pageOf sampleValidator j = Some pagej ->
  (j = -1 /\ pagej = FirstPage messageDB) \/ (j = 0 /\ pagej = FirstPage sessionDB).
Proof.
  intros Hj. pose proof (pageOf_Some _ _ _ Hj) as Hin.
  apply elem_of_dbIndices in Hin. change (len (extraDBFiles sampleValidator)) with 1 in Hin.
  assert (j = -1 \/ j = 0) as [-> | ->] by lia;
    vm_compute in Hj; injection Hj as <-; [left | right]; split; reflexivity.
Qed.

Lemma sessionKey_only_session j pagej :
  pageOf sampleValidator j = Some pagej ->
  samplePageTest pagej sessionKey = true -> j = 0.
Proof.
  intros Hj Hok. destruct (sample_pages j pagej Hj) as [[-> ->] | [-> ->]]; [| reflexivity].
  vm_compute in Hok. discriminate.
Qed.

Lemma SearchAllDerivedKeys_matches_witness :
  exists count e' v',
    SearchAllDerivedKeys background derivedChunk sampleExtractor = Done (count, e') /\
    validator e' = Some v' /\ 0 ∈ matchedDBs v' /\
    (0 ∈ matchedDBs sampleValidator \/
     exists w', EncodeToString w' ∈ foundDerivedKeys e' /\
                samplePageTest (FirstPage sessionDB) w' = true).
Proof.
  apply (SearchAllDerivedKeys_matches background derivedChunk sampleExtractor
           sampleValidator samplePageTest 16 0 (FirstPage sessionDB)).
  - reflexivity.
  - apply tracked_sampleValidator.
  - reflexivity.
  - intros n. reflexivity.
  - vm_compute. intuition discriminate.
  - vm_compute. discriminate.
  - left. vm_compute. set_solver.
  - reflexivity.
  - vm_compute. reflexivity.
  - intros j pagej Hj Hok. change (window32 derivedChunk 16) with sessionKey in Hok.
    exact (sessionKey_only_session j pagej Hj Hok).
Defined.

(** ** [SearchDerivedKey] *)

Lemma SearchDerivedKey_unfold rangeOrder ctx memory e count e' :
  SearchAllDerivedKeys ctx memory e = Done (count, e') ->
  SearchDerivedKey rangeOrder ctx memory e =
  if 0 <? count
  then Done (match rangeOrder (foundDerivedKeys e') with
             | [] => ""%string
             | k :: _ => k
             end, true, e')
  else Done (""%string, false, e').
Proof. intros Hrun. unfold SearchDerivedKey. rewrite Hrun. reflexivity. Qed.

(** X13.  With a validator set, [SearchDerivedKey] returns, and it reports
    a key exactly when the scan it runs accepted a window.  The key it
    reports is then one of the keys in [foundDerivedKeys]; when it reports
    none, the key is the empty string and [foundDerivedKeys] is as it
    was. *)
Theorem SearchDerivedKey_reports (rangeOrder : gset string -> list string)
    (ctx : Context) (memory : list byte) (e : V4Extractor) (v : Validator) :
  (forall m, rangeOrder m ≡ₚ elements m) ->
  validator e = Some v ->
  exists count key ok e',
    SearchAllDerivedKeys ctx memory e = Done (count, e') /\
    SearchDerivedKey rangeOrder ctx memory e = Done (key, ok, e') /\
    (ok = true <-> 0 < count) /\
    (ok = true -> key ∈ foundDerivedKeys e') /\
    (ok = false -> key = ""%string /\ foundDerivedKeys e' = foundDerivedKeys e).
Proof.
  intros Hperm Hv.
  destruct (SearchAllDerivedKeys_scanned ctx memory e v Hv) as (count & e' & ws & Hrun & Hs).
  destruct Hs as (_ & _ & _ & _ & _ & _ & _ & _ & Hf & Hc & _ & _).
  rewrite (SearchDerivedKey_unfold rangeOrder ctx memory e count e' Hrun).
  destruct (0 <? count) eqn:Epos.
  - apply Z.ltb_lt in Epos.
    destruct (acceptedOf v (rev ws)) as [|w acc] eqn:Eacc;
      [unfold len in Hc; cbn [length] in Hc; lia |].
    destruct (rangeOrder (foundDerivedKeys e')) as [|k ks] eqn:Eks.
    { exfalso. apply (rangeOrder_empty rangeOrder _ Hperm) in Eks.
      rewrite Hf in Eks. cbn [fmap list_fmap list_to_set] in Eks. set_solver. }
    exists count, k, true, e'. split; [exact Hrun |]. split; [reflexivity |].
    split; [tauto |]. split; [| discriminate].
    intros _. apply elem_of_elements. rewrite <- Hperm, Eks. left.
  - apply Z.ltb_ge in Epos.
    exists count, ""%string, false, e'. split; [exact Hrun |]. split; [reflexivity |].
    split; [split; [discriminate | lia] |]. split; [discriminate |].
    intros _. split; [reflexivity |].
    destruct (acceptedOf v (rev ws)) as [|w acc].
    + rewrite Hf. cbn [fmap list_fmap list_to_set]. set_solver.
    + unfold len in Hc. cbn [length] in Hc. lia.
Qed.

Lemma SearchDerivedKey_reports_witness :
  exists count key ok e',
    SearchAllDerivedKeys background derivedChunk sampleExtractor = Done (count, e') /\
    SearchDerivedKey elements background derivedChunk sampleExtractor = Done (key, ok, e') /\
    (ok = true <-> 0 < count).
Proof.
  destruct (SearchDerivedKey_reports elements background derivedChunk sampleExtractor
              sampleValidator (fun m => reflexivity _) eq_refl)
    as (count & key & ok & e' & Hscan & Hrun & Hok & _).
  exists count, key, ok, e'. split; [exact Hscan |]. split; assumption.
Defined.

(** X14.  [SearchDerivedKey] finds the key that is in the chunk.  Take an
    extractor with no found key, a context that is never cancelled, and a
    chunk with a window at an offset that is a multiple of 8 which holds at
    most 24 zero bytes, has not been processed, and authenticates the first
    page of one database, unmatched so far, and of that database only.  If
    every window of the chunk that authenticates a database holds these
    same bytes, then [SearchDerivedKey] returns the hex string of the
    window, and this is the one key in [foundDerivedKeys]. *)
Theorem SearchDerivedKey_finds (rangeOrder : gset string -> list string)
    (ctx : Context) (memory : list byte) (e : V4Extractor) (v : Validator)
    (dv : list byte -> list byte -> bool) (offset i : Z) (page : list byte) :
  (forall m, rangeOrder m ≡ₚ elements m) ->
  validator e = Some v ->
  tracked v ->
  Decryptor_ValidateDerivedKey (decryptor v) = Some dv ->
  (forall n, ctx n = false) ->
  foundDerivedKeys e = ∅ ->
  0 <= offset /\ offset mod 8 = 0 /\ offset + 32 <= len memory ->
  zeroBytes (window32 memory offset) <= 24 ->
  EncodeToString (window32 memory offset) ∉ processedDerivedKeys e ->
  i ∉ matchedDBs v ->
  pageOf v i = Some page ->
  dv page (window32 memory offset) = true ->
  (forall j pagej, pageOf v j = Some pagej ->
                   dv pagej (window32 memory offset) = true -> j = i) ->
  (forall offset' j pagej,
     0 <= offset' /\ offset' mod 8 = 0 /\ offset' + 32 <= len memory ->
     pageOf v j = Some pagej ->
     dv pagej (window32 memory offset') = true ->
     window32 memory offset' = window32 memory offset) ->
  exists e',
    SearchDerivedKey rangeOrder ctx memory e =
      Done (EncodeToString (window32 memory offset), true, e') /\
    foundDerivedKeys e' = {[EncodeToString (window32 memory offset)]}.
Proof.
  intros Hperm Hv Ht Hdv Hctx Hempty Hoff Hzero Hnew Hnin Hpage Hok Hunique Honly.
  set (w := window32 memory offset) in *.
  destruct (SearchAllDerivedKeys_scanned ctx memory e v Hv) as (count & e' & ws & Hrun & Hs).
  destruct Hs as (Hv' & _ & _ & _ & _ & _ & _ & _ & Hf & Hc & Hn & Hw).
  destruct (SearchAllDerivedKeys_matches_at ctx memory e v dv w offset i page)
    as (count2 & e2 & v2 & Hrun2 & Hv2 & Hin & _); try assumption; try reflexivity.
  { apply elem_of_windowOffsets, Hoff. }
  { intros Hold. contradiction. }
  rewrite Hrun in Hrun2. injection Hrun2 as <- <-.
  rewrite Hv' in Hv2. injection Hv2 as <-.
  assert (Hacc : forall w', w' ∈ acceptedOf v (rev ws) -> w' = w).
  { intros w' Hin'.
    destruct (acceptedOf_sound dv (rev ws) v w' Hdv) as (j & pagej & Hj & Hokj & _).
    { apply list_elem_of_In, Hin'. }
    assert (Hws : w' ∈ ws).
    { apply list_elem_of_In, in_rev, list_elem_of_In.
      apply (elem_of_sublist (acceptedOf v (rev ws))); [exact Hin' | apply acceptedOf_sublist]. }
    rewrite Forall_forall in Hw. destruct (Hw w' Hws) as ((offset' & Hoff' & ->) & _).
    apply (Honly offset' j pagej); [apply elem_of_windowOffsets, Hoff' | exact Hj | exact Hokj]. }
  destruct (acceptedOf v (rev ws)) as [|w1 acc] eqn:Eacc.
  { exfalso. apply Hnin. rewrite <- (acceptedOf_nil_matched (rev ws) v Eacc). exact Hin. }
  assert (Hfound : foundDerivedKeys e' = {[EncodeToString w]}).
  { rewrite Hf, Hempty. apply set_eq. intros h.
    rewrite elem_of_union, elem_of_list_to_set, list_elem_of_fmap, elem_of_singleton. split.
    - intros [(w' & -> & Hin') | Hnone]; [| set_solver].
      rewrite (Hacc w' Hin'). reflexivity.
    - intros ->. left. exists w1. split; [| left].
      rewrite (Hacc w1); [reflexivity | left]. }
  exists e'. split; [| exact Hfound].
  rewrite (SearchDerivedKey_unfold rangeOrder ctx memory e count e' Hrun).
  replace (0 <? count) with true
    by (symmetry; apply Z.ltb_lt; unfold len in Hc; cbn [length] in Hc; lia).
  pose proof (Hperm (foundDerivedKeys e')) as Hp.
  rewrite Hfound, elements_singleton in Hp. apply Permutation_singleton_r in Hp.
  rewrite Hfound, Hp. reflexivity.
Qed.

Lemma derivedChunk_windows offset' :
  0 <= offset' /\ offset' mod 8 = 0 /\ offset' + 32 <= len derivedChunk ->
  offset' = 0 \/ offset' = 8 \/ offset' = 16.
Proof.
  change (len derivedChunk) with 48. intros (H0 & Hmod & Hfit).
  apply Z.div_exact in Hmod; lia.
Qed.

Lemma SearchDerivedKey_finds_witness :
  exists e',
    SearchDerivedKey elements background derivedChunk sampleExtractor =
      Done (EncodeToString (window32 derivedChunk 16), true, e') /\
    foundDerivedKeys e' = {[EncodeToString (window32 derivedChunk 16)]}.
Proof.
  apply (SearchDerivedKey_finds elements background derivedChunk sampleExtractor
           sampleValidator samplePageTest 16 0 (FirstPage sessionDB)).
  - intros m. reflexivity.
  - reflexivity.
  - apply tracked_sampleValidator.
  - reflexivity.
  - intros n. reflexivity.
  - reflexivity.
  - vm_compute. intuition discriminate.
  - vm_compute. discriminate.
  - vm_compute. set_solver.
  - vm_compute. set_solver.
  - reflexivity.
  - vm_compute. reflexivity.
  - intros j pagej Hj Hok. change (window32 derivedChunk 16) with sessionKey in Hok.
    exact (sessionKey_only_session j pagej Hj Hok).
  - intros offset' j pagej Hoff Hj Hok.
    destruct (sample_pages j pagej Hj) as [[-> ->] | [-> ->]];
      destruct (derivedChunk_windows offset' Hoff) as [-> | [-> | ->]];
      vm_compute in Hok; try discriminate; reflexivity.
Defined.

(** ** [Extract]: what it returns *)

Lemma nonEmpty_derived (keys : list string) :
  nonEmpty ("derived:" +:+ Join keys ",") = true.
Proof. reflexivity. Qed.

Lemma awaitResults_keys_or_error (rounds : list received) (derivedKeys : list string) :
  forall raw img,
    match awaitResults rounds derivedKeys raw img with
    | (dataKey, imgKey, None) => nonEmpty dataKey || nonEmpty imgKey = true
    | (dataKey, imgKey, Some _) => dataKey = ""%string /\ imgKey = ""%string
    end.
Proof.
  induction rounds as [|r rounds IH]; intros raw img.
  - cbn [awaitResults].
    destruct (nonEmpty _ || nonEmpty img) eqn:E; [exact E | split; reflexivity].
  - destruct r as [r0 r1|]; cbn [awaitResults]; [| split; reflexivity].
    destruct (nonEmpty _ && nonEmpty _) eqn:E; [| apply IH].
    apply andb_true_iff in E as [-> _]. reflexivity.
Qed.

(** X15.  [Extract] returns keys or an error, never both and never
    neither: when it returns no error, the data key or the image key is
    not empty; when it returns an error, both keys are empty.  This holds
    whatever the state of the process, of the extractor and of the
    channels. *)
Theorem Extract_keys_or_error (rangeOrder : gset string -> list string)
    (procStatus : status) (sipDisabled : bool) (e : V4Extractor)
    (rounds : list received) (found : gset string) :
  match Extract rangeOrder procStatus sipDisabled e rounds found with
  | (dataKey, imgKey, None) => nonEmpty dataKey || nonEmpty imgKey = true
  | (dataKey, imgKey, Some _) => dataKey = ""%string /\ imgKey = ""%string
  end.
Proof.
  unfold Extract. destruct procStatus; [| split; reflexivity].
  destruct sipDisabled; cbn [negb]; [| split; reflexivity].
  destruct (validator e); [| split; reflexivity].
  apply awaitResults_keys_or_error.
Qed.

(** The loop of [Extract] when the workers publish a raw key and an image
    key: it returns at the round that completes the pair. *)
Lemma awaitResults_pair (rounds : list received) :
  forall raw img,
    nonEmpty raw && nonEmpty img = false ->
    CtxDone ∉ rounds ->
    nonEmpty (foldl (fun a s => if nonEmpty s then s else a) raw (rawKeysOf rounds)) = true ->
    nonEmpty (foldl (fun a s => if nonEmpty s then s else a) img (imgKeysOf rounds)) = true ->
    exists rawKey imgKey,
      nonEmpty rawKey = true /\ nonEmpty imgKey = true /\
      (rawKey = raw \/ In rawKey (rawKeysOf rounds)) /\
      (imgKey = img \/ In imgKey (imgKeysOf rounds)) /\
      forall derivedKeys,
        awaitResults rounds derivedKeys raw img = (rawKey, imgKey, None).
Proof.
  induction rounds as [|r rounds IH]; intros raw img Hnot Hctx Hraw Himg.
  - cbn [rawKeysOf imgKeysOf foldl] in *. rewrite Hraw, Himg in Hnot. discriminate.
  - destruct r as [r0 r1|]; [| exfalso; apply Hctx; left].
    assert (Hctx' : CtxDone ∉ rounds) by (intros H; apply Hctx; right; exact H).
    cbn [rawKeysOf imgKeysOf foldl] in Hraw, Himg.
    set (raw' := if nonEmpty r0 then r0 else raw) in *.
    set (img' := if nonEmpty r1 then r1 else img) in *.
    assert (Hr : raw' = raw \/ r0 = raw') by (unfold raw'; destruct (nonEmpty r0); tauto).
    assert (Hi : img' = img \/ r1 = img') by (unfold img'; destruct (nonEmpty r1); tauto).
    destruct (nonEmpty raw' && nonEmpty img') eqn:Eboth.
    + apply andb_true_iff in Eboth as Hboth. destruct Hboth as [Hr' Hi'].
      exists raw', img'. split; [exact Hr' |]. split; [exact Hi' |].
      split; [cbn [rawKeysOf In]; tauto |]. split; [cbn [imgKeysOf In]; tauto |].
      intros derivedKeys. cbn [awaitResults]. fold raw' img'. rewrite Eboth. reflexivity.
    + destruct (IH raw' img' Eboth Hctx' Hraw Himg)
        as (rawKey & imgKey & Hn1 & Hn2 & Hin1 & Hin2 & Hrun).
      exists rawKey, imgKey. split; [exact Hn1 |]. split; [exact Hn2 |].
      split; [cbn [rawKeysOf In]; destruct Hin1 as [-> | Hin1]; tauto |].
      split; [cbn [imgKeysOf In]; destruct Hin2 as [-> | Hin2]; tauto |].
      intros derivedKeys. cbn [awaitResults]. fold raw' img'. rewrite Eboth. apply Hrun.
Qed.

(** X16.  Derived keys are dropped when the workers publish both a raw
    key and an image key.  If the caller's context is not cancelled and
    the rounds hold a non-empty raw key and a non-empty image key, then
    [Extract] returns a published raw key and a published image key, both
    not empty and without error, and the same ones whatever
    [foundDerivedKeys] holds: the data key is then never the list of
    derived keys. *)
Theorem Extract_pair_drops_derived_keys (rangeOrder : gset string -> list string)
    (e : V4Extractor) (v : Validator) (rounds : list received) :
  validator e = Some v ->
  CtxDone ∉ rounds ->
  nonEmpty (lastNonEmpty (rawKeysOf rounds)) = true ->
  nonEmpty (lastNonEmpty (imgKeysOf rounds)) = true ->
  exists rawKey imgKey,
    nonEmpty rawKey = true /\ nonEmpty imgKey = true /\
    In rawKey (rawKeysOf rounds) /\ In imgKey (imgKeysOf rounds) /\
    forall found,
      Extract rangeOrder StatusOnline true e rounds found = (rawKey, imgKey, None).
Proof.
  intros Hv Hctx Hraw Himg.
  destruct (awaitResults_pair rounds ""%string ""%string eq_refl Hctx Hraw Himg)
    as (rawKey & imgKey & Hn1 & Hn2 & Hin1 & Hin2 & Hrun).
  exists rawKey, imgKey. split; [exact Hn1 |]. split; [exact Hn2 |].
  split; [destruct Hin1 as [-> | Hin1]; [discriminate | exact Hin1] |].
  split; [destruct Hin2 as [-> | Hin2]; [discriminate | exact Hin2] |].
  intros found. unfold Extract. rewrite Hv. cbn [negb]. apply Hrun.
Qed.

Lemma Extract_pair_drops_derived_keys_witness :
  exists rawKey imgKey,
    nonEmpty rawKey = true /\ nonEmpty imgKey = true /\
    In rawKey (rawKeysOf [Result "" "0f"; Result "aa" "0f"]) /\
    In imgKey (imgKeysOf [Result "" "0f"; Result "aa" "0f"]) /\
    forall found,
      Extract elements StatusOnline true sampleExtractor
        [Result "" "0f"; Result "aa" "0f"] found = (rawKey, imgKey, None).
Proof.
  apply (Extract_pair_drops_derived_keys elements sampleExtractor sampleValidator
           [Result "" "0f"; Result "aa" "0f"]);
    [reflexivity | | reflexivity | reflexivity].
  intros Hin. repeat (apply elem_of_cons in Hin as [Hin | Hin]; [discriminate |]).
  apply elem_of_nil in Hin. exact Hin.
Defined.

(** ** [worker] *)

Lemma windowAt_len memory size keyOffset w :
  0 <= size -> windowAt memory size keyOffset w -> len w = size.
Proof.
  intros Hs (H0 & Hfit & ->). unfold len in *. rewrite length_take, length_drop. lia.
Qed.

Lemma EncodeToString_nonempty w : 0 < len w -> EncodeToString w <> ""%string.
Proof. destruct w; [unfold len; cbn; lia | discriminate]. Qed.

Lemma later_refl v : later v v.
Proof. repeat split; reflexivity. Qed.

Lemma later_trans v1 v2 v3 : later v1 v2 -> later v2 v3 -> later v1 v3.
Proof.
  intros (A1 & A2 & A3 & A4 & A5 & A6) (B1 & B2 & B3 & B4 & B5 & B6).
  repeat split; try congruence. etrans; eassumption.
Qed.

Lemma later_validateAll v keys : later v (validateAll v keys).
Proof.
  destruct (validateAll_keeps keys v) as (H1 & H2 & H3 & H4 & H5).
  pose proof (validateAll_imgKeyValidator keys v) as H6.
  repeat split; assumption.
Qed.

Lemma later_validateOf k v v' w : later v v' -> validateOf k v' w = validateOf k v w.
Proof.
  intros (H1 & H2 & _ & H4 & _). destruct k; cbn [validateOf].
  - unfold Validate. rewrite H1, H2. reflexivity.
  - unfold ValidateImgKey. rewrite H4. reflexivity.
Qed.

Lemma later_acceptedKey k v v' key :
  later v v' -> acceptedKey k v' key -> acceptedKey k v key.
Proof.
  intros Hl [-> | (w & -> & Hlen & Hok)]; [left; reflexivity | right].
  exists w. rewrite <- (later_validateOf k v v' w Hl). repeat split; assumption.
Qed.

(** One pattern search, as a worker uses it. *)
Lemma search_step k ctx memory e v :
  validator e = Some v ->
  exists key ok e',
    searchPatterns k ctx 0 memory (patternsOf k e) e = Done (key, ok, e') /\
    validator e' = Some v /\
    foundDerivedKeys e' = foundDerivedKeys e /\
    processedDerivedKeys e' = processedDerivedKeys e /\
    (exists ws, asked e' = (askOf k <$> ws) ++ asked e) /\
    (if ok then key <> ""%string /\ acceptedKey k v key else key = ""%string).
Proof.
  intros Hv.
  destruct (search_advanced k ctx memory e v Hv) as (key & ok & e' & ws & Hrun & Hadv & Hans).
  destruct Hadv as (Hv' & _ & _ & _ & Hf & Hp & _ & Ha & _ & _ & Hw).
  exists key, ok, e'. split; [exact Hrun |]. split; [congruence |].
  split; [exact Hf |]. split; [exact Hp |]. split; [exists ws; exact Ha |].
  unfold answered in Hans. destruct ok; [| tauto].
  destruct Hans as (w & ws' & -> & -> & Hok & _).
  apply Forall_cons in Hw as [[[(keyOffset & Hwin) _] _] _].
  apply windowAt_len in Hwin; [| destruct k; cbn; lia].
  split.
  - apply EncodeToString_nonempty. rewrite Hwin. destruct k; cbn; lia.
  - right. exists w. repeat split; assumption.
Qed.

Lemma derivedKeyStep_spec ctx memory e v :
  validator e = Some v ->
  exists e1 v1,
    derivedKeyStep ctx memory e = Done e1 /\
    validator e1 = Some v1 /\ later v v1 /\
    foundDerivedKeys e ⊆ foundDerivedKeys e1 /\
    (AllDerivedKeysFound v = true -> e1 = e) /\
    (AllDerivedKeysFound v = false ->
     exists count, SearchAllDerivedKeys ctx memory e = Done (count, e1)).
Proof.
  intros Hv. unfold derivedKeyStep, theValidator. rewrite Hv. cbn [andThen].
  destruct (AllDerivedKeysFound v) eqn:Eall; cbn [negb].
  - exists e, v. split; [reflexivity |]. split; [exact Hv |]. split; [apply later_refl |].
    split; [reflexivity |]. split; [reflexivity | discriminate].
  - destruct (SearchAllDerivedKeys_scanned ctx memory e v Hv) as (count & e1 & ws & Hrun & Hs).
    destruct Hs as (Hv1 & _ & _ & _ & _ & _ & _ & _ & Hf & _).
    rewrite Hrun. cbn [andThen].
    exists e1, (validateAll v (rev ws)). split; [reflexivity |]. split; [exact Hv1 |].
    split; [apply later_validateAll |]. split; [rewrite Hf; set_solver |].
    split; [discriminate |]. intros _. exists count. reflexivity.
Qed.

Lemma rawKeyStep_spec ctx taken memory raw img e v :
  validator e = Some v ->
  exists raw' sent back e',
    rawKeyStep ctx taken memory raw img e = Done (raw', sent, back, e') /\
    validator e' = Some v /\
    foundDerivedKeys e' = foundDerivedKeys e /\
    processedDerivedKeys e' = processedDerivedKeys e /\
    (exists ws, asked e' = (AskValidate <$> ws) ++ asked e) /\
    ((raw' = raw /\ sent = [] /\ back = false) \/
     (raw = ""%string /\ raw' <> ""%string /\ acceptedKey DataKey v raw' /\
      ((sent = [(raw', img)] /\ back = false) \/ (sent = [] /\ back = true)))).
Proof.
  intros Hv. unfold rawKeyStep. destruct (String.eqb raw "") eqn:E.
  - apply String.eqb_eq in E.
    destruct (search_step DataKey ctx memory e v Hv)
      as (key & ok & e' & Hrun & Hv' & Hf & Hp & Ha & Hkey).
    unfold SearchKey. cbn [patternsOf] in Hrun. rewrite Hrun. cbn [andThen].
    destruct ok.
    + destruct Hkey as [Hne Hacc]. destruct taken.
      * exists key, [(key, img)], false, e'. split; [reflexivity |].
        repeat (split; [assumption |]). right. tauto.
      * exists key, [], true, e'. split; [reflexivity |].
        repeat (split; [assumption |]). right. tauto.
    + exists raw, [], false, e'. split; [reflexivity |].
      repeat (split; [assumption |]). left. tauto.
  - exists raw, [], false, e. split; [reflexivity |]. split; [exact Hv |].
    split; [reflexivity |]. split; [reflexivity |]. split; [exists []; reflexivity |].
    left. tauto.
Qed.

Lemma imgKeyStep_spec ctx taken memory raw img e v :
  validator e = Some v ->
  exists img' sent back e',
    imgKeyStep ctx taken memory raw img e = Done (img', sent, back, e') /\
    validator e' = Some v /\
    foundDerivedKeys e' = foundDerivedKeys e /\
    processedDerivedKeys e' = processedDerivedKeys e /\
    (exists ws, asked e' = (AskValidateImgKey <$> ws) ++ asked e) /\
    ((img' = img /\ sent = [] /\ back = false) \/
     (img = ""%string /\ img' <> ""%string /\ acceptedKey ImgKey v img' /\
      ((sent = [(raw, img')] /\ back = false) \/ (sent = [] /\ back = true)))).
Proof.
  intros Hv. unfold imgKeyStep. destruct (String.eqb img "") eqn:E.
  - apply String.eqb_eq in E.
    destruct (search_step ImgKey ctx memory e v Hv)
      as (key & ok & e' & Hrun & Hv' & Hf & Hp & Ha & Hkey).
    unfold SearchImgKey. cbn [patternsOf] in Hrun. rewrite Hrun. cbn [andThen].
    destruct ok.
    + destruct Hkey as [Hne Hacc]. destruct taken.
      * exists key, [(raw, key)], false, e'. split; [reflexivity |].
        repeat (split; [assumption |]). right. tauto.
      * exists key, [], true, e'. split; [reflexivity |].
        repeat (split; [assumption |]). right. tauto.
    + exists img, [], false, e'. split; [reflexivity |].
      repeat (split; [assumption |]). left. tauto.
  - exists img, [], false, e. split; [reflexivity |]. split; [exact Hv |].
    split; [reflexivity |]. split; [reflexivity |]. split; [exists []; reflexivity |].
    left. tauto.
Qed.

Lemma unset_empty : unset "" = 1%nat.
Proof. reflexivity. Qed.

Lemma unset_nonempty s : s <> ""%string -> unset s = 0%nat.
Proof.
  intros Hs. unfold unset. destruct (String.eqb s "") eqn:E; [| reflexivity].
  apply String.eqb_eq in E. contradiction.
Qed.

Lemma carries_intro rawKey imgKey r i :
  r = ""%string \/ r = rawKey ->
  i = ""%string \/ i = imgKey ->
  r <> ""%string \/ i <> ""%string ->
  carries rawKey imgKey (r, i).
Proof.
  intros Hr Hi Hne. unfold carries. cbn [fst snd].
  split; [exact Hr |]. split; [exact Hi |]. intros [= -> ->]. tauto.
Qed.

(** The loop of a worker, from any values of its two variables that the
    validator [v0] accepts. *)
Lemma workerLoop_messages v0 arrivals : forall raw img e v,
  validator e = Some v -> later v0 v ->
  acceptedKey DataKey v0 raw -> acceptedKey ImgKey v0 img ->
  exists sent back e' v' rawKey imgKey,
    workerLoop arrivals raw img e = Done (sent, back, e') /\
    validator e' = Some v' /\ later v v' /\
    foundDerivedKeys e ⊆ foundDerivedKeys e' /\
    (length sent <= unset raw + unset img + 1)%nat /\
    (raw = ""%string \/ rawKey = raw) /\ (img = ""%string \/ imgKey = img) /\
    acceptedKey DataKey v0 rawKey /\ acceptedKey ImgKey v0 imgKey /\
    Forall (carries rawKey imgKey) sent.
Proof.
  induction arrivals as [|a rest IH]; intros raw img e v Hv Hlater Hraw Himg.
  { exists [], false, e, v, raw, img. split; [reflexivity |]. split; [exact Hv |].
    split; [apply later_refl |]. split; [reflexivity |]. split; [cbn; lia |].
    split; [tauto |]. split; [tauto |]. split; [exact Hraw |]. split; [exact Himg |].
    constructor. }
  destruct a as [|taken|memory p].
  { exists [], true, e, v, raw, img. split; [reflexivity |]. split; [exact Hv |].
    split; [apply later_refl |]. split; [reflexivity |]. split; [cbn; lia |].
    split; [tauto |]. split; [tauto |]. split; [exact Hraw |]. split; [exact Himg |].
    constructor. }
  { cbn [workerLoop].
    destruct (negb (String.eqb raw "") || negb (String.eqb img "")) eqn:E;
      [destruct taken |].
    2, 3: exists [], true, e, v, raw, img; split; [reflexivity |]; split; [exact Hv |];
      split; [apply later_refl |]; split; [reflexivity |]; split; [cbn; lia |];
      split; [tauto |]; split; [tauto |]; split; [exact Hraw |]; split; [exact Himg |];
      constructor.
    exists [(raw, img)], true, e, v, raw, img. split; [reflexivity |]. split; [exact Hv |].
    split; [apply later_refl |]. split; [reflexivity |]. split; [cbn; lia |].
    split; [tauto |]. split; [tauto |]. split; [exact Hraw |]. split; [exact Himg |].
    constructor; [| constructor]. apply carries_intro; [tauto | tauto |].
    apply orb_true_iff in E as [E | E]; apply negb_true_iff, String.eqb_neq in E; tauto. }
  cbn [workerLoop].
  destruct (derivedKeyStep_spec (scanCtx p) memory e v Hv)
    as (e1 & v1 & Hrun1 & Hv1 & Hl1 & Hf1 & _ & _).
  destruct (rawKeyStep_spec (keyCtx p) (keyTaken p) memory raw img e1 v1 Hv1)
    as (raw1 & sent1 & back1 & e2 & Hrun2 & Hv2 & Hf2 & _ & _ & Hcase1).
  rewrite Hrun1. cbn [andThen]. rewrite Hrun2. cbn [andThen].
  pose proof (later_trans _ _ _ Hlater Hl1) as Hl01.
  assert (Hraw1 : acceptedKey DataKey v0 raw1).
  { destruct Hcase1 as [(-> & _) | (_ & _ & Hacc & _)]; [exact Hraw |].
    apply (later_acceptedKey DataKey v0 v1 raw1 Hl01 Hacc). }
  assert (Hlen1 : (length sent1 + unset raw1 <= unset raw)%nat /\
                  (raw = ""%string \/ raw1 = raw) /\
                  Forall (fun m => m = (raw1, img) /\ raw1 <> ""%string) sent1 /\
                  (back1 = true -> raw = ""%string)).
  { destruct Hcase1 as [(-> & -> & ->) | (-> & Hne & _ & [(-> & ->) | (-> & ->)])].
    - split; [cbn; lia |]. split; [tauto |]. split; [constructor | discriminate].
    - rewrite (unset_nonempty raw1 Hne). split; [cbn; lia |]. split; [tauto |].
      split; [| discriminate]. constructor; [tauto | constructor].
    - rewrite (unset_nonempty raw1 Hne). split; [cbn; lia |]. split; [tauto |].
      split; [constructor | reflexivity]. }
  destruct Hlen1 as (Hlen1 & Hkeep1 & Hsent1 & Hback1).
  destruct back1.
  { exists sent1, true, e2, v1, raw1, img. split; [reflexivity |]. split; [exact Hv2 |].
    split; [exact Hl1 |]. split; [rewrite Hf2; exact Hf1 |]. split; [lia |].
    split; [left; apply Hback1; reflexivity |]. split; [tauto |].
    split; [exact Hraw1 |]. split; [exact Himg |].
    eapply Forall_impl; [exact Hsent1 |]. intros m [-> Hne].
    apply carries_intro; tauto. }
  destruct (imgKeyStep_spec (imgKeyCtx p) (imgKeyTaken p) memory raw1 img e2 v1 Hv2)
    as (img2 & sent2 & back2 & e3 & Hrun3 & Hv3 & Hf3 & _ & _ & Hcase2).
  rewrite Hrun3. cbn [andThen].
  assert (Himg2 : acceptedKey ImgKey v0 img2).
  { destruct Hcase2 as [(-> & _) | (_ & _ & Hacc & _)]; [exact Himg |].
    apply (later_acceptedKey ImgKey v0 v1 img2 Hl01 Hacc). }
  assert (Hlen2 : (length sent2 + unset img2 <= unset img)%nat /\
                  (img = ""%string \/ img2 = img) /\
                  Forall (fun m => m = (raw1, img2) /\ img2 <> ""%string) sent2 /\
                  (back2 = true -> img = ""%string)).
  { destruct Hcase2 as [(-> & -> & ->) | (-> & Hne & _ & [(-> & ->) | (-> & ->)])].
    - split; [cbn; lia |]. split; [tauto |]. split; [constructor | discriminate].
    - rewrite (unset_nonempty img2 Hne). split; [cbn; lia |]. split; [tauto |].
      split; [| discriminate]. constructor; [tauto | constructor].
    - rewrite (unset_nonempty img2 Hne). split; [cbn; lia |]. split; [tauto |].
      split; [constructor | reflexivity]. }
  destruct Hlen2 as (Hlen2 & Hkeep2 & Hsent2 & Hback2).
  destruct back2.
  { exists (sent1 ++ sent2), true, e3, v1, raw1, img2. split; [reflexivity |].
    split; [exact Hv3 |]. split; [exact Hl1 |].
    split; [rewrite Hf3, Hf2; exact Hf1 |].
    split; [rewrite length_app; pose proof (Hback2 eq_refl); lia |].
    split; [tauto |]. split; [left; apply Hback2; reflexivity |].
    split; [exact Hraw1 |]. split; [exact Himg2 |].
    apply Forall_app. split.
    - eapply Forall_impl; [exact Hsent1 |]. intros m [-> Hne].
      apply carries_intro; [tauto | left; apply Hback2; reflexivity | tauto].
    - eapply Forall_impl; [exact Hsent2 |]. intros m [-> Hne].
      apply carries_intro; tauto. }
  destruct (IH raw1 img2 e3 v1 Hv3 Hl01 Hraw1 Himg2)
    as (sent & back & e' & v' & rawKey & imgKey & Hrun & Hv' & Hl' & Hf' & Hlen
        & Hkr & Hki & Haccr & Hacci & Hall).
  rewrite Hrun. cbn [andThen].
  exists (sent1 ++ sent2 ++ sent), back, e', v', rawKey, imgKey.
  split; [reflexivity |]. split; [exact Hv' |].
  split; [exact (later_trans _ _ _ Hl1 Hl') |].
  split; [etrans; [exact Hf1 |]; rewrite <- Hf2, <- Hf3; exact Hf' |].
  split; [rewrite !length_app; lia |].
  split; [destruct Hkeep1 as [-> | <-]; tauto |].
  split; [destruct Hkeep2 as [-> | <-]; tauto |].
  split; [exact Haccr |]. split; [exact Hacci |].
  apply Forall_app. split; [| apply Forall_app; split; [| exact Hall]].
  - eapply Forall_impl; [exact Hsent1 |]. intros m [-> Hne].
    apply carries_intro; [right; destruct Hkr as [? | ->]; tauto | | tauto].
    destruct Hkeep2 as [-> | <-]; [tauto |]. destruct Hki as [-> | ->]; tauto.
  - eapply Forall_impl; [exact Hsent2 |]. intros m [-> Hne].
    apply carries_intro; [destruct Hkr as [-> | ->]; tauto | | tauto].
    right. destruct Hki as [? | ->]; tauto.
Qed.

(** *** A worker stores the derived key of a chunk *)

Lemma onTrack_same dv v0 w i page e e' :
  validator e' = validator e ->
  processedDerivedKeys e' = processedDerivedKeys e ->
  foundDerivedKeys e' = foundDerivedKeys e ->
  onTrack dv v0 w i page e -> onTrack dv v0 w i page e'.
Proof.
  intros Hv Hp Hf (v & Hv0 & Hrest). exists v. rewrite Hv, Hp, Hf.
  split; [exact Hv0 | exact Hrest].
Qed.

Lemma rawKeyStep_taken ctx memory raw img e raw' sent back e' :
  rawKeyStep ctx true memory raw img e = Done (raw', sent, back, e') -> back = false.
Proof.
  unfold rawKeyStep. destruct (String.eqb raw ""); [| intros [= _ _ <- _]; reflexivity].
  destruct (SearchKey ctx memory e) as [[[key ok] e2]| | |]; cbn [andThen]; try discriminate.
  destruct ok; intros [= _ _ <- _]; reflexivity.
Qed.

Lemma imgKeyStep_taken ctx memory raw img e img' sent back e' :
  imgKeyStep ctx true memory raw img e = Done (img', sent, back, e') -> back = false.
Proof.
  unfold imgKeyStep. destruct (String.eqb img ""); [| intros [= _ _ <- _]; reflexivity].
  destruct (SearchImgKey ctx memory e) as [[[key ok] e2]| | |]; cbn [andThen]; try discriminate.
  destruct ok; intros [= _ _ <- _]; reflexivity.
Qed.

Section EmbeddedWorker.

Variable dv : list byte -> list byte -> bool.
Variable v0 : Validator.
Variable w : list byte.
Variable i : Z.
Variable page : list byte.

Hypothesis Hpage : pageOf v0 i = Some page.
Hypothesis Hok : dv page w = true.
Hypothesis Hunique :
  forall j pagej, pageOf v0 j = Some pagej -> dv pagej w = true -> j = i.

Lemma derivedKeyStep_onTrack ctx memory e v :
  validator e = Some v ->
  onTrack dv v0 w i page e ->
  exists e1 v1,
    derivedKeyStep ctx memory e = Done e1 /\
    validator e1 = Some v1 /\ later v v1 /\
    onTrack dv v0 w i page e1.
Proof.
  intros Hv He.
  destruct (derivedKeyStep_spec ctx memory e v Hv)
    as (e1 & v1 & Hrun & Hv1 & Hl & _ & Hskip & Hscan).
  exists e1, v1. split; [exact Hrun |]. split; [exact Hv1 |]. split; [exact Hl |].
  destruct (AllDerivedKeysFound v) eqn:Eall.
  - rewrite (Hskip eq_refl). exact He.
  - destruct (Hscan eq_refl) as (count & Hrun1).
    destruct (SearchAllDerivedKeys_onTrack dv v0 w i page Hpage Hok Hunique ctx memory e He)
      as (count2 & e2 & Hrun2 & He2).
    rewrite Hrun1 in Hrun2. injection Hrun2 as _ <-. exact He2.
Qed.

Lemma derivedKeyStep_matches ctx memory offset e v :
  validator e = Some v ->
  onTrack dv v0 w i page e ->
  (forall n, ctx n = false) ->
  offset ∈ windowOffsets memory ->
  window32 memory offset = w ->
  zeroBytes w <= 24 ->
  exists e1 v1,
    derivedKeyStep ctx memory e = Done e1 /\
    validator e1 = Some v1 /\ later v v1 /\
    onTrack dv v0 w i page e1 /\ i ∈ matchedDBs v1.
Proof.
  intros Hv He Hctx Hoff Hwin Hzero.
  destruct (derivedKeyStep_spec ctx memory e v Hv)
    as (e1 & v1 & Hrun & Hv1 & Hl & _ & Hskip & Hscan).
  exists e1, v1. split; [exact Hrun |]. split; [exact Hv1 |]. split; [exact Hl |].
  destruct (AllDerivedKeysFound v) eqn:Eall.
  - pose proof (Hskip eq_refl) as ->. split; [exact He |].
    rewrite Hv in Hv1. injection Hv1 as <-.
    apply (onTrack_all_found dv v0 w i page Hpage e v He Hv Eall).
  - destruct (Hscan eq_refl) as (count & Hrun1).
    destruct (SearchAllDerivedKeys_onTrack_matches dv v0 w i page Hpage Hok Hunique
                ctx memory offset e He Hctx Hoff Hwin Hzero)
      as (count2 & e2 & v2 & Hrun2 & He2 & Hv2 & Hin).
    rewrite Hrun1 in Hrun2. injection Hrun2 as _ <-.
    rewrite Hv1 in Hv2. injection Hv2 as <-. split; assumption.
Qed.

(** A worker keeps the extractor on track, and only adds marks. *)
Lemma workerLoop_onTrack arrivals : forall raw img e v,
  validator e = Some v ->
  onTrack dv v0 w i page e ->
  exists sent back e' v',
    workerLoop arrivals raw img e = Done (sent, back, e') /\
    validator e' = Some v' /\ later v v' /\
    onTrack dv v0 w i page e'.
Proof.
  induction arrivals as [|a rest IH]; intros raw img e v Hv He.
  { exists [], false, e, v. split; [reflexivity |]. split; [exact Hv |].
    split; [apply later_refl | exact He]. }
  destruct a as [|taken|memory p].
  { exists [], true, e, v. split; [reflexivity |]. split; [exact Hv |].
    split; [apply later_refl | exact He]. }
  { cbn [workerLoop]. destruct (_ || _); [destruct taken |];
      eexists _, true, e, v; (split; [reflexivity |]); (split; [exact Hv |]);
      (split; [apply later_refl | exact He]). }
  cbn [workerLoop].
  destruct (derivedKeyStep_onTrack (scanCtx p) memory e v Hv He)
    as (e1 & v1 & Hrun1 & Hv1 & Hl1 & He1).
  destruct (rawKeyStep_spec (keyCtx p) (keyTaken p) memory raw img e1 v1 Hv1)
    as (raw1 & sent1 & back1 & e2 & Hrun2 & Hv2 & Hf2 & Hp2 & _ & _).
  rewrite Hrun1. cbn [andThen]. rewrite Hrun2. cbn [andThen].
  assert (He2 : onTrack dv v0 w i page e2)
    by (apply (onTrack_same dv v0 w i page e1 e2); [congruence | assumption | assumption | exact He1]).
  destruct back1.
  { exists sent1, true, e2, v1. split; [reflexivity |]. split; [exact Hv2 |].
    split; [exact Hl1 | exact He2]. }
  destruct (imgKeyStep_spec (imgKeyCtx p) (imgKeyTaken p) memory raw1 img e2 v1 Hv2)
    as (img2 & sent2 & back2 & e3 & Hrun3 & Hv3 & Hf3 & Hp3 & _ & _).
  rewrite Hrun3. cbn [andThen].
  assert (He3 : onTrack dv v0 w i page e3)
    by (apply (onTrack_same dv v0 w i page e2 e3); [congruence | assumption | assumption | exact He2]).
  destruct back2.
  { exists (sent1 ++ sent2), true, e3, v1. split; [reflexivity |]. split; [exact Hv3 |].
    split; [exact Hl1 | exact He3]. }
  destruct (IH raw1 img2 e3 v1 Hv3 He3) as (sent & back & e' & v' & Hrun & Hv' & Hl' & He').
  rewrite Hrun. cbn [andThen].
  exists (sent1 ++ sent2 ++ sent), back, e', v'. split; [reflexivity |].
  split; [exact Hv' |]. split; [exact (later_trans _ _ _ Hl1 Hl') | exact He'].
Qed.

(** A worker that receives a chunk with the key leaves its database
    matched. *)
Lemma workerLoop_matches memory p rest offset : forall raw img e v,
  validator e = Some v ->
  onTrack dv v0 w i page e ->
  (forall n, scanCtx p n = false) ->
  offset ∈ windowOffsets memory ->
  window32 memory offset = w ->
  zeroBytes w <= 24 ->
  exists sent back e' v',
    workerLoop (Chunk memory p :: rest) raw img e = Done (sent, back, e') /\
    validator e' = Some v' /\
    onTrack dv v0 w i page e' /\ i ∈ matchedDBs v'.
Proof.
  intros raw img e v Hv He Hctx Hoff Hwin Hzero. cbn [workerLoop].
  destruct (derivedKeyStep_matches (scanCtx p) memory offset e v Hv He Hctx Hoff Hwin Hzero)
    as (e1 & v1 & Hrun1 & Hv1 & Hl1 & He1 & Hin).
  destruct (rawKeyStep_spec (keyCtx p) (keyTaken p) memory raw img e1 v1 Hv1)
    as (raw1 & sent1 & back1 & e2 & Hrun2 & Hv2 & Hf2 & Hp2 & _ & _).
  rewrite Hrun1. cbn [andThen]. rewrite Hrun2. cbn [andThen].
  assert (He2 : onTrack dv v0 w i page e2)
    by (apply (onTrack_same dv v0 w i page e1 e2); [congruence | assumption | assumption | exact He1]).
  destruct back1.
  { exists sent1, true, e2, v1. split; [reflexivity |]. split; [exact Hv2 |].
    split; [exact He2 | exact Hin]. }
  destruct (imgKeyStep_spec (imgKeyCtx p) (imgKeyTaken p) memory raw1 img e2 v1 Hv2)
    as (img2 & sent2 & back2 & e3 & Hrun3 & Hv3 & Hf3 & Hp3 & _ & _).
  rewrite Hrun3. cbn [andThen].
  assert (He3 : onTrack dv v0 w i page e3)
    by (apply (onTrack_same dv v0 w i page e2 e3); [congruence | assumption | assumption | exact He2]).
  destruct back2.
  { exists (sent1 ++ sent2), true, e3, v1. split; [reflexivity |]. split; [exact Hv3 |].
    split; [exact He3 | exact Hin]. }
  destruct (workerLoop_onTrack rest raw1 img2 e3 v1 Hv3 He3)
    as (sent & back & e' & v' & Hrun & Hv' & Hl' & He').
  rewrite Hrun. cbn [andThen].
  exists (sent1 ++ sent2 ++ sent), back, e', v'. split; [reflexivity |].
  split; [exact Hv' |]. split; [exact He' |].
  destruct Hl' as (_ & _ & _ & _ & _ & Hmono). apply Hmono, Hin.
Qed.

(** The same after any number of passes in which the worker does not
    return. *)
Lemma workerLoop_passes_matches memory p rest offset pre :
  Forall (fun a => passesOn a = true) pre ->
  (forall n, scanCtx p n = false) ->
  offset ∈ windowOffsets memory ->
  window32 memory offset = w ->
  zeroBytes w <= 24 ->
  forall raw img e v,
    validator e = Some v ->
    onTrack dv v0 w i page e ->
    exists sent back e' v',
      workerLoop (pre ++ Chunk memory p :: rest) raw img e = Done (sent, back, e') /\
      validator e' = Some v' /\
      onTrack dv v0 w i page e' /\ i ∈ matchedDBs v'.
Proof.
  intros Hpre Hctx Hoff Hwin Hzero.
  induction Hpre as [|a pre Ha _ IH]; intros raw img e v Hv He.
  { apply (workerLoop_matches memory p rest offset raw img e v); assumption. }
  destruct a as [|taken|memory' p']; try discriminate.
  cbn [passesOn] in Ha. apply andb_true_iff in Ha as [Hk Hi].
  cbn [app workerLoop].
  destruct (derivedKeyStep_onTrack (scanCtx p') memory' e v Hv He)
    as (e1 & v1 & Hrun1 & Hv1 & Hl1 & He1).
  destruct (rawKeyStep_spec (keyCtx p') (keyTaken p') memory' raw img e1 v1 Hv1)
    as (raw1 & sent1 & back1 & e2 & Hrun2 & Hv2 & Hf2 & Hp2 & _ & _).
  rewrite Hrun1. cbn [andThen]. rewrite Hrun2. cbn [andThen].
  rewrite Hk in Hrun2. apply rawKeyStep_taken in Hrun2 as ->.
  assert (He2 : onTrack dv v0 w i page e2)
    by (apply (onTrack_same dv v0 w i page e1 e2); [congruence | assumption | assumption | exact He1]).
  destruct (imgKeyStep_spec (imgKeyCtx p') (imgKeyTaken p') memory' raw1 img e2 v1 Hv2)
    as (img2 & sent2 & back2 & e3 & Hrun3 & Hv3 & Hf3 & Hp3 & _ & _).
  rewrite Hrun3. cbn [andThen].
  rewrite Hi in Hrun3. apply imgKeyStep_taken in Hrun3 as ->.
  assert (He3 : onTrack dv v0 w i page e3)
    by (apply (onTrack_same dv v0 w i page e2 e3); [congruence | assumption | assumption | exact He2]).
  destruct (IH raw1 img2 e3 v1 Hv3 He3) as (sent & back & e' & v' & Hrun & Hv' & He' & Hin).
  rewrite Hrun. cbn [andThen].
  exists (sent1 ++ sent2 ++ sent), back, e', v'. split; [reflexivity |].
  split; [exact Hv' |]. split; assumption.
Qed.

End EmbeddedWorker.

(** X17.  What a worker sends.  With a validator set, a worker returns or
    is left waiting for its next chunk, and it has sent at most three
    messages.  There are a raw key and an image key, each the empty string
    or the hex string of a window (of 32 and of 16 bytes) that [Validate]
    and [ValidateImgKey] accepted, such that every message sent holds, in
    its first place, this raw key or the empty string and, in its second
    place, this image key or the empty string, and is not empty in both
    places. *)
Theorem worker_messages (arrivals : list arrival) (e : V4Extractor) (v : Validator) :
  validator e = Some v ->
  exists sent back e' rawKey imgKey,
    worker arrivals e = Done (sent, back, e') /\
    (length sent <= 3)%nat /\
    acceptedKey DataKey v rawKey /\
    acceptedKey ImgKey v imgKey /\
    Forall (carries rawKey imgKey) sent.
Proof.
  intros Hv.
  destruct (workerLoop_messages v arrivals ""%string ""%string e v Hv (later_refl v))
    as (sent & back & e' & v' & rawKey & imgKey & Hrun & _ & _ & _ & Hlen & _ & _
        & Hraw & Himg & Hall); [left; reflexivity | left; reflexivity |].
  exists sent, back, e', rawKey, imgKey. split; [exact Hrun |].
  split; [exact Hlen |]. split; [exact Hraw |]. split; assumption.
Qed.

Lemma worker_messages_witness :
  exists sent back e' rawKey imgKey,
    worker [Chunk rawKeyChunk samplePass; Closed true] sampleExtractor =
      Done (sent, back, e') /\
    (length sent <= 3)%nat /\
    acceptedKey DataKey sampleValidator rawKey /\
    acceptedKey ImgKey sampleValidator imgKey /\
    Forall (carries rawKey imgKey) sent.
Proof.
  apply (worker_messages [Chunk rawKeyChunk samplePass; Closed true] sampleExtractor
           sampleValidator).
  reflexivity.
Defined.

Lemma workerLoop_idle v arrivals :
  AllDerivedKeysFound v = true ->
  forall raw img e,
    validator e = Some v ->
    exists sent back e' new,
      workerLoop arrivals raw img e = Done (sent, back, e') /\
      validator e' = Some v /\
      foundDerivedKeys e' = foundDerivedKeys e /\
      processedDerivedKeys e' = processedDerivedKeys e /\
      asked e' = new ++ asked e /\
      Forall (fun a => isDerivedAsk a = false) new.
Proof.
  intros Hall. induction arrivals as [|a rest IH]; intros raw img e Hv.
  { exists [], false, e, []. repeat split; try assumption. constructor. }
  destruct a as [|taken|memory p].
  { exists [], true, e, []. repeat split; try assumption. constructor. }
  { cbn [workerLoop]. destruct (_ || _); [destruct taken |];
      eexists _, true, e, []; repeat split; try assumption; constructor. }
  cbn [workerLoop].
  destruct (derivedKeyStep_spec (scanCtx p) memory e v Hv)
    as (e1 & v1 & Hrun1 & Hv1 & _ & _ & Hskip & _).
  pose proof (Hskip Hall) as ->. rewrite Hv in Hv1. injection Hv1 as <-.
  destruct (rawKeyStep_spec (keyCtx p) (keyTaken p) memory raw img e v Hv)
    as (raw1 & sent1 & back1 & e2 & Hrun2 & Hv2 & Hf2 & Hp2 & (ws2 & Ha2) & _).
  rewrite Hrun1. cbn [andThen]. rewrite Hrun2. cbn [andThen].
  assert (Hws2 : Forall (fun a => isDerivedAsk a = false) (AskValidate <$> ws2))
    by (apply Forall_fmap, Forall_forall; intros; reflexivity).
  destruct back1.
  { exists sent1, true, e2, (AskValidate <$> ws2). repeat split; assumption. }
  destruct (imgKeyStep_spec (imgKeyCtx p) (imgKeyTaken p) memory raw1 img e2 v Hv2)
    as (img2 & sent2 & back2 & e3 & Hrun3 & Hv3 & Hf3 & Hp3 & (ws3 & Ha3) & _).
  rewrite Hrun3. cbn [andThen].
  assert (Hws3 : Forall (fun a => isDerivedAsk a = false) (AskValidateImgKey <$> ws3))
    by (apply Forall_fmap, Forall_forall; intros; reflexivity).
  destruct back2.
  { exists (sent1 ++ sent2), true, e3, ((AskValidateImgKey <$> ws3) ++ (AskValidate <$> ws2)).
    split; [reflexivity |]. split; [exact Hv3 |]. split; [congruence |].
    split; [congruence |]. split; [rewrite Ha3, Ha2, app_assoc; reflexivity |].
    apply Forall_app. split; assumption. }
  destruct (IH raw1 img2 e3 Hv3) as (sent & back & e' & new & Hrun & Hv' & Hf' & Hp' & Ha' & Hnew).
  rewrite Hrun. cbn [andThen].
  exists (sent1 ++ sent2 ++ sent), back, e',
    (new ++ (AskValidateImgKey <$> ws3) ++ (AskValidate <$> ws2)).
  split; [reflexivity |]. split; [exact Hv' |]. split; [congruence |].
  split; [congruence |]. split; [rewrite Ha', Ha3, Ha2, !app_assoc; reflexivity |].
  apply Forall_app. split; [exact Hnew |]. apply Forall_app. split; assumption.
Qed.

(** X18.  Once [AllDerivedKeysFound] holds, a worker leaves the derived
    keys alone: whatever chunks it receives, it does not call
    [ValidateDerivedKey], and the validator, [foundDerivedKeys] and
    [processedDerivedKeys] are afterwards as they were. *)
Theorem worker_after_all_found (arrivals : list arrival) (e : V4Extractor)
    (v : Validator) :
  validator e = Some v ->
  AllDerivedKeysFound v = true ->
  exists sent back e' new,
    worker arrivals e = Done (sent, back, e') /\
    validator e' = Some v /\
    foundDerivedKeys e' = foundDerivedKeys e /\
    processedDerivedKeys e' = processedDerivedKeys e /\
    asked e' = new ++ asked e /\
    Forall (fun a => isDerivedAsk a = false) new.
Proof.
  intros Hv Hall. apply (workerLoop_idle v arrivals Hall ""%string ""%string e Hv).
Qed.

Lemma worker_after_all_found_witness :
  exists sent back e' new,
    worker [Chunk derivedChunk samplePass; Closed true] matchedExtractor =
      Done (sent, back, e') /\
    validator e' = Some matchedValidator /\
    foundDerivedKeys e' = foundDerivedKeys matchedExtractor /\
    processedDerivedKeys e' = processedDerivedKeys matchedExtractor /\
    asked e' = new ++ asked matchedExtractor /\
    Forall (fun a => isDerivedAsk a = false) new.
Proof.
  apply (worker_after_all_found [Chunk derivedChunk samplePass; Closed true]
           matchedExtractor matchedValidator).
  - reflexivity.
  - vm_compute. reflexivity.
Defined.

(** X19.  A worker stores the derived key of a chunk.  Let the worker go
    through any number of chunks without returning (its messages are
    taken), and then receive a chunk that it scans under a context that is
    not cancelled.  If a 32-byte window of this chunk at an offset that is
    a multiple of 8 holds at most 24 zero bytes, was not processed before
    the worker started (or its database was matched) and authenticates the
    first page of one database of the validator, and of that database
    only, then the worker ends with that database matched; and unless it
    was matched before, [foundDerivedKeys] then holds a key that
    authenticates its first page. *)
Theorem worker_stores_derived_key (pre rest : list arrival) (memory : list byte)
    (p : pass) (e : V4Extractor) (v : Validator)
    (dv : list byte -> list byte -> bool) (offset i : Z) (page : list byte) :
  validator e = Some v ->
  tracked v ->
  Decryptor_ValidateDerivedKey (decryptor v) = Some dv ->
  Forall (fun a => passesOn a = true) pre ->
  (forall n, scanCtx p n = false) ->
  0 <= offset /\ offset mod 8 = 0 /\ offset + 32 <= len memory ->
  zeroBytes (window32 memory offset) <= 24 ->
  (EncodeToString (window32 memory offset) ∉ processedDerivedKeys e) \/ i ∈ matchedDBs v ->
  pageOf v i = Some page ->
  dv page (window32 memory offset) = true ->
  (forall j pagej, pageOf v j = Some pagej ->
                   dv pagej (window32 memory offset) = true -> j = i) ->
  exists sent back e' v',
    worker (pre ++ Chunk memory p :: rest) e = Done (sent, back, e') /\
    validator e' = Some v' /\ i ∈ matchedDBs v' /\
    (i ∈ matchedDBs v \/
     exists w', EncodeToString w' ∈ foundDerivedKeys e' /\ dv page w' = true).
Proof.
  intros Hv Ht Hdv Hpre Hctx Hoff Hzero Hnew Hpage Hok Hunique.
  assert (He : onTrack dv v (window32 memory offset) i page e).
  { apply onTrack_start; try assumption.
    intros Hin. destruct Hnew as [Hnot | Hmatched]; [contradiction | exact Hmatched]. }
  destruct (workerLoop_passes_matches dv v (window32 memory offset) i page Hpage Hok Hunique
              memory p rest offset pre Hpre Hctx) with (raw := ""%string) (img := ""%string)
              (e := e) (v := v)
    as (sent & back & e' & v' & Hrun & Hv' & He' & Hin); try assumption; try reflexivity.
  { apply elem_of_windowOffsets, Hoff. }
  exists sent, back, e', v'. split; [exact Hrun |]. split; [exact Hv' |].
  split; [exact Hin |].
  destruct He' as (v'' & Hv'' & _ & _ & _ & _ & _ & Hkey).
  rewrite Hv' in Hv''. injection Hv'' as <-. apply Hkey, Hin.
Qed.

Lemma worker_stores_derived_key_witness :
  exists sent back e' v',
    worker ([] ++ Chunk derivedChunk samplePass :: [Closed true]) sampleExtractor =
      Done (sent, back, e') /\
    validator e' = Some v' /\ 0 ∈ matchedDBs v' /\
    (0 ∈ matchedDBs sampleValidator \/
     exists w', EncodeToString w' ∈ foundDerivedKeys e' /\
                samplePageTest (FirstPage sessionDB) w' = true).
Proof.
  apply (worker_stores_derived_key [] [Closed true] derivedChunk samplePass sampleExtractor
           sampleValidator samplePageTest 16 0 (FirstPage sessionDB)).
  - reflexivity.
  - apply tracked_sampleValidator.
  - reflexivity.
  - constructor.
  - intros n. reflexivity.
  - vm_compute. intuition discriminate.
  - vm_compute. discriminate.
  - left. vm_compute. set_solver.
  - reflexivity.
  - vm_compute. reflexivity.
  - intros j pagej Hj Hok. change (window32 derivedChunk 16) with sessionKey in Hok.
    exact (sessionKey_only_session j pagej Hj Hok).
Defined.

(** ** [AllDerivedKeysFound] while other goroutines validate *)

Lemma callStep_keeps key v p v' p' :
  callStep key v p = (v', p') ->
  totalDBCount v' = totalDBCount v /\ matchedDBs v ⊆ matchedDBs v'.
Proof.
  destruct p as [|i|i|i|b]; cbn [callStep].
  - destruct (Decryptor_ValidateDerivedKey (decryptor v)); intros [= <- <-];
      split; reflexivity.
  - destruct (pageOf v i), (Decryptor_ValidateDerivedKey (decryptor v));
      try (intros [= <- <-]; split; reflexivity).
    destruct (decide (i ∈ matchedDBs v)); [intros [= <- <-]; split; reflexivity |].
    unfold probe. destruct (_ _ key); intros [= <- <-]; split; reflexivity.
  - destruct (decide (i ∈ matchedDBs v)); intros [= <- <-];
      (split; [reflexivity |]); cbn; set_solver.
  - intros [= <- <-]; split; reflexivity.
  - intros [= <- <-]; split; reflexivity.
Qed.

Lemma sharedStep_keeps s s' :
  sharedStep s s' ->
  totalDBCount (sharedValidator s') = totalDBCount (sharedValidator s) /\
  extraDBFiles (sharedValidator s') = extraDBFiles (sharedValidator s) /\
  matchedDBs (sharedValidator s) ⊆ matchedDBs (sharedValidator s').
Proof.
  intros [v cs n c v' p' Hn Hcall | v cs n c b key Hn Hret | v cs key];
    cbn [sharedValidator]; [| repeat split; reflexivity ..].
  destruct (callStep_keeps _ _ _ _ _ Hcall) as [Ht Hm].
  pose proof (callStep_extraDBFiles _ _ _ _ _ Hcall) as Hf.
  repeat split; assumption.
Qed.

Lemma sharedSteps_keeps s s' :
  sharedSteps s s' ->
  totalDBCount (sharedValidator s') = totalDBCount (sharedValidator s) /\
  extraDBFiles (sharedValidator s') = extraDBFiles (sharedValidator s) /\
  matchedDBs (sharedValidator s) ⊆ matchedDBs (sharedValidator s').
Proof.
  induction 1 as [|s1 s2 s3 Hstep _ (IH1 & IH2 & IH3)]; [repeat split; reflexivity |].
  destruct (sharedStep_keeps _ _ Hstep) as (H1 & H2 & H3).
  repeat split; try congruence. etrans; eassumption.
Qed.

(** A schedule is one of the interleavings. *)
Lemma stepOf_steps n s : sharedSteps s (stepOf n s).
Proof.
  destruct s as [v cs]. unfold stepOf. cbn [calls sharedValidator].
  destruct (cs !! n) as [c|] eqn:Hn; [| apply rtc_refl].
  destruct (callStep (callKey c) v (callAt c)) as [v' p'] eqn:Hcall.
  apply rtc_once. exact (step_op v cs n c v' p' Hn Hcall).
Qed.

Lemma schedule_steps ns : forall s, sharedSteps s (schedule ns s).
Proof.
  induction ns as [|n ns IH]; intros s; [apply rtc_refl |].
  cbn [schedule]. etrans; [apply stepOf_steps | apply IH].
Qed.

(** X20.  [AllDerivedKeysFound] is not early, whatever the goroutines do.
    Start any number of goroutines on a validator whose bookkeeping is
    consistent and whose [totalDBCount] counts the primary and the extra
    files, and let them call [ValidateDerivedKey] with any keys, their
    atomic operations interleaved in any way.  At every moment the marks
    only grow, [matchedCount] is at most the number of marked databases,
    and if [AllDerivedKeysFound] answers true then every database of the
    validator is marked and no goroutine has an increment pending. *)
Theorem AllDerivedKeysFound_shared (v : Validator) (cs : list call) (s : shared) :
  consistent v = true ->
  totalDBCount v = len (extraDBFiles v) + 1 ->
  forallb atEntry cs = true ->
  sharedSteps {| sharedValidator := v; calls := cs |} s ->
  matchedDBs v ⊆ matchedDBs (sharedValidator s) /\
  matchedCount (sharedValidator s) <= Z.of_nat (size (matchedDBs (sharedValidator s))) /\
  (AllDerivedKeysFound (sharedValidator s) = true ->
   matchedDBs (sharedValidator s) = dbIndices (sharedValidator s) /\
   pendingAdds (calls s) = 0).
Proof.
  intros Hc Htotal Hentry Hsteps.
  pose proof (counted_steps _ _ Hsteps (counted_initial v cs Hc Hentry))
    as (Hsub & Hcount & Hpos & Hbound & _).
  destruct (sharedSteps_keeps _ _ Hsteps) as (Ht & Hf & Hm).
  cbn [sharedValidator] in Ht, Hf, Hm.
  pose proof (pendingAdds_nonneg (calls s)) as Hpend.
  pose proof (size_matched_bound _ Hsub) as Hsize.
  split; [exact Hm |]. split; [lia |].
  intros Hall. unfold AllDerivedKeysFound in Hall.
  apply andb_true_iff in Hall as [_ Hge]. apply Z.leb_le in Hge.
  rewrite Ht, Htotal, <- Hf in Hge.
  pose proof (len_nonneg (extraDBFiles (sharedValidator s))) as Hlen.
  rewrite int32_small in Hge by lia.
  split; [| lia].
  apply set_subseteq_size_eq; [exact Hsub |].
  pose proof (size_dbIndices (sharedValidator s)). lia.
Qed.

(** Three goroutines under the sample schedule: two of them test the page
    of the session database before either stores its mark, and all three
    have returned at the end. *)
Lemma AllDerivedKeysFound_shared_witness :
  let s := schedule sampleSchedule
             {| sharedValidator := sampleValidator; calls := sampleCalls |} in
  AllDerivedKeysFound (sharedValidator s) = true /\
  matchedDBs sampleValidator ⊆ matchedDBs (sharedValidator s) /\
  matchedCount (sharedValidator s) <= Z.of_nat (size (matchedDBs (sharedValidator s))) /\
  matchedDBs (sharedValidator s) = dbIndices (sharedValidator s) /\
  pendingAdds (calls s) = 0.
Proof.
  intros s.
  destruct (AllDerivedKeysFound_shared sampleValidator sampleCalls s
              eq_refl eq_refl eq_refl (schedule_steps sampleSchedule _))
    as (Hmono & Hcount & Hall).
  assert (Hfound : AllDerivedKeysFound (sharedValidator s) = true)
    by (vm_compute; reflexivity).
  destruct (Hall Hfound) as [Hmarked Hpending].
  split; [exact Hfound |]. split; [exact Hmono |]. split; [exact Hcount |].
  split; assumption.
Defined.

(** One step earlier both databases are marked, but the first goroutine has
    not yet added to the counter: [AllDerivedKeysFound] still answers
    false. *)
Example schedule_marks_before_count :
  let s := schedule (take 12 sampleSchedule)
             {| sharedValidator := sampleValidator; calls := sampleCalls |} in
  callAt <$> calls s = [AtAdd 0; Returned true; Returned true] /\
  elements (matchedDBs (sharedValidator s)) = [-1; 0] /\
  matchedCount (sharedValidator s) = 1 /\
  pendingAdds (calls s) = 1 /\
  AllDerivedKeysFound (sharedValidator s) = false.
Proof. vm_compute. repeat split; reflexivity. Qed.

(** ** The walk over [db_storage] *)

Lemma entry_nested_ind (P : entry -> Prop) :
  (forall name, P (NoEntry name)) ->
  (forall name opened, P (FileEntry name opened)) ->
  (forall name, P (DirEntry name None)) ->
  (forall name names, Forall P names -> P (DirEntry name (Some names))) ->
  forall n, P n.
Proof.
  intros Hno Hfile Hclosed Hdir. fix IH 1. intros [name|name opened|name [names|]].
  - apply Hno.
  - apply Hfile.
  - apply Hdir. induction names as [|child names IHnames]; constructor.
    + apply IH.
    + exact IHnames.
  - apply Hclosed.
Qed.

Section Walk.

Variable join : string -> string -> string.
Variable dbPath : string.

(** What a walk from an entry adds to the files collected so far, and that
    it asks to skip nothing when the entry is a file. *)
Let collects (n : entry) : Prop :=
  forall path extra,
    exists err new,
      walk join dbPath path n extra = (err, extra ++ new) /\
      (forall d, d ∈ new <-> listed join dbPath path n d) /\
      match n with
      | FileEntry _ _ => err = WalkNil
      | _ => True
      end.

Lemma walkNames_collects path names :
  Forall collects names ->
  forall extra,
    exists new,
      walkNames (walk join dbPath) join path names extra = (WalkNil, extra ++ new) /\
      (forall d, d ∈ new <->
                 exists child, child ∈ names /\
                               listed join dbPath (join path (entryName child)) child d).
Proof.
  induction 1 as [|child names Hchild _ IH]; intros extra.
  - exists []. rewrite app_nil_r. split; [reflexivity |].
    intros d. split; [intros Hin; inversion Hin |].
    intros (child & Hin & _). inversion Hin.
  - destruct (Hchild (join path (entryName child)) extra) as (err & new1 & Hrun & Hnew1 & Hfile).
    destruct (IH (extra ++ new1)) as (new2 & Hrest & Hnew2).
    exists (new1 ++ new2). split.
    + cbn [walkNames]. rewrite Hrun. rewrite app_assoc.
      destruct child as [name|name opened|name listing]; [| rewrite Hfile |];
        try destruct err; exact Hrest.
    + intros d. rewrite elem_of_app, Hnew1, Hnew2. split.
      * intros [Hfirst | (c & Hin & Hc)].
        -- exists child. split; [left | exact Hfirst].
        -- exists c. split; [right; exact Hin | exact Hc].
      * intros (c & Hin & Hc). apply elem_of_cons in Hin as [-> | Hin].
        -- left. exact Hc.
        -- right. exists c. split; assumption.
Qed.

Lemma walk_collects (n : entry) : collects n.
Proof.
  induction n as [name|name opened|name|name names IH] using entry_nested_ind;
    intros path extra.
  - exists WalkNil, []. rewrite app_nil_r. split; [reflexivity |]. split; [| exact I].
    intros d. split; intros H; inversion H.
  - cbn [walk walkFn].
    destruct (strings_HasSuffix name ".db") eqn:Esuffix;
      [destruct (strings_Contains name "fts") eqn:Efts;
       [| destruct (String.eqb path dbPath) eqn:Epath; [| destruct opened as [d|]]] |];
      cbn [negb orb].
    5: { exists WalkNil, []. rewrite app_nil_r. split; [reflexivity |]. split; [| reflexivity].
         intros d. split; intros H; inversion H; congruence. }
    1: { exists WalkNil, []. rewrite app_nil_r. split; [reflexivity |]. split; [| reflexivity].
         intros d. split; intros H; inversion H; congruence. }
    1: { exists WalkNil, []. rewrite app_nil_r. split; [reflexivity |]. split; [| reflexivity].
         apply String.eqb_eq in Epath.
         intros d. split; intros H; inversion H; congruence. }
    2: { exists WalkNil, []. rewrite app_nil_r. split; [reflexivity |]. split; [| reflexivity].
         intros d. split; intros H; inversion H. }
    exists WalkNil, [d]. split; [reflexivity |]. split; [| reflexivity].
    apply String.eqb_neq in Epath.
    intros d'. rewrite list_elem_of_singleton. split.
    + intros ->. constructor; assumption.
    + intros H. inversion H. reflexivity.
  - exists WalkNil, []. rewrite app_nil_r. split; [reflexivity |]. split; [| exact I].
    intros d. split; intros H; inversion H.
  - cbn [walk walkFn]. destruct (strings_Contains name "fts") eqn:Efts.
    + exists SkipDir, []. rewrite app_nil_r. split; [reflexivity |]. split; [| exact I].
      intros d. split; intros H; inversion H; congruence.
    + destruct (walkNames_collects path names IH extra) as (new & Hrun & Hnew).
      exists WalkNil, new. split; [exact Hrun |]. split; [| exact I].
      intros d. rewrite Hnew. split.
      * intros (child & Hin & Hc). econstructor; eassumption.
      * intros H. inversion H; subst. exists child. split; assumption.
Qed.

End Walk.

(** X21.  Which files [NewValidatorWithFile] loads for derived-key
    validation.  [NewValidator] fails exactly when the decryptor cannot be
    made or the primary file cannot be opened.  For version 4 the files in
    [extraDBFiles] are exactly those found under [db_storage] that open,
    whose name ends in [".db"] and does not contain ["fts"], whose path is
    not that of the primary, and that lie in no directory that cannot be
    read or has ["fts"] in its name; [totalDBCount] counts them and the
    primary.  For any other version nothing is loaded and [totalDBCount]
    is 0, whatever [db_storage] holds. *)
Theorem NewValidator_extraDBFiles (join : string -> string -> string)
    (platform_ : string) (version_ : Z) (dataDir : string)
    (newDecryptor : option Decryptor) (openPrimary : option DBFile)
    (img : list byte -> bool) (storage : entry) :
  match NewValidator join platform_ version_ dataDir newDecryptor openPrimary img storage with
  | None => newDecryptor = None \/ openPrimary = None
  | Some v =>
      newDecryptor = Some (decryptor v) /\ openPrimary = Some (dbFile v) /\
      dbPath v = join dataDir (GetSimpleDBFile platform_ version_) /\
      matchedDBs v = ∅ /\ matchedCount v = 0 /\
      if version_ =? 4 then
        totalDBCount v = len (extraDBFiles v) + 1 /\
        forall d, d ∈ extraDBFiles v <->
                  listed join (dbPath v) (join dataDir "db_storage") storage d
      else extraDBFiles v = [] /\ totalDBCount v = 0
  end.
Proof.
  unfold NewValidator. destruct newDecryptor as [dec|]; [| left; reflexivity].
  destruct openPrimary as [d|]; [| right; reflexivity].
  unfold NewValidatorWithFile. destruct (version_ =? 4) eqn:E;
    cbn [decryptor dbFile dbPath matchedDBs matchedCount totalDBCount extraDBFiles];
    repeat (split; [reflexivity |]); [| split; reflexivity].
  destruct (walk_collects join (join dataDir (GetSimpleDBFile platform_ version_)) storage
              (join dataDir "db_storage") []) as (err & new & Hrun & Hnew & _).
  rewrite Hrun. cbn [snd app]. exact Hnew.
Qed.

(** ** Without a validator *)

(** X22.  What happens when no validator was set.  [SearchAllDerivedKeys]
    returns 0 and leaves the extractor alone if the chunk is shorter than
    32 bytes or its first poll finds the context cancelled, and otherwise
    it panics at its first call of [AllDerivedKeysFound], on a nil
    pointer; a worker panics in the same way at the first chunk it
    receives.  [Extract] does not get that far: it returns
    [ErrValidatorNotSet] and no keys. *)
Theorem without_validator (ctx : Context) (memory : list byte) (p : pass)
    (rest : list arrival) (e : V4Extractor) :
  validator e = None ->
  SearchAllDerivedKeys ctx memory e =
    (if (len memory <? 32) || ctx 0%nat then Done (0, e) else NilPanic) /\
  worker (Chunk memory p :: rest) e = NilPanic /\
  (forall rangeOrder rounds found,
     Extract rangeOrder StatusOnline true e rounds found =
     (""%string, ""%string, Some ErrValidatorNotSet)).
Proof.
  intros Hv. split; [| split].
  - unfold SearchAllDerivedKeys. destruct (len memory <? 32) eqn:Elen; [reflexivity |].
    cbn [orb derivedLoop]. rewrite Z.add_0_l, Elen.
    unfold pollPoint, theValidator. rewrite Hv.
    change (0 mod (8 * 1024) =? 0) with true. cbn iota.
    destruct (ctx 0%nat); reflexivity.
  - unfold worker. cbn [workerLoop]. unfold derivedKeyStep, theValidator.
    rewrite Hv. reflexivity.
  - intros rangeOrder rounds found. unfold Extract. rewrite Hv. reflexivity.
Qed.

Lemma without_validator_witness :
  SearchAllDerivedKeys background derivedChunk NewV4Extractor =
    (if (len derivedChunk <? 32) || background 0%nat
     then Done (0, NewV4Extractor) else NilPanic) /\
  worker (Chunk derivedChunk samplePass :: []) NewV4Extractor = NilPanic /\
  (forall rangeOrder rounds found,
     Extract rangeOrder StatusOnline true NewV4Extractor rounds found =
     (""%string, ""%string, Some ErrValidatorNotSet)).
Proof.
  apply (without_validator background derivedChunk samplePass [] NewV4Extractor).
  reflexivity.
Defined.

(** ** [Extract]: where its keys come from *)

Lemma awaitResults_published (rounds : list received) (derivedKeys : list string) :
  forall raw img,
    let r := awaitResults rounds derivedKeys raw img in
    (r.1.1 = ""%string \/ r.1.1 = raw \/ In r.1.1 (rawKeysOf rounds) \/
     (derivedKeys <> [] /\ r.1.1 = ("derived:" +:+ Join derivedKeys ",")%string)) /\
    (r.1.2 = ""%string \/ r.1.2 = img \/ In r.1.2 (imgKeysOf rounds)).
Proof.
  induction rounds as [|r0 rounds IH]; intros raw img.
  - cbn [awaitResults rawKeysOf imgKeysOf]. cbn zeta.
    destruct derivedKeys as [|k ks].
    + change (0 <? len (@nil string)) with false. cbn iota.
      destruct (nonEmpty raw) eqn:Eraw; [rewrite Eraw | destruct (nonEmpty img)];
        cbn; tauto.
    + replace (0 <? len (k :: ks)) with true
        by (symmetry; apply Z.ltb_lt; unfold len; cbn [length]; lia).
      cbn iota. rewrite nonEmpty_derived. cbn [orb fst snd].
      split; [right; right; right; split; [discriminate | reflexivity] | tauto].
  - destruct r0 as [r0 r1|]; cbn [awaitResults rawKeysOf imgKeysOf]; [| cbn; tauto].
    set (raw' := if nonEmpty r0 then r0 else raw).
    set (img' := if nonEmpty r1 then r1 else img).
    assert (Hr : raw' = raw \/ r0 = raw') by (unfold raw'; destruct (nonEmpty r0); tauto).
    assert (Hi : img' = img \/ r1 = img') by (unfold img'; destruct (nonEmpty r1); tauto).
    destruct (nonEmpty raw' && nonEmpty img').
    + cbn [fst snd In]. split.
      * destruct Hr as [-> | Hr]; tauto.
      * destruct Hi as [-> | Hi]; tauto.
    + destruct (IH raw' img') as [H1 H2]. cbn zeta in H1, H2. cbn [In]. split.
      * destruct H1 as [H | [H | [H | H]]]; [tauto | | tauto | tauto].
        rewrite H. destruct Hr as [-> | Hr]; tauto.
      * destruct H2 as [H | [H | H]]; [tauto | | tauto].
        rewrite H. destruct Hi as [-> | Hi]; tauto.
Qed.

(** X23.  Where the keys that [Extract] returns come from.  Whatever the
    state of the process and of the channels, the data key returned is
    empty, or a raw key that a worker published, or ["derived:"] followed
    by the keys of [foundDerivedKeys] joined by [","] (and then there is
    such a key); the image key returned is empty or an image key that a
    worker published. *)
Theorem Extract_returns_published (rangeOrder : gset string -> list string)
    (procStatus : status) (sipDisabled : bool) (e : V4Extractor)
    (rounds : list received) (found : gset string) :
  let r := Extract rangeOrder procStatus sipDisabled e rounds found in
  (r.1.1 = ""%string \/ In r.1.1 (rawKeysOf rounds) \/
   (rangeOrder found <> [] /\
    r.1.1 = ("derived:" +:+ Join (rangeOrder found) ",")%string)) /\
  (r.1.2 = ""%string \/ In r.1.2 (imgKeysOf rounds)).
Proof.
  unfold Extract. destruct procStatus; [| cbn; tauto].
  destruct sipDisabled; cbn [negb]; [| cbn; tauto].
  destruct (validator e); [| cbn; tauto].
  destruct (awaitResults_published rounds (rangeOrder found) ""%string ""%string) as [H1 H2].
  cbn zeta in *. split; [| tauto].
  destruct H1 as [H | [H | [H | H]]]; tauto.
Qed.
